(** * The document-editing agent: prompt formatting and response decoding

    A shallow embedding of [src/server/claude_agent.py].  The class
    [ClaudeAgent] formats an editing context into one prompt
    ([_format_prompt_with_context]), sends it to a backend, and decodes the
    backend's free-form answer into an edit result ([_parse_response]).

    Conventions of the embedding.
    - A Python [str] is a list of Unicode code points ([N]).
    - Python values (what [json.loads] returns and what a context mapping
      holds) are the inductive type [pyval].
    - A Python exception is a value of [exn]; a computation that may raise
      has type [M A = exn + A].
    - [print] calls are not modelled, except where the evaluation of the
      printed expression can raise (line 139): they have no effect on any
      value the agent returns or stores.
    - The two resource limits of the interpreter that [json.loads] runs
      into are parameters of the embedding ([limits]): the room the
      recursion limit leaves for nested containers ([RecursionError]) and
      the digit limit of [int] ([ValueError]).  Neither is a
      [JSONDecodeError], so the agent does not catch them. *)

From Stdlib Require Import NArith ZArith Ascii String List Bool Lia DecimalString.
From stdpp Require Import base option list countable gmap.

Local Open Scope N_scope.

(** ** Strings *)

Definition char := N.
Definition str := list char.
#[global] Typeclasses Transparent char str.

(** [py "..."] is the Python string whose code points are the bytes of the
    literal. *)
Fixpoint py (s : string) : str :=
  match s with
  | EmptyString => []
  | String a s' => N_of_ascii a :: py s'
  end.

Module Ch.
Definition tab : char := 9.
Definition lf : char := 10.
Definition cr : char := 13.
Definition space : char := 32.
Definition quote : char := 34.
Definition plus : char := 43.
Definition comma : char := 44.
Definition minus : char := 45.
Definition dot : char := 46.
Definition slash : char := 47.
Definition zero : char := 48.
Definition nine : char := 57.
Definition colon : char := 58.
Definition lbracket : char := 91.
Definition backslash : char := 92.
Definition rbracket : char := 93.
Definition backtick : char := 96.
Definition lbrace : char := 123.
Definition rbrace : char := 125.
End Ch.

(** [pyq "..."] is [py "..."] with every apostrophe replaced by a double
    quote, to write JSON texts legibly. *)
Definition pyq (s : string) : str :=
  map (fun c => if c =? 39 then 34 else c) (py s).

(** [Py_UNICODE_ISSPACE]: the characters [str.strip()] removes and the
    regular-expression class [\s] matches on a [str] pattern. *)
Definition isspace (c : char) : bool :=
  ((9 <=? c) && (c <=? 13)) || ((28 <=? c) && (c <=? 32))
  || (c =? 133) || (c =? 160) || (c =? 5760)
  || ((8192 <=? c) && (c <=? 8202))
  || (c =? 8232) || (c =? 8233) || (c =? 8239) || (c =? 8287) || (c =? 12288).

Fixpoint lstrip (s : str) : str :=
  match s with
  | c :: s' => if isspace c then lstrip s' else s
  | [] => []
  end.

Definition rstrip (s : str) : str := rev (lstrip (rev s)).

(** [s.strip()] *)
Definition strip (s : str) : str := rstrip (lstrip s).

(** [s.startswith(p)], returning what follows the prefix. *)
Fixpoint strip_prefix (p s : str) : option str :=
  match p with
  | [] => Some s
  | a :: p' =>
      match s with
      | c :: s' => if a =? c then strip_prefix p' s' else None
      | [] => None
      end
  end.

(** ['sep'.join(parts)] on strings. *)
Fixpoint join (sep : str) (parts : list str) : str :=
  match parts with
  | [] => []
  | [p] => p
  | p :: ps => p ++ sep ++ join sep ps
  end.

(** ** Python values *)

(** A [float] is kept as the decimal it was read from: the agent never
    computes with one, it only tests it for truth. *)
Inductive pyfloat :=
| FNaN
| FInf (negative : bool)
| FDec (negative : bool) (digits : N) (exp10 : Z).

#[warnings="-register-all"]
Inductive pyval :=
| VNone
| VBool (b : bool)
| VInt (z : Z)
| VFloat (f : pyfloat)
| VStr (s : str)
| VList (l : list pyval)
| VDict (d : list (str * pyval)).

(** A decimal [digits * 10^exp10] converts to a double different from 0.0
    exactly when it is larger than half the smallest subnormal, 2^-1075
    (round to nearest, ties to even). *)
Definition float_nonzero (f : pyfloat) : bool :=
  match f with
  | FNaN => true
  | FInf _ => true
  | FDec _ m e =>
      if (0 <=? e)%Z then negb (m =? 0)
      else (10 ^ Z.to_N (- e) <? m * 2 ^ 1075)
  end.

(** Truth value testing, [bool(v)]. *)
Definition truthy (v : pyval) : bool :=
  match v with
  | VNone => false
  | VBool b => b
  | VInt z => negb (z =? 0)%Z
  | VFloat f => float_nonzero f
  | VStr s => negb (bool_decide (s = []))
  | VList l => match l with [] => false | _ => true end
  | VDict d => match d with [] => false | _ => true end
  end.

(** [isinstance(v, dict)] *)
Definition is_dict (v : pyval) : bool :=
  match v with VDict _ => true | _ => false end.

(** A [VDict] holds the key/value pairs in the order [dict(pairs)] received
    them; a later pair overrides an earlier one with the same key. *)
Fixpoint dict_get (d : list (str * pyval)) (k : str) : option pyval :=
  match d with
  | [] => None
  | (k', v) :: d' =>
      match dict_get d' k with
      | Some w => Some w
      | None => if bool_decide (k' = k) then Some v else None
      end
  end.

(** ** Exceptions *)

Inductive exn :=
| JSONDecodeError
| KeyError
| TypeError
| AttributeError
| BackendError
| RecursionError
| ValueError.

Definition M (A : Type) : Type := exn + A.
Definition ret {A} (a : A) : M A := inr a.
Definition raise {A} (e : exn) : M A := inl e.
Definition bind {A B} (m : M A) (k : A -> M B) : M B :=
  match m with
  | inl e => inl e
  | inr a => k a
  end.

Notation "x <-! m ; k" := (bind m (fun x => k))
  (at level 100, m at next level, right associativity).

(** ** [json.loads]

    The scanner of CPython's [json] package (the C scanner of [_json])
    with its default settings: strict strings, the constants [NaN],
    [Infinity] and [-Infinity] accepted, white space limited to space,
    tab, line feed and carriage return.  A text that is not JSON is a
    [JSONDecodeError].  Two limits of the interpreter end a scan with
    another exception:
    - [scan_once] calls [Py_EnterRecursiveCall] before it parses an
      object or an array, so containers nested deeper than the recursion
      limit leaves room for raise [RecursionError];
    - an integer literal is converted by [int], which raises [ValueError]
      when the literal has more than 640 digits and more digits than
      [sys.get_int_max_str_digits()] (4300 unless configured; 0, and any
      interpreter older than the limit, means no limit). *)

Record limits := Limits {
  (** how many containers can be open inside the outermost container of a
      document; it depends on the recursion limit and on the frames in use
      when [json.loads] is called.  The outermost container itself can
      always be entered. *)
  nesting_room : nat;
  (** [sys.get_int_max_str_digits()] *)
  int_max_str_digits : nat
}.

(** [_PY_LONG_MAX_STR_DIGITS_THRESHOLD] *)
Definition int_digits_threshold : nat := 640.

(** Whether [int] refuses a literal of [n] digits. *)
Definition too_many_digits (lim : limits) (n : nat) : bool :=
  (int_digits_threshold <? n)%nat
  && (0 <? int_max_str_digits lim)%nat
  && (int_max_str_digits lim <? n)%nat.

Definition json_ws (c : char) : bool :=
  (c =? Ch.space) || (c =? Ch.tab) || (c =? Ch.lf) || (c =? Ch.cr).

Fixpoint skip_ws (s : str) : str :=
  match s with
  | c :: s' => if json_ws c then skip_ws s' else s
  | [] => []
  end.

Definition is_digit (c : char) : bool := (48 <=? c) && (c <=? 57).

Definition hexval (c : char) : option N :=
  if is_digit c then Some (c - 48)
  else if (97 <=? c) && (c <=? 102) then Some (c - 87)
  else if (65 <=? c) && (c <=? 70) then Some (c - 55)
  else None.

(** [_decode_uXXXX]: exactly four hexadecimal digits. *)
Definition hex4 (a b c d : char) : option N :=
  match hexval a, hexval b, hexval c, hexval d with
  | Some x, Some y, Some z, Some w => Some (((x * 16 + y) * 16 + z) * 16 + w)
  | _, _, _, _ => None
  end.

(** The table [BACKSLASH] of one-letter escapes. *)
Definition backslash_escape (e : char) : option char :=
  if e =? Ch.quote then Some Ch.quote
  else if e =? Ch.backslash then Some Ch.backslash
  else if e =? Ch.slash then Some Ch.slash
  else if e =? 98 then Some 8
  else if e =? 102 then Some 12
  else if e =? 110 then Some 10
  else if e =? 114 then Some 13
  else if e =? 116 then Some 9
  else None.

Definition is_high_surrogate (u : N) : bool := (55296 <=? u) && (u <=? 56319).
Definition is_low_surrogate (u : N) : bool := (56320 <=? u) && (u <=? 57343).
Definition join_surrogates (hi lo : N) : N :=
  65536 + N.lor (N.shiftl (hi - 55296) 10) (lo - 56320).

Definition push_char (c : char) (r : option (str * str)) : option (str * str) :=
  match r with
  | Some (t, rest) => Some (c :: t, rest)
  | None => None
  end.

(** [scanstring]: the input starts right after the opening quote; the
    result is the decoded string and what follows the closing quote. *)
Fixpoint scanstring (s : str) : option (str * str) :=
  match s with
  | [] => None
  | c :: s1 =>
      if c =? Ch.quote then Some ([], s1)
      else if c =? Ch.backslash then
        match s1 with
        | [] => None
        | e :: s2 =>
            if e =? 117 then
              match s2 with
              | h1 :: h2 :: h3 :: h4 :: s3 =>
                  match hex4 h1 h2 h3 h4 with
                  | None => None
                  | Some uni =>
                      if is_high_surrogate uni then
                        match s3 with
                        | b :: u :: s4 =>
                            if (b =? Ch.backslash) && (u =? 117) then
                              match s4 with
                              | k1 :: k2 :: k3 :: k4 :: s5 =>
                                  match hex4 k1 k2 k3 k4 with
                                  | None => None
                                  | Some uni2 =>
                                      if is_low_surrogate uni2
                                      then push_char (join_surrogates uni uni2) (scanstring s5)
                                      else push_char uni (scanstring s3)
                                  end
                              | _ => None
                              end
                            else push_char uni (scanstring s3)
                        | _ => push_char uni (scanstring s3)
                        end
                      else push_char uni (scanstring s3)
                  end
              | _ => None
              end
            else
              match backslash_escape e with
              | Some c' => push_char c' (scanstring s2)
              | None => None
              end
        end
      else if c <? 32 then None
      else push_char c (scanstring s1)
  end.

(** Numbers, as [NUMBER_RE] matches them: an optional minus sign, then 0
    or a digit sequence without leading zero; an optional fraction (a dot
    and at least one digit); an optional exponent (e or E, an optional
    sign, at least one digit). *)

Fixpoint span_digits (s : str) : str * str :=
  match s with
  | c :: s' =>
      if is_digit c then let '(d, r) := span_digits s' in (c :: d, r)
      else ([], s)
  | [] => ([], [])
  end.

Definition digits_value (d : str) : N :=
  fold_left (fun acc c => 10 * acc + (c - 48)) d 0.

Definition match_integer (s : str) : option (str * str) :=
  match s with
  | c :: s' =>
      if c =? Ch.zero then Some ([c], s')
      else if is_digit c then let '(d, r) := span_digits s' in Some (c :: d, r)
      else None
  | [] => None
  end.

Definition match_frac (s : str) : option (str * str) :=
  match s with
  | c :: s' =>
      if c =? Ch.dot then
        match span_digits s' with
        | ([], _) => None
        | (d, r) => Some (d, r)
        end
      else None
  | [] => None
  end.

Definition match_exp (s : str) : option (Z * str) :=
  match s with
  | c :: s' =>
      if (c =? 101) || (c =? 69) then
        let '(neg, s'') :=
          match s' with
          | x :: t =>
              if x =? Ch.minus then (true, t)
              else if x =? Ch.plus then (false, t)
              else (false, s')
          | [] => (false, s')
          end in
        match span_digits s'' with
        | ([], _) => None
        | (d, r) =>
            let v := Z.of_N (digits_value d) in
            Some (if neg then (- v)%Z else v, r)
        end
      else None
  | [] => None
  end.

(** [match_number] followed by [parse_int] or [parse_float]; the
    conversion of an integer literal can raise. *)
Definition match_number (lim : limits) (s : str) : option (M pyval * str) :=
  let '(neg, s1) :=
    match s with
    | c :: s' => if c =? Ch.minus then (true, s') else (false, s)
    | [] => (false, s)
    end in
  match match_integer s1 with
  | None => None
  | Some (i, s2) =>
      let '(frac, s3) :=
        match match_frac s2 with
        | Some (d, r) => (Some d, r)
        | None => (None, s2)
        end in
      let '(ex, s4) :=
        match match_exp s3 with
        | Some (e, r) => (Some e, r)
        | None => (None, s3)
        end in
      match frac, ex with
      | None, None =>
          if too_many_digits lim (length i) then Some (raise ValueError, s4)
          else
            let v := Z.of_N (digits_value i) in
            Some (ret (VInt (if neg then (- v)%Z else v)), s4)
      | _, _ =>
          let f := default [] frac in
          let e := default 0%Z ex in
          Some (ret (VFloat (FDec neg (digits_value (i ++ f))
                                  (e - Z.of_nat (length f))%Z)), s4)
      end
  end.

Inductive scan (A : Type) :=
| Scanned (a : A) (rest : str)
| Malformed
| Raised (e : exn)
| OutOfFuel.
Arguments Scanned {A} a rest.
Arguments Malformed {A}.
Arguments Raised {A} e.
Arguments OutOfFuel {A}.

(** [scan_once] with [JSONObject] and [JSONArray].  [scan_pairs] starts
    right after the opening quote of a key, [scan_elems] at the first
    character of an element.  [room] is the number of containers that can
    still be entered.  The recursion is bounded by [fuel]; [scan_fuel]
    below shows that more fuel than twice the number of characters is
    always enough. *)
Fixpoint scan_once (lim : limits) (fuel : nat) (room : nat) (s : str)
    {struct fuel} : scan pyval :=
  match fuel with
  | O => OutOfFuel
  | S f =>
      match s with
      | [] => Malformed
      | c :: s' =>
          if c =? Ch.quote then
            match scanstring s' with
            | Some (t, rest) => Scanned (VStr t) rest
            | None => Malformed
            end
          else if c =? Ch.lbrace then
            match room with
            | O => Raised RecursionError
            | S room' =>
                match skip_ws s' with
                | c1 :: s1 =>
                    if c1 =? Ch.rbrace then Scanned (VDict []) s1
                    else if c1 =? Ch.quote then
                      match scan_pairs lim f room' s1 with
                      | Scanned d rest => Scanned (VDict d) rest
                      | Malformed => Malformed
                      | Raised e => Raised e
                      | OutOfFuel => OutOfFuel
                      end
                    else Malformed
                | [] => Malformed
                end
            end
          else if c =? Ch.lbracket then
            match room with
            | O => Raised RecursionError
            | S room' =>
                match skip_ws s' with
                | c1 :: s1 =>
                    if c1 =? Ch.rbracket then Scanned (VList []) s1
                    else
                      match scan_elems lim f room' (c1 :: s1) with
                      | Scanned l rest => Scanned (VList l) rest
                      | Malformed => Malformed
                      | Raised e => Raised e
                      | OutOfFuel => OutOfFuel
                      end
                | [] => Malformed
                end
            end
          else
            match strip_prefix (py "null") s, strip_prefix (py "true") s,
                  strip_prefix (py "false") s with
            | Some rest, _, _ => Scanned VNone rest
            | None, Some rest, _ => Scanned (VBool true) rest
            | None, None, Some rest => Scanned (VBool false) rest
            | None, None, None =>
                match match_number lim s with
                | Some (inr v, rest) => Scanned v rest
                | Some (inl e, _) => Raised e
                | None =>
                    match strip_prefix (py "NaN") s,
                          strip_prefix (py "Infinity") s,
                          strip_prefix (py "-Infinity") s with
                    | Some rest, _, _ => Scanned (VFloat FNaN) rest
                    | None, Some rest, _ => Scanned (VFloat (FInf false)) rest
                    | None, None, Some rest => Scanned (VFloat (FInf true)) rest
                    | None, None, None => Malformed
                    end
                end
            end
      end
  end
with scan_pairs (lim : limits) (fuel : nat) (room : nat) (s : str)
    {struct fuel} : scan (list (str * pyval)) :=
  match fuel with
  | O => OutOfFuel
  | S f =>
      match scanstring s with
      | None => Malformed
      | Some (key, s1) =>
          match skip_ws s1 with
          | c :: s2 =>
              if c =? Ch.colon then
                match scan_once lim f room (skip_ws s2) with
                | Scanned v s3 =>
                    match skip_ws s3 with
                    | c' :: s4 =>
                        if c' =? Ch.rbrace then Scanned [(key, v)] s4
                        else if c' =? Ch.comma then
                          match skip_ws s4 with
                          | q :: s5 =>
                              if q =? Ch.quote then
                                match scan_pairs lim f room s5 with
                                | Scanned d rest => Scanned ((key, v) :: d) rest
                                | Malformed => Malformed
                                | Raised e => Raised e
                                | OutOfFuel => OutOfFuel
                                end
                              else Malformed
                          | [] => Malformed
                          end
                        else Malformed
                    | [] => Malformed
                    end
                | Malformed => Malformed
                | Raised e => Raised e
                | OutOfFuel => OutOfFuel
                end
              else Malformed
          | [] => Malformed
          end
      end
  end
with scan_elems (lim : limits) (fuel : nat) (room : nat) (s : str)
    {struct fuel} : scan (list pyval) :=
  match fuel with
  | O => OutOfFuel
  | S f =>
      match scan_once lim f room s with
      | Scanned v s1 =>
          match skip_ws s1 with
          | c :: s2 =>
              if c =? Ch.rbracket then Scanned [v] s2
              else if c =? Ch.comma then
                match scan_elems lim f room (skip_ws s2) with
                | Scanned l rest => Scanned (v :: l) rest
                | Malformed => Malformed
                | Raised e => Raised e
                | OutOfFuel => OutOfFuel
                end
              else Malformed
          | [] => Malformed
          end
      | Malformed => Malformed
      | Raised e => Raised e
      | OutOfFuel => OutOfFuel
      end
  end.

(** [json.loads(s)]: one value, surrounded by optional white space.  The
    fuel given here is always enough ([json_loads_fuel]), so the last case
    is never taken. *)
Definition json_loads (lim : limits) (s : str) : M pyval :=
  let s0 := skip_ws s in
  match scan_once lim (S (2 * length s0)) (S (nesting_room lim)) s0 with
  | Scanned v rest =>
      match skip_ws rest with
      | [] => ret v
      | _ :: _ => raise JSONDecodeError
      end
  | Malformed => raise JSONDecodeError
  | Raised e => raise e
  | OutOfFuel => raise JSONDecodeError
  end.

(** ** Regular expressions

    The two patterns of the agent are sequences of single-character
    classes, starred classes, one optional literal and one capturing
    group.  [rmatch] is a backtracking matcher for such sequences with the
    priorities of Python's [re]: a greedy star tries the longest repetition
    first, a lazy star the shortest, an optional literal is tried present
    before absent.  It returns the text of group 1 and the number of
    characters matched. *)

Inductive item :=
| One (p : char -> bool)
| Star (greedy : bool) (p : char -> bool)
| Maybe (literal : str)
| GroupOpen
| GroupClose.

Definition lit (s : str) : list item := map (fun c => One (N.eqb c)) s.

Definition capture (recording : bool) (c : char) (g : str) : str :=
  if recording then c :: g else g.

Fixpoint rmatch (re : list item) (s : str) (n : nat) (recording : bool)
    (g : str) {struct re} : option (str * nat) :=
  match re with
  | [] => Some (rev g, n)
  | One p :: re' =>
      match s with
      | c :: s' =>
          if p c then rmatch re' s' (S n) recording (capture recording c g)
          else None
      | [] => None
      end
  | Star greedy p :: re' =>
      (fix star (s : str) (n : nat) (g : str) {struct s} : option (str * nat) :=
         if greedy then
           match s with
           | c :: s' =>
               if p c then
                 match star s' (S n) (capture recording c g) with
                 | Some r => Some r
                 | None => rmatch re' s n recording g
                 end
               else rmatch re' s n recording g
           | [] => rmatch re' s n recording g
           end
         else
           match rmatch re' s n recording g with
           | Some r => Some r
           | None =>
               match s with
               | c :: s' =>
                   if p c then star s' (S n) (capture recording c g) else None
               | [] => None
               end
           end) s n g
  | Maybe l :: re' =>
      match strip_prefix l s with
      | Some s' =>
          match rmatch re' s' (n + length l)%nat recording
                  (if recording then rev l ++ g else g) with
          | Some r => Some r
          | None => rmatch re' s n recording g
          end
      | None => rmatch re' s n recording g
      end
  | GroupOpen :: re' => rmatch re' s n true g
  | GroupClose :: re' => rmatch re' s n false g
  end.

Definition match_at (re : list item) (s : str) : option (str * nat) :=
  rmatch re s 0%nat false [].

(** [re.search(re, s)]: the leftmost match; the result is [group(0)]. *)
Fixpoint re_search (re : list item) (s : str) : option str :=
  match match_at re s with
  | Some (_, n) => Some (take n s)
  | None =>
      match s with
      | _ :: s' => re_search re s'
      | [] => None
      end
  end.

(** [re.findall(re, s)] for a pattern with one group whose matches are
    never empty: the texts of group 1 of the successive non-overlapping
    matches.  [skip] counts the characters still covered by the last
    match. *)
Fixpoint re_findall (re : list item) (s : str) (skip : nat) : list str :=
  match s with
  | [] => []
  | _ :: s' =>
      match skip with
      | S k => re_findall re s' k
      | O =>
          match match_at re s with
          | Some (g, n) => g :: re_findall re s' (pred n)
          | None => re_findall re s' 0%nat
          end
      end
  end.

Definition any_char (c : char) : bool := true.
Definition not_brace (c : char) : bool :=
  negb ((c =? Ch.lbrace) || (c =? Ch.rbrace)).

(** The pattern of strategy 2, compiled with [re.DOTALL]: three backticks,
    an optional [json], white space, a group holding a brace-delimited text
    matched lazily, white space, three backticks. *)
Definition fenced_block_re : list item :=
  lit (py "```") ++
  [Maybe (py "json"); Star true isspace;
   GroupOpen; One (N.eqb Ch.lbrace); Star false any_char;
   One (N.eqb Ch.rbrace); GroupClose;
   Star true isspace] ++
  lit (py "```").

(** The pattern of strategy 3: a brace-delimited text without inner braces
    that contains the quoted key [conversationMessage]. *)
Definition inline_object_re : list item :=
  [One (N.eqb Ch.lbrace); Star true not_brace] ++
  lit (pyq "'conversationMessage'") ++
  [Star true not_brace; One (N.eqb Ch.rbrace)].

(** ** [_parse_response] *)

Definition k_conversationMessage : str := py "conversationMessage".
Definition k_documentUpdate : str := py "documentUpdate".
Definition k_updateRange : str := py "updateRange".

Definition error_sentence : str :=
  py "I encountered an error processing your request.".

(** [try: v = json.loads(text) / except json.JSONDecodeError: ...]: only
    [JSONDecodeError] is caught. *)
Definition try_loads (lim : limits) (text : str) : M (option pyval) :=
  match json_loads lim text with
  | inr v => ret (Some v)
  | inl JSONDecodeError => ret None
  | inl e => raise e
  end.

(** The loop of strategy 2: the first block that parses is kept, whatever
    its value; without one, [json_response] stays as it was. *)
Fixpoint first_loaded (lim : limits) (blocks : list str) (json_response : pyval) : M pyval :=
  match blocks with
  | [] => ret json_response
  | block :: blocks' =>
      r <-! try_loads lim block;
      match r with
      | Some v => ret v
      | None => first_loaded lim blocks' json_response
      end
  end.

(** Lines 256-284: the value of [json_response] after the three
    strategies.  [VNone] is its initial value. *)
Definition extract_json (lim : limits) (response_text : str) : M pyval :=
  (* Strategy 1: the entire stripped response *)
  r <-! try_loads lim (strip response_text);
  let json_response := default VNone r in
  (* Strategy 2: fenced code blocks *)
  json_response <-!
    (if negb (truthy json_response)
     then first_loaded lim (re_findall fenced_block_re response_text 0) json_response
     else ret json_response);
  (* Strategy 3: an object in the text *)
  if negb (truthy json_response) then
    match re_search inline_object_re response_text with
    | Some json_match =>
        r <-! try_loads lim json_match;
        ret (default json_response r)
    | None => ret json_response
    end
  else ret json_response.

(** [x or y] on strings. *)
Definition str_or (x y : str) : str :=
  match x with [] => y | _ :: _ => x end.

(** Lines 286-312.  [include_if_present k] is the statement
    [if k in json_response and json_response[k]: result[k] = json_response[k]]. *)
Definition include_if_present (k : str) (json_response : list (str * pyval))
    (result : gmap str pyval) : gmap str pyval :=
  match dict_get json_response k with
  | Some v => if truthy v then <[k := v]> result else result
  | None => result
  end.

Definition project (json_response : list (str * pyval)) : gmap str pyval :=
  let result : gmap str pyval :=
    {[ k_conversationMessage :=
         default (VStr []) (dict_get json_response k_conversationMessage) ]} in
  let result := include_if_present k_documentUpdate json_response result in
  let result := include_if_present k_updateRange json_response result in
  result.

Definition fallback (response_text : str) : gmap str pyval :=
  {[ k_conversationMessage := VStr (str_or (strip response_text) error_sentence) ]}.

Definition _parse_response (lim : limits) (response_text : str) (context : gmap str pyval)
    : M (gmap str pyval) :=
  json_response <-! extract_json lim response_text;
  if truthy json_response && is_dict json_response then
    match json_response with
    | VDict d => ret (project d)
    | _ => ret (fallback response_text)
    end
  else ret (fallback response_text).

(** ** The agent and its context mapping *)

Record agent := Agent {
  session_id : str;
  system_instructions : str;   (* loaded once by [__init__] *)
  _connected : bool
}.

Definition k_documentContent : str := py "documentContent".
Definition k_referredText : str := py "referredText".
Definition k_referredAddress : str := py "referredAddress".
Definition k_conversationHistory : str := py "conversationHistory".
Definition k_systemInstructions : str := py "systemInstructions".
Definition k_role : str := py "role".
Definition k_content : str := py "content".

(** [d.setdefault(k, v)] *)
Definition setdefault (k : str) (v : pyval) (d : gmap str pyval) : gmap str pyval :=
  match d !! k with
  | Some _ => d
  | None => <[k := v]> d
  end.

(** Lines 128-133 of [process]. *)
Definition ensure_defaults (self : agent) (context : gmap str pyval)
    : gmap str pyval :=
  let context := setdefault k_documentContent (VStr []) context in
  let context := setdefault k_referredText (VStr []) context in
  let context := setdefault k_referredAddress (VStr (py "0:0")) context in
  let context := setdefault k_conversationHistory (VList []) context in
  let context := setdefault k_systemInstructions (VStr (system_instructions self)) context in
  context.

(** [context[k]] *)
Definition getitem (context : gmap str pyval) (k : str) : M pyval :=
  match context !! k with
  | Some v => ret v
  | None => raise KeyError
  end.

(** Number of keys of [dict(pairs)]. *)
Definition dict_len (d : list (str * pyval)) : nat :=
  length (remove_dups (map fst d)).

(** [len(v)] *)
Definition py_len (v : pyval) : M nat :=
  match v with
  | VStr s => ret (length s)
  | VList l => ret (length l)
  | VDict d => ret (dict_len d)
  | _ => raise TypeError
  end.

(** [v[:n]]; slicing a dict raises (a [KeyError] from Python 3.12 on). *)
Definition py_slice_to (n : nat) (v : pyval) : M pyval :=
  match v with
  | VStr s => ret (VStr (take n s))
  | VList l => ret (VList (take n l))
  | _ => raise TypeError
  end.

(** [msg.get(k, dflt)]: only a dict has the method. *)
Definition msg_get (msg : pyval) (k : str) (dflt : pyval) : M pyval :=
  match msg with
  | VDict d => ret (default dflt (dict_get d k))
  | _ => raise AttributeError
  end.

(** [sep.join(parts)]: every part has to be a [str]. *)
Fixpoint py_join_parts (parts : list pyval) : M (list str) :=
  match parts with
  | [] => ret []
  | VStr s :: parts' => ps <-! py_join_parts parts'; ret (s :: ps)
  | _ :: _ => raise TypeError
  end.

Definition py_join (sep : str) (parts : list pyval) : M str :=
  ps <-! py_join_parts parts; ret (join sep ps).

(** Decimal rendering of a length or an index. *)
Definition decimal (n : nat) : str := py (NilZero.string_of_uint (Nat.to_uint n)).

Definition newline : str := [Ch.lf].

Module Marker.
Definition system_instructions : str := py "=== SYSTEM INSTRUCTIONS ===".
Definition document_content : str := py "=== DOCUMENT CONTENT ===".
Definition referred_text : str := py "=== REFERRED TEXT ===".
Definition conversation_history : str := py "=== CONVERSATION HISTORY ===".
Definition user_request : str := py "=== USER REQUEST ===".
Definition your_response : str := py "=== YOUR RESPONSE ===".
Definition all : list str :=
  [system_instructions; document_content; referred_text;
   conversation_history; user_request; your_response].
End Marker.

Inductive block := TextBlock (text : str) | OtherBlock.
Inductive message := AssistantMessage (content : list block) | OtherMessage.

(** What the SDK client does during one call of [process]: whether
    [connect] and [query] return or raise, the messages the response
    stream yields, and whether the stream ends normally. *)
Record backend := Backend {
  connect_result : M unit;
  query_result : M unit;
  stream : list message;
  stream_end : M unit
}.

Definition loc := nat.

(** The dict objects of the caller, by reference. *)
Definition heap := loc -> gmap str pyval.

Definition store (h : heap) (l : loc) (d : gmap str pyval) : heap :=
  fun l' => if decide (l' = l) then d else h l'.

Section Formatting.

(** The limits of the interpreter [process] runs in. *)
Variable lim : limits.

(** [str(v)] of a value that is not a [str] (its [repr]); the agent's
    code does not depend on what it is. *)
Variable py_repr : pyval -> str.

(** The text an f-string substitutes for [{v}]. *)
Definition py_str (v : pyval) : str :=
  match v with
  | VStr s => s
  | _ => py_repr v
  end.

(** The history loop, lines 225-228; [i] is the index of the first
    message of [msgs]. *)
Fixpoint history_lines (i : nat) (msgs : list pyval) : M (list pyval) :=
  match msgs with
  | [] => ret []
  | msg :: msgs' =>
      role <-! msg_get msg k_role (VStr (py "unknown"));
      content <-! msg_get msg k_content (VStr []);
      shown <-! py_slice_to 100 content;
      n <-! py_len content;
      let line :=
        py "[" ++ decimal (i + 1) ++ py "] " ++ py_str role ++ py ": "
        ++ py_str shown ++ (if (100 <? n)%nat then py "..." else []) in
      rest <-! history_lines (S i) msgs';
      ret (VStr line :: rest)
  end.

(** [for i, msg in enumerate(v)]: a list yields its elements; the
    elements of a [str] or the keys of a [dict] are strings, without a
    [get] method; anything else is not iterable. *)
Definition history_section (v : pyval) : M (list pyval) :=
  if truthy v then
    match v with
    | VList msgs => history_lines 0 msgs
    | VStr _ | VDict _ => raise AttributeError
    | _ => raise TypeError
    end
  else ret [VStr (py "(No previous conversation)")].

(** A text field with its character count, or a placeholder (lines
    205-209 and 215-219). *)
Definition text_section (label placeholder : str) (v : pyval) : M (list pyval) :=
  if truthy v then
    n <-! py_len v;
    ret [VStr (label ++ py " (" ++ decimal n ++ py " chars):"); v]
  else ret [VStr placeholder].

Definition _format_prompt_with_context (prompt : str)
    (context : gmap str pyval) : M str :=
  (* System Instructions *)
  instructions <-! getitem context k_systemInstructions;
  let parts := [VStr Marker.system_instructions; instructions; VStr []] in
  (* Document Content *)
  document <-! getitem context k_documentContent;
  doc_part <-! text_section (py "Full Document") (py "(No document content)") document;
  let parts := parts ++ [VStr Marker.document_content] ++ doc_part ++ [VStr []] in
  (* Referred Text and Address *)
  address <-! getitem context k_referredAddress;
  referred <-! getitem context k_referredText;
  ref_part <-! text_section (py "Referred Text") (py "(No referred text)") referred;
  let parts :=
    parts ++ [VStr Marker.referred_text;
              VStr (py "Referred Address: " ++ py_str address)]
          ++ ref_part ++ [VStr []] in
  (* Conversation History *)
  history <-! getitem context k_conversationHistory;
  hist_part <-! history_section history;
  let parts := parts ++ [VStr Marker.conversation_history] ++ hist_part ++ [VStr []] in
  (* User Request *)
  let parts := parts ++ [VStr Marker.user_request; VStr prompt; VStr []] in
  (* Response Instructions *)
  let parts :=
    parts ++ [VStr Marker.your_response;
              VStr (py "Respond with valid JSON only (no markdown, no code blocks):");
              VStr (pyq "{'conversationMessage': '...', 'documentUpdate': '...', 'updateRange': '...'}")] in
  py_join newline parts.

(** Lines 156-167: the text blocks of the assistant messages, each
    handed to [on_chunk] when there is one. *)
Fixpoint collect_blocks (on_chunk : option (str -> M unit)) (blocks : list block)
    : M (list str) :=
  match blocks with
  | [] => ret []
  | TextBlock chunk_text :: blocks' =>
      _ <-! match on_chunk with
            | Some f => f chunk_text
            | None => ret tt
            end;
      rest <-! collect_blocks on_chunk blocks';
      ret (chunk_text :: rest)
  | OtherBlock :: blocks' => collect_blocks on_chunk blocks'
  end.

Fixpoint collect_stream (on_chunk : option (str -> M unit)) (msgs : list message)
    : M (list str) :=
  match msgs with
  | [] => ret []
  | AssistantMessage content :: msgs' =>
      here <-! collect_blocks on_chunk content;
      rest <-! collect_stream on_chunk msgs';
      ret (here ++ rest)
  | OtherMessage :: msgs' => collect_stream on_chunk msgs'
  end.

(** The state [process] leaves behind, the prompt it handed to
    [client.query] (when it got that far) and what it returns or raises. *)
Record outcome := Outcome {
  out_heap : heap;
  out_agent : agent;
  out_prompt : option str;
  out_result : M (gmap str pyval)
}.

Definition connected_agent (self : agent) : agent :=
  Agent (session_id self) (system_instructions self) true.

(** [process]; [context] is [None] or a reference to the caller's dict.
    Line 139 evaluates [len(context['documentContent'])] for a log
    message, before the [try] block. *)
Definition process (self : agent) (h : heap) (prompt : str)
    (context : option loc) (on_chunk : option (str -> M unit))
    (sdk : backend) : outcome :=
  let d := match context with Some l => h l | None => ∅ end in
  let d := ensure_defaults self d in
  let h := match context with Some l => store h l d | None => h end in
  match (full_prompt <-! _format_prompt_with_context prompt d;
         document <-! getitem d k_documentContent;
         _ <-! py_len document;
         ret full_prompt) with
  | inl e => Outcome h self None (raise e)
  | inr full_prompt =>
      let connecting :=
        if _connected self then inr self
        else match connect_result sdk with
             | inr _ => inr (connected_agent self)
             | inl e => inl e
             end in
      match connecting with
      | inl e => Outcome h self None (raise e)
      | inr self =>
          Outcome h self (Some full_prompt)
            (_ <-! query_result sdk;
             response_text <-! collect_stream on_chunk (stream sdk);
             _ <-! stream_end sdk;
             let full_response := join newline response_text in
             _parse_response lim full_response d)
      end
  end.

End Formatting.

(** [cleanup]; [disconnect_result] is what [client.disconnect()] does if
    it is called. *)
Definition cleanup (self : agent) (disconnect_result : M unit) : agent * M unit :=
  if _connected self then
    match disconnect_result with
    | inr _ => (Agent (session_id self) (system_instructions self) false, ret tt)
    | inl _ => (self, ret tt)     (* except Exception as e: print *)
    end
  else (self, ret tt).

(** ** [json.dumps]

    The serialization used by the round-trip property: Python's
    [json.dumps] on a dict whose values are strings, with the default
    separators.  [ensure_ascii] is the parameter of that name ([True] by
    default): with it every character outside the printable ASCII range is
    written as an escape. *)

Definition hexdigit (d : N) : char := if d <? 10 then 48 + d else 87 + d.

(** ['\\u{0:04x}'.format(n)] *)
Definition u_escape (n : N) : str :=
  [Ch.backslash; 117; hexdigit (n / 4096 mod 16); hexdigit (n / 256 mod 16);
   hexdigit (n / 16 mod 16); hexdigit (n mod 16)].

Definition escape_char (ensure_ascii : bool) (c : char) : str :=
  if c =? Ch.quote then [Ch.backslash; Ch.quote]
  else if c =? Ch.backslash then [Ch.backslash; Ch.backslash]
  else if c =? 10 then [Ch.backslash; 110]
  else if c =? 13 then [Ch.backslash; 114]
  else if c =? 9 then [Ch.backslash; 116]
  else if c =? 8 then [Ch.backslash; 98]
  else if c =? 12 then [Ch.backslash; 102]
  else if c <? 32 then u_escape c
  else if ensure_ascii && (126 <? c) then
    if c <? 65536 then u_escape c
    else
      let n := c - 65536 in
      u_escape (N.lor 55296 (N.land (N.shiftr n 10) 1023))
      ++ u_escape (N.lor 56320 (N.land n 1023))
  else [c].

Fixpoint escape (ensure_ascii : bool) (s : str) : str :=
  match s with
  | [] => []
  | c :: s' => escape_char ensure_ascii c ++ escape ensure_ascii s'
  end.

Definition encode_basestring (ensure_ascii : bool) (s : str) : str :=
  Ch.quote :: escape ensure_ascii s ++ [Ch.quote].

Definition dumps_object (ensure_ascii : bool) (pairs : list (str * str)) : str :=
  [Ch.lbrace]
  ++ join (py ", ")
       (map (fun kv => encode_basestring ensure_ascii kv.1 ++ py ": "
                       ++ encode_basestring ensure_ascii kv.2) pairs)
  ++ [Ch.rbrace].

(** A Unicode text: every code point is a scalar value (at most 10FFFF
    and not a surrogate). *)
Definition scalar_value (c : char) : bool :=
  (c <? 55296) || ((57343 <? c) && (c <=? 1114111)).

Definition unicode_text (s : str) : Prop := Forall (fun c => scalar_value c = true) s.

(** ** Definitions used in the statements *)

(** The item of [d] at [k] when it is there and truthy. *)
Definition truthy_item (d : list (str * pyval)) (k : str) : option pyval :=
  match dict_get d k with
  | Some v => if truthy v then Some v else None
  | None => None
  end.

(** A dict without the pairs of key [k]. *)
Definition dict_remove (k : str) (d : list (str * pyval)) : list (str * pyval) :=
  filter (fun kv => kv.1 <> k) d.

(** The Python dict with the given string values, and the requirement of
    [ensure_ascii=True] on its keys and values. *)
Definition as_dict (pairs : list (str * str)) : list (str * pyval) :=
  map (fun kv => (kv.1, VStr kv.2)) pairs.

Definition texts (pairs : list (str * str)) : Prop :=
  Forall (fun kv => unicode_text kv.1 /\ unicode_text kv.2) pairs.

(** The text of the members of an object, after the opening quote of the
    first key. *)
Fixpoint members_text (ensure_ascii : bool) (k v : str) (rest : list (str * str))
    : str :=
  escape ensure_ascii k ++ Ch.quote :: py ": "
  ++ Ch.quote :: escape ensure_ascii v ++ Ch.quote ::
  match rest with
  | [] => []
  | (k', v') :: rest' => py ", " ++ Ch.quote :: members_text ensure_ascii k' v' rest'
  end.

(** ** Texts within the limits of the interpreter *)

(** Number of characters of [s] in the class [p]. *)
Fixpoint count (p : char -> bool) (s : str) : nat :=
  match s with
  | [] => 0
  | c :: s' => Nat.b2n (p c) + count p s'
  end.



(** ** Well-typed contexts

    The types the docstring of [process] gives to the context fields: the
    four text fields are strings, [conversationHistory] is a list of
    messages, and a message is a dict whose [role] and [content], when
    present, are strings.  Every field may be absent. *)

Definition is_str (v : pyval) : bool :=
  match v with VStr _ => true | _ => false end.

Definition absent_or (p : pyval -> bool) (o : option pyval) : bool :=
  match o with Some v => p v | None => true end.

Definition message_ok (msg : pyval) : bool :=
  match msg with
  | VDict d => absent_or is_str (dict_get d k_role)
               && absent_or is_str (dict_get d k_content)
  | _ => false
  end.

Definition history_ok (v : pyval) : bool :=
  match v with VList msgs => forallb message_ok msgs | _ => false end.

Definition well_typed (context : gmap str pyval) : bool :=
  absent_or is_str (context !! k_documentContent)
  && absent_or is_str (context !! k_referredText)
  && absent_or is_str (context !! k_referredAddress)
  && absent_or is_str (context !! k_systemInstructions)
  && absent_or history_ok (context !! k_conversationHistory).

(** The default [process] gives to a missing key. *)
Definition default_value (self : agent) (k : str) : option pyval :=
  if decide (k = k_documentContent) then Some (VStr [])
  else if decide (k = k_referredText) then Some (VStr [])
  else if decide (k = k_referredAddress) then Some (VStr (py "0:0"))
  else if decide (k = k_conversationHistory) then Some (VList [])
  else if decide (k = k_systemInstructions) then Some (VStr (system_instructions self))
  else None.

(** [ms] occur in [s] one after the other, without overlap. *)
Fixpoint occur_in_order (ms : list str) (s : str) : Prop :=
  match ms with
  | [] => True
  | m :: ms' => exists before after, s = before ++ m ++ after /\ occur_in_order ms' after
  end.

(** What a history entry looks like in the prompt. *)
Definition shown_content (content : str) : str :=
  if (100 <? length content)%nat then take 100 content ++ py "..." else content.

Definition history_entry (i : nat) (role content : str) : str :=
  py "[" ++ decimal (i + 1) ++ py "] " ++ role ++ py ": " ++ shown_content content.

Definition str_of (dflt : str) (o : option pyval) : str :=
  match o with Some (VStr s) => s | _ => dflt end.

Definition message_role (msg : pyval) : str :=
  match msg with VDict d => str_of (py "unknown") (dict_get d k_role) | _ => [] end.
Definition message_content (msg : pyval) : str :=
  match msg with VDict d => str_of [] (dict_get d k_content) | _ => [] end.

Fixpoint history_entries (i : nat) (msgs : list pyval) : list str :=
  match msgs with
  | [] => []
  | msg :: msgs' =>
      history_entry i (message_role msg) (message_content msg)
      :: history_entries (S i) msgs'
  end.

Definition text_lines (label placeholder s : str) : list str :=
  match s with
  | [] => [placeholder]
  | _ :: _ => [label ++ py " (" ++ decimal (length s) ++ py " chars):"; s]
  end.

Definition history_block (msgs : list pyval) : list str :=
  match msgs with
  | [] => [py "(No previous conversation)"]
  | _ :: _ => history_entries 0 msgs
  end.

(** The lines of the prompt for given field values. *)
Definition prompt_lines (instructions document address referred : str)
    (msgs : list pyval) (prompt : str) : list str :=
  [Marker.system_instructions; instructions; []]
  ++ [Marker.document_content]
  ++ text_lines (py "Full Document") (py "(No document content)") document
  ++ [[]]
  ++ [Marker.referred_text; py "Referred Address: " ++ address]
  ++ text_lines (py "Referred Text") (py "(No referred text)") referred
  ++ [[]]
  ++ [Marker.conversation_history] ++ history_block msgs ++ [[]]
  ++ [Marker.user_request; prompt; []]
  ++ [Marker.your_response;
      py "Respond with valid JSON only (no markdown, no code blocks):";
      pyq "{'conversationMessage': '...', 'documentUpdate': '...', 'updateRange': '...'}"].

(** The field values [process] formats: those of the context, or the
    defaults. *)
Definition field_str (self : agent) (context : gmap str pyval) (k : str) : str :=
  match context !! k, default_value self k with
  | Some (VStr s), _ => s
  | _, Some (VStr s) => s
  | _, _ => []
  end.

Definition field_history (context : gmap str pyval) : list pyval :=
  match context !! k_conversationHistory with
  | Some (VList msgs) => msgs
  | _ => []
  end.

(** Sample data for the examples. *)

(** An interpreter with the default digit limit and room for a hundred
    nested containers. *)
Definition default_limits : limits := Limits 100 4300.

Definition long_text : str := replicate 120 97.

Definition some_heap : heap :=
  fun l => if decide (l = 0%nat)
           then {[ k_referredAddress := VStr (py "3:9"); py "extra" := VInt 1 ]}
           else ∅.

(** ** Files and the environment

    What reading a file does: [open] raises [FileNotFoundError], the read
    raises another exception, or the text of the file is returned. *)
Inductive file_read :=
| FileNotFound
| ReadFails (e : exn)
| FileText (text : str).

(** ** The rest of [ClaudeAgent] *)

Definition _default_instructions : str := pyq "
You are a document editing assistant.

Respond with JSON:
{
  'conversationMessage': 'Your response',
  'documentUpdate': 'Updated text (optional)',
  'updateRange': 'start:end (optional)'
}

Include documentUpdate only when user requests an edit.
".

Definition k_instructions_file : str := py "editor-agent-instructions".
Definition default_instructions_file : str := py "instructions/agent-instructions.md".

(** [_load_instructions]; [read_file p] is what reading the file at [p],
    relative to the directory of the module, does.  A path that is not a
    string makes [server_dir / instructions_file] raise, before the [try]. *)
Definition _load_instructions (config : gmap str pyval)
    (read_file : str -> file_read) : M str :=
  let instructions_file :=
    default (VStr default_instructions_file) (config !! k_instructions_file) in
  match instructions_file with
  | VStr path =>
      match read_file path with
      | FileText instructions => ret instructions
      | FileNotFound => ret _default_instructions
      | ReadFails _ => ret _default_instructions
      end
  | _ => raise TypeError
  end.

Module ClaudeAgent.
(** [ClaudeAgent(session_id, config)]; [config] is [None] or a dict, and
    [config or {}] turns [None] into the empty dict. *)
Definition __init__ (session_id : str) (config : option (gmap str pyval))
    (read_file : str -> file_read) : M agent :=
  let config := default ∅ config in
  system_instructions <-! _load_instructions config read_file;
  ret (Agent session_id system_instructions false).
End ClaudeAgent.

(** ** [config.py] *)

Definition k_port : str := py "port".
Definition k_host : str := py "host".
Definition k_corsOrigin : str := py "corsOrigin".
Definition k_socketPath : str := py "socketPath".

(** [os.environ.get(name, dflt)]: the values of the environment are
    strings. *)
Definition environ_get (environ : gmap str str) (name : str) (dflt : pyval) : pyval :=
  match environ !! name with
  | Some s => VStr s
  | None => dflt
  end.

Section Config.

Variable lim : limits.

(** The built-in conversion [int(v)]. *)
Variable py_int : pyval -> M Z.

(** [loadConfig]; [config_json] is what reading [config.json] does.  Of
    the exceptions of the [with] block only [FileNotFoundError] and
    [JSONDecodeError] are caught.  The arguments of every [get] are
    evaluated before the call, so [fileConfig.get] runs, and raises on a
    value that is not a dict, even when the environment has the
    setting. *)
Definition loadConfig (config_json : file_read) (environ : gmap str str)
    : M (gmap str pyval) :=
  fileConfig <-!
    match config_json with
    | FileNotFound => ret (VDict [])
    | FileText text =>
        match json_loads lim text with
        | inr v => ret v
        | inl JSONDecodeError => ret (VDict [])
        | inl e => raise e
        end
    | ReadFails JSONDecodeError => ret (VDict [])
    | ReadFails e => raise e
    end;
  file_port <-! msg_get fileConfig k_port (VInt 3001);
  port <-! py_int (environ_get environ (py "PORT") file_port);
  file_host <-! msg_get fileConfig k_host (VStr (py "localhost"));
  let host := environ_get environ (py "HOST") file_host in
  file_cors <-! msg_get fileConfig k_corsOrigin (VStr (py "*"));
  let cors := environ_get environ (py "CORS_ORIGIN") file_cors in
  instructions <-!
    msg_get fileConfig k_instructions_file (VStr default_instructions_file);
  ret (<[k_port := VInt port]>
       (<[k_host := host]>
        (<[k_corsOrigin := cors]>
         (<[k_socketPath := VStr (py "/socket.io")]>
          {[ k_instructions_file := instructions ]})))).

End Config.

(** ** [session_manager.py] *)

Definition global_session_id : str := py "global-session".

(** The dict [globalSession]; its keys never change. *)
Record session := Session {
  sessionId : str;
  socket : pyval;
  session_agent : agent;
  createdAt : pyval;
  lastActivity : pyval
}.

Record manager := Manager {
  globalSession : session;
  sessions : gmap str session
}.

Module SessionManager.
Section Init.
Variable lim : limits.
Variable py_int : pyval -> M Z.

(** [SessionManager()]; [now1] and [now2] are the two readings of
    [time.time()]. *)
Definition __init__ (config_json : file_read) (environ : gmap str str)
    (read_file : str -> file_read) (now1 now2 : pyval) : M manager :=
  config <-! loadConfig lim py_int config_json environ;
  agent <-! ClaudeAgent.__init__ global_session_id (Some config) read_file;
  ret (Manager (Session global_session_id VNone agent now1 now2) ∅).
End Init.

Definition registerSession (self : manager) (socketId : str) (now : pyval)
    : manager * str :=
  let g := globalSession self in
  (Manager (Session (sessionId g) (socket g) (session_agent g) (createdAt g) now)
           (sessions self),
   sessionId g).

(** [sessionId == 'global-session'] on an arbitrary value. *)
Definition getSession (self : manager) (sessionId : pyval) : option session :=
  match sessionId with
  | VStr s => if bool_decide (s = global_session_id)
              then Some (globalSession self) else None
  | _ => None
  end.

Definition getAgent (self : manager) (sessionId : pyval) : option agent :=
  match getSession self sessionId with
  | Some session => Some (session_agent session)
  | None => None
  end.

Definition set_agent (self : manager) (a : agent) : manager :=
  let g := globalSession self in
  Manager (Session (sessionId g) (socket g) a (createdAt g) (lastActivity g))
          (sessions self).

(** [cleanup]: the agent is an object shared with the session, so what
    [agent.cleanup()] does to it is seen through the manager. *)
Definition cleanup (self : manager) (sessionId : pyval)
    (disconnect_result : M unit) : manager * M unit :=
  match getSession self sessionId with
  | Some session =>
      let '(a, r) := cleanup (session_agent session) disconnect_result in
      (set_agent self a, r)
  | None => (self, ret tt)
  end.
End SessionManager.

(** ** [process] with a callback that has effects

    [process_with] is [process] with the state of the chunk callback
    threaded through the calls: [on_chunk text st] is the state the
    callback leaves and whether it returns or raises. *)

Fixpoint collect_blocks_with {S : Type} (on_chunk : option (str -> S -> S * M unit))
    (blocks : list block) (st : S) : S * M (list str) :=
  match blocks with
  | [] => (st, ret [])
  | TextBlock chunk_text :: blocks' =>
      let '(st, called) :=
        match on_chunk with
        | Some f => f chunk_text st
        | None => (st, ret tt)
        end in
      match called with
      | inl e => (st, raise e)
      | inr _ =>
          let '(st, rest) := collect_blocks_with on_chunk blocks' st in
          (st, rest <-! rest; ret (chunk_text :: rest))
      end
  | OtherBlock :: blocks' => collect_blocks_with on_chunk blocks' st
  end.

Fixpoint collect_stream_with {S : Type} (on_chunk : option (str -> S -> S * M unit))
    (msgs : list message) (st : S) : S * M (list str) :=
  match msgs with
  | [] => (st, ret [])
  | AssistantMessage content :: msgs' =>
      let '(st, here) := collect_blocks_with on_chunk content st in
      match here with
      | inl e => (st, raise e)
      | inr here =>
          let '(st, rest) := collect_stream_with on_chunk msgs' st in
          (st, rest <-! rest; ret (here ++ rest))
      end
  | OtherMessage :: msgs' => collect_stream_with on_chunk msgs' st
  end.

Definition as_map (d : list (str * pyval)) : gmap str pyval := list_to_map (rev d).

Record emitted := Emit {
  ev_name : str;
  ev_payload : gmap str pyval;
  ev_room : str
}.

Section TracedProcess.

Variable lim : limits.

Variable py_repr : pyval -> str.

Definition process_with {S : Type} (self : agent) (h : heap) (prompt : str)
    (context : option loc) (on_chunk : option (str -> S -> S * M unit))
    (sdk : backend) (st : S) : outcome * S :=
  let d := match context with Some l => h l | None => ∅ end in
  let d := ensure_defaults self d in
  let h := match context with Some l => store h l d | None => h end in
  match (full_prompt <-! _format_prompt_with_context py_repr prompt d;
         document <-! getitem d k_documentContent;
         _ <-! py_len document;
         ret full_prompt) with
  | inl e => (Outcome h self None (raise e), st)
  | inr full_prompt =>
      let connecting :=
        if _connected self then inr self
        else match connect_result sdk with
             | inr _ => inr (connected_agent self)
             | inl e => inl e
             end in
      match connecting with
      | inl e => (Outcome h self None (raise e), st)
      | inr self =>
          match query_result sdk with
          | inl e => (Outcome h self (Some full_prompt) (raise e), st)
          | inr _ =>
              let '(st, response_text) :=
                collect_stream_with on_chunk (stream sdk) st in
              (Outcome h self (Some full_prompt)
                 (response_text <-! response_text;
                  _ <-! stream_end sdk;
                  let full_response := join newline response_text in
                  _parse_response lim full_response d),
               st)
          end
      end
  end.

(** [agent.process(prompt=..., context=..., on_chunk=...)] on the values
    the handler takes from [data].  A [context] that is neither [None]
    nor a dict has no [setdefault]; a [prompt] that is not a string goes
    through the formatter like a string and makes the final [join]
    raise. *)
Definition call_process {S : Type} (self : agent) (prompt context : pyval)
    (on_chunk : option (str -> S -> S * M unit)) (sdk : backend) (st : S)
    : agent * M (gmap str pyval) * S :=
  let run (h : heap) (context : option loc) :=
    match prompt with
    | VStr prompt =>
        let '(o, st) := process_with self h prompt context on_chunk sdk st in
        (out_agent o, out_result o, st)
    | _ =>
        let d := ensure_defaults self
                   (match context with Some l => h l | None => ∅ end) in
        (self,
         match _format_prompt_with_context py_repr [] d with
         | inl e => raise e
         | inr _ => raise TypeError
         end,
         st)
    end in
  match context with
  | VNone => run (fun _ => ∅) None
  | VDict d => run (fun _ => as_map d) (Some 0%nat)
  | _ => (self, raise AttributeError, st)
  end.

End TracedProcess.

(** ** [server.py] *)

Module Server.
Section Handlers.

Variable lim : limits.

Variable py_repr : pyval -> str.

Definition k_sessionId : str := py "sessionId".

Definition error_payload (message : str) : gmap str pyval :=
  <[k_conversationMessage := VStr (py "Error: " ++ message)]>
    {[ py "error" := VStr message ]}.

(** The handler of [connect]. *)
Definition connect (sessionManager : manager) (sid : str) (now : pyval)
    : manager * list emitted :=
  let '(sessionManager, sessionId) :=
    SessionManager.registerSession sessionManager sid now in
  (sessionManager,
   [Emit (py "sessionRegistered") {[ k_sessionId := VStr sessionId ]} sid]).

(** The chunk callback of [askClaudeCode]: one [claudeStreamChunk] event. *)
Definition on_chunk (sid : str) (text : str) (trace : list emitted)
    : list emitted * M unit :=
  (trace ++ [Emit (py "claudeStreamChunk") {[ py "text" := VStr text ]} sid],
   ret tt).

(** The handler of [askClaudeCode]; [data] is the dict the client sent
    and [error_text] is [str(e)] for the exception [process] raises, when
    it raises one.  [sio.emit] is taken to deliver: it adds the event to
    the trace and returns. *)
Definition askClaudeCode (sessionManager : manager) (sid : str)
    (data : gmap str pyval) (sdk : backend) (error_text : str)
    : manager * list emitted :=
  let session := default VNone (data !! k_sessionId) in
  match SessionManager.getAgent sessionManager session with
  | None =>
      (sessionManager,
       [Emit (py "claudeResponse")
          (error_payload (py "No agent found for session: " ++ py_str py_repr session))
          sid])
  | Some agent =>
      let trace := [Emit (py "claudeStreamStart") {[ k_sessionId := session ]} sid] in
      let '(agent, response, trace) :=
        call_process lim py_repr agent
          (default (VStr []) (data !! py "prompt"))
          (default (VDict []) (data !! py "context"))
          (Some (on_chunk sid)) sdk trace in
      (SessionManager.set_agent sessionManager agent,
       match response with
       | inr response =>
           trace ++ [Emit (py "claudeStreamEnd") {[ k_sessionId := session ]} sid;
                     Emit (py "claudeResponse") response sid]
       | inl _ =>
           trace ++ [Emit (py "claudeResponse") (error_payload error_text) sid]
       end)
  end.

(** The handler of [disconnect] only prints. *)
Definition disconnect (sessionManager : manager) (sid : str)
    : manager * list emitted :=
  (sessionManager, []).

End Handlers.
End Server.

(** ** Definitions used in the statements about the rest of the code *)

(** The texts of the text blocks of a response stream, in the order the
    backend produced them. *)
Fixpoint block_texts (blocks : list block) : list str :=
  match blocks with
  | [] => []
  | TextBlock text :: blocks' => text :: block_texts blocks'
  | OtherBlock :: blocks' => block_texts blocks'
  end.

Fixpoint stream_texts (msgs : list message) : list str :=
  match msgs with
  | [] => []
  | AssistantMessage content :: msgs' => block_texts content ++ stream_texts msgs'
  | OtherMessage :: msgs' => stream_texts msgs'
  end.

(** What calling the callback on a chunk does; without a callback nothing
    is called. *)
Definition call_chunk (on_chunk : option (str -> M unit)) (text : str) : M unit :=
  match on_chunk with
  | Some f => f text
  | None => ret tt
  end.

(** The five keys of a context. *)
Definition context_keys : list str :=
  [k_systemInstructions; k_documentContent; k_referredAddress; k_referredText;
   k_conversationHistory].

(** What follows the user's message in every prompt. *)
Definition response_tail : str :=
  newline
  ++ join newline
       [[]; Marker.your_response;
        py "Respond with valid JSON only (no markdown, no code blocks):";
        pyq "{'conversationMessage': '...', 'documentUpdate': '...', 'updateRange': '...'}"].

(** The instructions file an agent reads for a configuration. *)
Definition instructions_path (config : gmap str pyval) : pyval :=
  default (VStr default_instructions_file) (config !! k_instructions_file).

(** What [config.json] holds, seen as a dict: a missing file and a file
    that is not JSON count as the empty dict. *)
Definition file_config (lim : limits) (config_json : file_read) (d : list (str * pyval)) : Prop :=
  match config_json with
  | FileNotFound => d = []
  | FileText text =>
      json_loads lim text = inr (VDict d)
      \/ (json_loads lim text = inl JSONDecodeError /\ d = [])
  | ReadFails e => e = JSONDecodeError /\ d = []
  end.

(** The keys of the dict [loadConfig] returns. *)
Definition config_keys : list str :=
  [k_port; k_host; k_corsOrigin; k_socketPath; k_instructions_file].

(** The agent of the global session. *)
Definition global_agent (m : manager) : agent := session_agent (globalSession m).

(** What no method of the manager and no handler changes. *)
Definition same_session (m m' : manager) : Prop :=
  sessionId (globalSession m') = sessionId (globalSession m)
  /\ socket (globalSession m') = socket (globalSession m)
  /\ createdAt (globalSession m') = createdAt (globalSession m)
  /\ sessions m' = sessions m
  /\ session_id (global_agent m') = session_id (global_agent m)
  /\ system_instructions (global_agent m') = system_instructions (global_agent m).

(** The [claudeStreamChunk] events for a list of chunks. *)
Definition chunk_events (sid : str) (texts : list str) : list emitted :=
  map (fun text => Emit (py "claudeStreamChunk") {[ py "text" := VStr text ]} sid)
      texts.

(** Whether a call returned, rather than raised. *)
Definition is_inr {A B : Type} (x : A + B) : bool :=
  match x with inr _ => true | inl _ => false end.

(** More sample data for the examples. *)
Definition some_agent : agent := Agent (py "s1") (py "Be brief.") false.

Definition some_manager : manager :=
  Manager (Session global_session_id VNone
             (Agent global_session_id _default_instructions false)
             (VInt 1) (VInt 2))
          ∅.

Definition some_stream : list message :=
  [AssistantMessage [TextBlock (pyq "{'conversationMessage':"); OtherBlock];
   OtherMessage;
   AssistantMessage [TextBlock (pyq "'Done'}")]].

Definition some_request : gmap str pyval :=
  <[Server.k_sessionId := VStr global_session_id]> {[ py "prompt" := VStr (py "hi") ]}.

Definition some_environ : gmap str str :=
  <[py "HOST" := py "0.0.0.0"]> {[ py "PORT" := py "8080" ]}.

(** [int] on the port of [some_environ] and on integers. *)
Definition sample_port (v : pyval) : M Z :=
  match v with
  | VInt z => ret z
  | VStr s => if bool_decide (s = py "8080") then ret 8080%Z else raise TypeError
  | _ => raise TypeError
  end.

Definition some_config : gmap str pyval :=
  <[k_port := VInt 8080]>
  (<[k_host := VStr (py "0.0.0.0")]>
   (<[k_corsOrigin := VStr (py "*")]>
    (<[k_socketPath := VStr (py "/socket.io")]>
     {[ k_instructions_file := VStr default_instructions_file ]}))).

(** * Properties *)

(** ** The primitives on sample inputs *)

Example strip_example : strip (py "  hi there
 ") = py "hi there".
Proof. reflexivity. Qed.

Example loads_example :
  json_loads default_limits (pyq " {'a': [1, -2.5e3, true, null], 'b': {'c': 'x\u00e9\n'}} ")
  = inr (VDict [(py "a", VList [VInt 1; VFloat (FDec true 25 2); VBool true; VNone]);
                (py "b", VDict [(py "c", VStr [120; 233; 10])])]).
Proof. reflexivity. Qed.

Example loads_rejects :
  map (fun t => json_loads default_limits (pyq t))
    ["[1,]"; "{'a':1,}"; "01"; "1.e5"; "nul"; "'a	b'"; "'\x'"; "[1 2]"; ""]%string
  = replicate 9 (inl JSONDecodeError).
Proof. reflexivity. Qed.

(** A surrogate pair written as two escapes is one character; a lone
    surrogate stays as it is. *)
Example loads_surrogates :
  json_loads default_limits (pyq "['\ud83d\ude00', '\ud83d', '\ud83dx']")
  = inr (VList [VStr [128512]; VStr [55357]; VStr [55357; 120]]).
Proof. reflexivity. Qed.

(** Floats that round to zero are falsy: 2e-324 is below half the
    smallest subnormal, 3e-324 is above it. *)
Example float_truth :
  map truthy [VFloat (FDec false 2 (-324)); VFloat (FDec false 3 (-324));
              VFloat (FDec true 0 (-1)); VFloat FNaN; VInt 0; VStr []; VDict []]
  = [false; true; false; true; false; false; false].
Proof. vm_compute. reflexivity. Qed.

Example findall_example :
  re_findall fenced_block_re (pyq "```json {'a':1} ``` ```
{'b':2}``` ```js {'c':3}``` ```json{}```") 0
  = [pyq "{'a':1}"; pyq "{'b':2}"; pyq "{}"].
Proof. vm_compute. reflexivity. Qed.

(** The inline pattern does not match an object with inner braces. *)
Example search_example :
  re_search inline_object_re
    (pyq "so {'a':1, 'conversationMessage': 'x'} and {'conversationMessage': 'y'}")
  = Some (pyq "{'a':1, 'conversationMessage': 'x'}")
  /\ re_search inline_object_re
       (pyq "so {'a':{'b':1}, 'conversationMessage': 'x'} z") = None.
Proof. split; vm_compute; reflexivity. Qed.

(** ** The scanner always has enough fuel *)

Lemma skip_ws_le (s : str) : (length (skip_ws s) <= length s)%nat.
Proof. induction s as [|c s IH]; simpl; [lia|]. destruct (json_ws c); simpl; lia. Qed.

Lemma skip_ws_cons (s s' : str) (c : char) :
  skip_ws s = c :: s' -> (length s' < length s)%nat.
Proof. intros H. pose proof (skip_ws_le s) as L. rewrite H in L. simpl in L. lia. Qed.

Lemma push_char_Some (c : char) (r : option (str * str)) (t rest : str) :
  push_char c r = Some (t, rest) -> exists t', r = Some (t', rest) /\ t = c :: t'.
Proof. destruct r as [[t' r']|]; simpl; [|done]. intros [= <- <-]. by eexists. Qed.

Lemma scanstring_lt (s t r : str) :
  scanstring s = Some (t, r) -> (length r < length s)%nat.
Proof.
  remember (length s) as n eqn:Hn. revert s t r Hn.
  induction n as [n IH] using lt_wf_ind. intros s t r -> H.
  destruct s as [|c s1]; [done|]. simpl in H.
  repeat match type of H with
  | (if ?b then _ else _) = _ => destruct b
  | match ?x with _ => _ end = _ => destruct x eqn:?
  | push_char _ _ = Some _ => apply push_char_Some in H as (? & H & _)
  end; simplify_eq; simpl; try lia.
  all: try (eapply IH in H; [| |reflexivity]; simpl in *; lia).
Qed.

Lemma strip_prefix_length (p s r : str) :
  strip_prefix p s = Some r -> (length r + length p = length s)%nat.
Proof.
  revert s. induction p as [|a p IH]; intros s; simpl; [by intros [= ->]; lia|].
  destruct s as [|c s]; [done|]. destruct (a =? c); [|done].
  intros H%IH. simpl. lia.
Qed.

Lemma span_digits_length (s d r : str) :
  span_digits s = (d, r) -> (length d + length r = length s)%nat.
Proof.
  revert d r. induction s as [|c s IH]; intros d r; simpl; [by intros [= <- <-]|].
  destruct (is_digit c); [|by intros [= <- <-]].
  destruct (span_digits s) as [d' r']. intros [= <- <-].
  specialize (IH _ _ eq_refl). simpl. lia.
Qed.

Lemma match_integer_lt (s d r : str) :
  match_integer s = Some (d, r) -> (length r < length s)%nat.
Proof.
  destruct s as [|c s]; simpl; [done|].
  destruct (c =? Ch.zero); [intros [= <- <-]; lia|].
  destruct (is_digit c); [|done].
  destruct (span_digits s) as [d' r'] eqn:E. intros [= <- <-].
  apply span_digits_length in E. lia.
Qed.

Lemma match_frac_le (s d r : str) :
  match_frac s = Some (d, r) -> (length r <= length s)%nat.
Proof.
  destruct s as [|c s]; simpl; [done|].
  destruct (c =? Ch.dot); [|done].
  destruct (span_digits s) as [d' r'] eqn:E. apply span_digits_length in E.
  destruct d'; [done|]. intros [= <- <-]. lia.
Qed.

Lemma match_exp_le (s r : str) (e : Z) :
  match_exp s = Some (e, r) -> (length r <= length s)%nat.
Proof.
  destruct s as [|c s]; simpl; [done|].
  destruct (_ || _); [|done].
  destruct (match s with [] => _ | _ => _ end) as [neg s''] eqn:Es.
  assert (length s'' <= length s)%nat as L.
  { destruct s as [|x t]; [by injection Es as <- <-|].
    destruct (x =? Ch.minus); [injection Es as <- <-; simpl; lia|].
    destruct (x =? Ch.plus); injection Es as <- <-; simpl; lia. }
  destruct (span_digits s'') as [d' r'] eqn:E. apply span_digits_length in E.
  destruct d'; [done|]. intros [= <- <-]. lia.
Qed.

Lemma match_number_lt (lim : limits) (s r : str) (v : M pyval) :
  match_number lim s = Some (v, r) -> (length r < length s)%nat.
Proof.
  unfold match_number.
  destruct (match s with [] => _ | _ => _ end) as [neg s1] eqn:Es.
  assert (length s1 <= length s)%nat as L1.
  { destruct s as [|c s]; [by injection Es as <- <-|].
    destruct (c =? Ch.minus); injection Es as <- <-; simpl; lia. }
  destruct (match_integer s1) as [[i s2]|] eqn:Ei; [|done].
  apply match_integer_lt in Ei.
  destruct (match match_frac s2 with Some _ => _ | None => _ end) as [frac s3] eqn:Ef.
  assert (length s3 <= length s2)%nat as L3.
  { destruct (match_frac s2) as [[d' r']|] eqn:E; injection Ef as <- <-; [|lia].
    by apply match_frac_le in E. }
  destruct (match match_exp s3 with Some _ => _ | None => _ end) as [ex s4] eqn:Ee.
  assert (length s4 <= length s3)%nat as L4.
  { destruct (match_exp s3) as [[d' r']|] eqn:E; injection Ee as <- <-; [|lia].
    by apply match_exp_le in E. }
  destruct frac, ex; try (intros [= <- <-]; lia).
  destruct (too_many_digits lim (length i)); intros [= <- <-]; lia.
Qed.

Ltac scan_cases H :=
  repeat match type of H with
  | (if ?b then _ else _) = _ => destruct b eqn:?
  | match ?x with _ => _ end = _ => destruct x eqn:?
  end.

Ltac scan_facts IH1 IH2 IH3 :=
  repeat match goal with
  | E : skip_ws _ = _ :: _ |- _ => apply skip_ws_cons in E
  | E : scanstring _ = Some _ |- _ => apply scanstring_lt in E
  | E : strip_prefix _ _ = Some _ |- _ => apply strip_prefix_length in E
  | E : match_number _ _ = Some _ |- _ => apply match_number_lt in E
  | E : scan_once _ _ _ _ = Scanned _ _ |- _ => apply IH1 in E
  | E : scan_pairs _ _ _ _ = Scanned _ _ |- _ => apply IH2 in E
  | E : scan_elems _ _ _ _ = Scanned _ _ |- _ => apply IH3 in E
  end.

Ltac skip_ws_fact l :=
  lazymatch goal with
  | _ : (length (skip_ws l) <= length l)%nat |- _ => fail
  | _ => pose proof (skip_ws_le l)
  end.

Ltac skip_ws_facts :=
  repeat match goal with
  | _ : context [length (skip_ws ?l)] |- _ => skip_ws_fact l
  | |- context [length (skip_ws ?l)] => skip_ws_fact l
  end.

Lemma scan_bounds (lim : limits) (fuel : nat) :
  (forall room s v r,
     scan_once lim fuel room s = Scanned v r -> (length r < length s)%nat)
  /\ (forall room s d r,
        scan_pairs lim fuel room s = Scanned d r -> (length r < length s)%nat)
  /\ (forall room s l r,
        scan_elems lim fuel room s = Scanned l r -> (length r < length s)%nat).
Proof.
  induction fuel as [|f (IH1 & IH2 & IH3)]; [by repeat split|].
  repeat split.
  - intros room s v r H. cbn [scan_once] in H. destruct s as [|c s']; [done|].
    scan_cases H; simplify_eq; scan_facts IH1 IH2 IH3; simpl in *; lia.
  - intros room s v r H. cbn [scan_pairs] in H.
    scan_cases H; simplify_eq; scan_facts IH1 IH2 IH3; skip_ws_facts; lia.
  - intros room s v r H. cbn [scan_elems] in H.
    scan_cases H; simplify_eq; scan_facts IH1 IH2 IH3; skip_ws_facts; lia.
Qed.

Lemma scan_once_lt (lim : limits) (fuel room : nat) (s r : str) (v : pyval) :
  scan_once lim fuel room s = Scanned v r -> (length r < length s)%nat.
Proof. apply scan_bounds. Qed.

Ltac fuel_cases :=
  repeat match goal with
  | |- (if ?b then _ else _) <> _ => destruct b eqn:?
  | |- match ?x with _ => _ end <> _ => destruct x eqn:?
  end.

Ltac fuel_contra IH1 IH2 IH3 :=
  exfalso;
  match goal with
  | E : scan_once _ _ _ _ = OutOfFuel |- _ => eapply IH1; [|exact E]
  | E : scan_pairs _ _ _ _ = OutOfFuel |- _ => eapply IH2; [|exact E]
  | E : scan_elems _ _ _ _ = OutOfFuel |- _ => eapply IH3; [|exact E]
  end.

(** More fuel than twice the number of characters is enough. *)
Lemma scan_fuel (lim : limits) (fuel : nat) :
  (forall room s,
     (2 * length s < fuel)%nat -> scan_once lim fuel room s <> OutOfFuel)
  /\ (forall room s,
        (2 * length s < fuel)%nat -> scan_pairs lim fuel room s <> OutOfFuel)
  /\ (forall room s,
        (2 * length s + 1 < fuel)%nat -> scan_elems lim fuel room s <> OutOfFuel).
Proof.
  induction fuel as [|f (IH1 & IH2 & IH3)]; [repeat split; intros; lia|].
  pose proof (scan_bounds lim f) as (B1 & B2 & B3).
  repeat split.
  - intros room s L. cbn [scan_once]. destruct s as [|c s']; [done|].
    fuel_cases; try done; fuel_contra IH1 IH2 IH3;
      scan_facts B1 B2 B3; skip_ws_facts; simpl in *; lia.
  - intros room s L. cbn [scan_pairs].
    fuel_cases; try done; fuel_contra IH1 IH2 IH3;
      scan_facts B1 B2 B3; skip_ws_facts; simpl in *; lia.
  - intros room s L. cbn [scan_elems].
    fuel_cases; try done; fuel_contra IH1 IH2 IH3;
      scan_facts B1 B2 B3; skip_ws_facts; simpl in *; lia.
Qed.

Lemma json_loads_fuel (lim : limits) (room : nat) (s : str) :
  scan_once lim (S (2 * length (skip_ws s))) room (skip_ws s) <> OutOfFuel.
Proof. apply scan_fuel. lia. Qed.

Ltac mono_scan scan IH t f' :=
  let E := fresh "E" in
  destruct scan eqn:E;
    [rewrite (IH _ t f') by (lia || by rewrite E); rewrite E
    |rewrite (IH _ t f') by (lia || by rewrite E); rewrite E
    |rewrite (IH _ t f') by (lia || by rewrite E); rewrite E|].

Ltac mono_step IH1 IH2 IH3 f f' :=
  match goal with
  | |- context [scan_once ?lim f ?r ?t] => mono_scan (scan_once lim f r t) IH1 t f'
  | |- context [scan_pairs ?lim f ?r ?t] => mono_scan (scan_pairs lim f r t) IH2 t f'
  | |- context [scan_elems ?lim f ?r ?t] => mono_scan (scan_elems lim f r t) IH3 t f'
  | |- context [if ?b then _ else _] => destruct b eqn:?
  | |- context [match ?x with _ => _ end] => destruct x eqn:?
  end.

(** Fuel beyond what a scan needs does not change its result. *)
Lemma scan_mono (lim : limits) (fuel : nat) :
  (forall room s fuel',
     (fuel <= fuel')%nat -> scan_once lim fuel room s <> OutOfFuel ->
     scan_once lim fuel' room s = scan_once lim fuel room s)
  /\ (forall room s fuel',
        (fuel <= fuel')%nat -> scan_pairs lim fuel room s <> OutOfFuel ->
        scan_pairs lim fuel' room s = scan_pairs lim fuel room s)
  /\ (forall room s fuel',
        (fuel <= fuel')%nat -> scan_elems lim fuel room s <> OutOfFuel ->
        scan_elems lim fuel' room s = scan_elems lim fuel room s).
Proof.
  induction fuel as [|f (IH1 & IH2 & IH3)]; [by repeat split|].
  repeat split; intros room s [|f'] L; try lia;
    cbn [scan_once scan_pairs scan_elems];
    repeat (mono_step IH1 IH2 IH3 f f'; try done).
Qed.
(** ** The limits of the interpreter *)




Lemma too_many_digits_mono (lim : limits) (n m : nat) :
  (n <= m)%nat -> too_many_digits lim n = true -> too_many_digits lim m = true.
Proof.
  unfold too_many_digits. intros L H.
  apply andb_true_iff in H as [H H3]. apply andb_true_iff in H as [H1 H2].
  apply Nat.ltb_lt in H1, H3. rewrite H2.
  rewrite (proj2 (Nat.ltb_lt _ _)), (proj2 (Nat.ltb_lt _ _)); [done|lia|lia].
Qed.

Section Counting.
Variable p : char -> bool.















End Counting.

Lemma span_digits_digits (s d r : str) :
  span_digits s = (d, r) ->
  (length d + count is_digit r = count is_digit s)%nat.
Proof.
  revert d r. induction s as [|c s IH]; intros d r; simpl; [by intros [= <- <-]|].
  destruct (is_digit c) eqn:Ec; [|intros [= <- <-]; simpl; by rewrite Ec].
  destruct (span_digits s) as [d' r']. intros [= <- <-].
  specialize (IH _ _ eq_refl). simpl. lia.
Qed.

Lemma match_integer_digits (s d r : str) :
  match_integer s = Some (d, r) ->
  (length d + count is_digit r = count is_digit s)%nat.
Proof.
  destruct s as [|c s]; simpl; [done|].
  destruct (c =? Ch.zero) eqn:E0.
  - apply N.eqb_eq in E0 as ->. by intros [= <- <-].
  - destruct (is_digit c); [|done].
    destruct (span_digits s) as [d' r'] eqn:E. intros [= <- <-].
    apply span_digits_digits in E. simpl. lia.
Qed.

(** The one exception a number raises: [ValueError], on an integer
    literal that has too many digits. *)
Lemma match_number_raises (lim : limits) (s r : str) (e : exn) :
  match_number lim s = Some (inl e, r) ->
  e = ValueError /\ too_many_digits lim (count is_digit s) = true.
Proof.
  unfold match_number.
  destruct (match s with [] => _ | _ => _ end) as [neg s1] eqn:Es.
  assert (count is_digit s1 <= count is_digit s)%nat as L1.
  { destruct s as [|c s]; [by injection Es as <- <-|].
    destruct (c =? Ch.minus); injection Es as <- <-; simpl; lia. }
  destruct (match_integer s1) as [[i s2]|] eqn:Ei; [|done].
  apply match_integer_digits in Ei.
  destruct (match match_frac s2 with Some _ => _ | None => _ end) as [frac s3].
  destruct (match match_exp s3 with Some _ => _ | None => _ end) as [ex s4].
  destruct frac, ex; try done.
  destruct (too_many_digits lim (length i)) eqn:Et; [|done].
  intros [= <- <-]. split; [done|].
  apply (too_many_digits_mono lim (length i)); [lia|done].
Qed.

(** A scan raises nothing but [RecursionError] and [ValueError]. *)
Lemma scan_raised (lim : limits) (fuel : nat) :
  (forall room s e, scan_once lim fuel room s = Raised e ->
     e = RecursionError \/ e = ValueError)
  /\ (forall room s e, scan_pairs lim fuel room s = Raised e ->
        e = RecursionError \/ e = ValueError)
  /\ (forall room s e, scan_elems lim fuel room s = Raised e ->
        e = RecursionError \/ e = ValueError).
Proof.
  induction fuel as [|f (IH1 & IH2 & IH3)]; [by repeat split|].
  repeat split.
  - intros room s e H. cbn [scan_once] in H. destruct s as [|c s']; [done|].
    scan_cases H; simplify_eq; eauto.
    match goal with
    | E : match_number _ _ = Some (inl _, _) |- _ =>
        apply match_number_raises in E as [-> _]; by right
    end.
  - intros room s e H. cbn [scan_pairs] in H. scan_cases H; simplify_eq; eauto.
  - intros room s e H. cbn [scan_elems] in H. scan_cases H; simplify_eq; eauto.
Qed.












(** ** What [json.loads] raises *)

Lemma json_loads_raises (lim : limits) (s : str) (e : exn) :
  json_loads lim s = inl e ->
  e = JSONDecodeError \/ e = RecursionError \/ e = ValueError.
Proof.
  unfold json_loads.
  destruct (scan_once _ _ _ _) as [v rest| |e'|] eqn:E;
    [destruct (skip_ws rest)|..]; unfold ret, raise; try (intros [= <-]; by left);
    try done.
  intros [= <-]. right. by apply scan_raised in E.
Qed.


(** ** The decoder *)

Lemma try_loads_raises {lim : limits} (text : str) (e : exn) :
  try_loads lim text = inl e ->
  json_loads lim text = inl e /\ (e = RecursionError \/ e = ValueError).
Proof.
  unfold try_loads. destruct (json_loads lim text) as [e'|v] eqn:E; [|done].
  pose proof (json_loads_raises _ _ _ E) as [-> | [-> | ->]];
    [done| |]; intros [= <-]; auto.
Qed.


Lemma first_loaded_raises {lim : limits} (blocks : list str) (j : pyval) (e : exn) :
  first_loaded lim blocks j = inl e -> e = RecursionError \/ e = ValueError.
Proof.
  induction blocks as [|b bs IH]; simpl; [done|].
  destruct (try_loads lim b) as [e'|[v|]] eqn:E; simpl; [|done|done].
  intros [= <-]. by apply try_loads_raises in E as [_ ?].
Qed.


(** The decoder raises only what [json.loads] raises and the code does
    not catch. *)
Lemma extract_json_raises {lim : limits} (text : str) (e : exn) :
  extract_json lim text = inl e -> e = RecursionError \/ e = ValueError.
Proof.
  unfold extract_json.
  destruct (try_loads lim (strip text)) as [e1|r] eqn:E1; simpl.
  { intros [= <-]. by apply try_loads_raises in E1 as [_ ?]. }
  set (j1 := default VNone r).
  destruct (if negb (truthy j1)
            then first_loaded lim (re_findall fenced_block_re text 0) j1
            else ret j1) as [e2|j2] eqn:E2; simpl.
  { intros [= <-]. destruct (negb (truthy j1)); [|done].
    by apply first_loaded_raises in E2. }
  destruct (negb (truthy j2)); [|done].
  destruct (re_search inline_object_re text) as [m|]; [|done].
  destruct (try_loads lim m) as [e3|r'] eqn:E3; simpl; [|done].
  intros [= <-]. by apply try_loads_raises in E3 as [_ ?].
Qed.


Lemma keys_distinct :
  k_documentUpdate <> k_conversationMessage
  /\ k_updateRange <> k_conversationMessage
  /\ k_updateRange <> k_documentUpdate.
Proof. by repeat split. Qed.

Lemma include_if_present_lookup (k k' : str) (d : list (str * pyval))
    (result : gmap str pyval) :
  include_if_present k d result !! k' =
    if decide (k = k') then
      match dict_get d k with
      | Some v => if truthy v then Some v else result !! k'
      | None => result !! k'
      end
    else result !! k'.
Proof.
  unfold include_if_present.
  destruct (dict_get d k) as [v|]; [destruct (truthy v)|];
    rewrite ?lookup_insert; repeat case_decide; done.
Qed.

Lemma project_conversationMessage (d : list (str * pyval)) :
  project d !! k_conversationMessage
  = Some (default (VStr []) (dict_get d k_conversationMessage)).
Proof.
  destruct keys_distinct as (? & ? & ?).
  unfold project. rewrite !include_if_present_lookup.
  rewrite !decide_False by done. apply lookup_singleton_eq.
Qed.

Lemma project_documentUpdate (d : list (str * pyval)) :
  project d !! k_documentUpdate = truthy_item d k_documentUpdate.
Proof.
  destruct keys_distinct as (? & ? & ?).
  unfold project, truthy_item. rewrite !include_if_present_lookup.
  rewrite decide_False, decide_True by done.
  rewrite lookup_singleton_ne by done.
  by destruct (dict_get d k_documentUpdate) as [v|]; [destruct (truthy v)|].
Qed.

Lemma project_updateRange (d : list (str * pyval)) :
  project d !! k_updateRange = truthy_item d k_updateRange.
Proof.
  destruct keys_distinct as (? & ? & ?).
  unfold project, truthy_item. rewrite !include_if_present_lookup.
  rewrite decide_True, decide_False by done.
  rewrite lookup_singleton_ne by done.
  by destruct (dict_get d k_updateRange) as [v|]; [destruct (truthy v)|].
Qed.

Lemma project_other (d : list (str * pyval)) (k : str) :
  k <> k_conversationMessage -> k <> k_documentUpdate -> k <> k_updateRange ->
  project d !! k = None.
Proof.
  intros. unfold project. rewrite !include_if_present_lookup.
  rewrite !decide_False by done. by apply lookup_singleton_ne.
Qed.

Lemma fallback_lookup (text : str) (k : str) :
  fallback text !! k =
    if decide (k = k_conversationMessage)
    then Some (VStr (str_or (strip text) error_sentence)) else None.
Proof.
  unfold fallback. case_decide as E.
  - subst. apply lookup_singleton_eq.
  - by apply lookup_singleton_ne.
Qed.

(** The ways [_parse_response] ends. *)
Lemma parse_response_cases {lim : limits} (text : str) (context : gmap str pyval) :
  (exists j, extract_json lim text = inr j /\
     ((exists p d, j = VDict (p :: d)
         /\ _parse_response lim text context = inr (project (p :: d)))
      \/ (truthy j && is_dict j = false
         /\ _parse_response lim text context = inr (fallback text))))
  \/ (exists e, extract_json lim text = inl e
        /\ (e = RecursionError \/ e = ValueError)
        /\ _parse_response lim text context = inl e).
Proof.
  unfold _parse_response.
  destruct (extract_json lim text) as [e|j] eqn:E.
  - right. exists e. split; [done|]. split; [|done].
    by apply extract_json_raises in E.
  - left. exists j. split; [done|]. simpl.
    destruct j as [| | | | | |d]; try (right; by rewrite andb_false_r).
    destruct d as [|p d]; [by right|]. left. by exists p, d.
Qed.

(** What a returned result is. *)
Lemma parse_response_returned {lim : limits} (text : str)
    (context result : gmap str pyval) :
  _parse_response lim text context = inr result ->
  exists j, extract_json lim text = inr j /\
    ((exists p d, j = VDict (p :: d) /\ result = project (p :: d))
     \/ (truthy j && is_dict j = false /\ result = fallback text)).
Proof.
  intros Hr.
  destruct (parse_response_cases (lim:=lim) text context)
    as [(j & Hj & [(p & d & -> & Hp)|(Hu & Hp)])|(e & _ & _ & Hp)];
    rewrite Hp in Hr; [| |done]; injection Hr as <-; exists j || eexists;
    (split; [done|]); [left; by exists p, d|by right].
Qed.

Lemma parse_response_object {lim : limits} (text : str) (context : gmap str pyval)
    (p : str * pyval) (d : list (str * pyval)) :
  extract_json lim text = inr (VDict (p :: d)) ->
  _parse_response lim text context = inr (project (p :: d)).
Proof. intros H. unfold _parse_response. by rewrite H. Qed.

Lemma parse_response_no_object {lim : limits} (text : str) (context : gmap str pyval)
    (j : pyval) :
  extract_json lim text = inr j ->
  truthy j && is_dict j = false ->
  _parse_response lim text context = inr (fallback text).
Proof. intros H Hu. unfold _parse_response. rewrite H. simpl. by rewrite Hu. Qed.






(** What that text is decoded to. *)
Example within_limits_example :
  exists result,
    _parse_response default_limits
      (pyq "Sure: {'conversationMessage': 'Done', 'n': [1, 2]}") ∅ = inr result
    /\ result !! k_conversationMessage = Some (VStr (py "Done")).
Proof.
  eexists. split; [apply parse_response_object; vm_compute; reflexivity|].
  by rewrite project_conversationMessage.
Qed.

(** C2 as the specification states it fails: a backend object that carries
    [updateRange] and no [documentUpdate] is decoded to a result with
    [updateRange] on its own. *)
Lemma updateRange_on_its_own :
  exists result,
    _parse_response default_limits (pyq "{'conversationMessage':'x','updateRange':'0:5'}") ∅
      = inr result
    /\ result !! k_updateRange = Some (VStr (py "0:5"))
    /\ result !! k_documentUpdate = None.
Proof.
  eexists. split.
  - apply parse_response_object. vm_compute. reflexivity.
  - by rewrite project_updateRange, project_documentUpdate.
Qed.

(** C2, amended.  The result contains [updateRange] exactly when the
    decoded object has the key [updateRange] with a truthy value; the test
    does not look at [documentUpdate]. *)
Theorem updateRange_presence {lim : limits} (response_text : str) (context : gmap str pyval)
    (result : gmap str pyval) (v : pyval) :
  _parse_response lim response_text context = inr result ->
  result !! k_updateRange = Some v
  <-> exists d, extract_json lim response_text = inr (VDict d)
        /\ dict_get d k_updateRange = Some v /\ truthy v = true.
Proof.
  intros Hr.
  destruct (parse_response_returned _ _ _ Hr)
    as (j & Hj & [(p & d & -> & ->)|(Hu & ->)]).
  - rewrite project_updateRange. unfold truthy_item. split.
    + intros H. exists (p :: d). split; [done|].
      destruct (dict_get (p :: d) k_updateRange) as [w|]; [|done].
      destruct (truthy w) eqn:Hw; [|done]. by injection H as ->.
    + intros (d' & Hd' & Hg & Ht). rewrite Hj in Hd'. injection Hd' as <-.
      by rewrite Hg, Ht.
  - rewrite fallback_lookup, decide_False by apply keys_distinct. split; [done|].
    intros (d & Hd & Hg & _). rewrite Hj in Hd. injection Hd as ->.
    destruct d; [done|]. simpl in Hu. discriminate.
Qed.

Lemma updateRange_presence_witness :
  project [(k_conversationMessage, VStr (py "x")); (k_updateRange, VStr (py "0:5"))]
    !! k_updateRange = Some (VStr (py "0:5"))
  <-> exists d,
        extract_json default_limits (pyq "{'conversationMessage':'x','updateRange':'0:5'}")
          = inr (VDict d)
        /\ dict_get d k_updateRange = Some (VStr (py "0:5"))
        /\ truthy (VStr (py "0:5")) = true.
Proof.
  apply (updateRange_presence
           (pyq "{'conversationMessage':'x','updateRange':'0:5'}") ∅).
  apply parse_response_object. vm_compute. reflexivity.
Defined.

(** Strategy 1 decides when the stripped text is a non-empty object. *)
Lemma extract_json_whole {lim : limits} (response_text : str) (p : str * pyval)
    (d : list (str * pyval)) :
  json_loads lim (strip response_text) = inr (VDict (p :: d)) ->
  extract_json lim response_text = inr (VDict (p :: d)).
Proof. intros H. unfold extract_json, try_loads. by rewrite H. Qed.

(** C3 as the specification states it fails on the input "{}": the text is a
    JSON object without the key, and the decoded message is the text
    itself, not the empty string. *)
Lemma empty_object_falls_back :
  json_loads default_limits (strip (py "{}")) = inr (VDict [])
  /\ exists result,
       _parse_response default_limits (py "{}") ∅ = inr result
       /\ result !! k_conversationMessage = Some (VStr (py "{}"))
       /\ result !! k_conversationMessage <> Some (VStr []).
Proof.
  split; [reflexivity|]. eexists. split.
  - apply (parse_response_no_object _ _ (VDict [])); vm_compute; reflexivity.
  - rewrite fallback_lookup, decide_True by done. split; [reflexivity|discriminate].
Qed.

(** C3, amended.  For every input whose stripped content parses as a JSON
    object with at least one key, the result's [conversationMessage] is
    the object's value for that key, and the empty string when the object
    has no such key. *)
Theorem whole_object_message {lim : limits} (response_text : str) (context : gmap str pyval)
    (d : list (str * pyval)) :
  json_loads lim (strip response_text) = inr (VDict d) ->
  d <> [] ->
  exists result,
    _parse_response lim response_text context = inr result
    /\ result !! k_conversationMessage
       = Some (match dict_get d k_conversationMessage with
               | Some v => v
               | None => VStr []
               end).
Proof.
  intros Hl Hd. destruct d as [|p d]; [done|].
  apply extract_json_whole in Hl.
  exists (project (p :: d)). split.
  - unfold _parse_response. by rewrite Hl.
  - by rewrite project_conversationMessage.
Qed.

Lemma whole_object_message_witness :
  exists result,
    _parse_response default_limits (pyq " {'documentUpdate': 'new'} ") ∅ = inr result
    /\ result !! k_conversationMessage = Some (VStr []).
Proof.
  apply (whole_object_message (pyq " {'documentUpdate': 'new'} ") ∅
           [(k_documentUpdate, VStr (py "new"))]).
  - vm_compute. reflexivity.
  - discriminate.
Defined.

Lemma dict_get_remove (k k' : str) (d : list (str * pyval)) :
  dict_get (dict_remove k d) k' = if decide (k' = k) then None else dict_get d k'.
Proof.
  unfold dict_remove.
  induction d as [|[k0 v] d IH]; [by case_decide|].
  rewrite filter_cons. destruct (decide ((k0, v).1 <> k)) as [E0|E0]; simpl in *.
  - rewrite IH. case_decide as E; [subst|done].
    destruct (dict_get d k); by rewrite ?bool_decide_false.
  - apply dec_stable in E0. subst. rewrite IH. case_decide as E; [done|].
    destruct (dict_get d k'); [done|]. by rewrite bool_decide_false.
Qed.

(** An object whose [documentUpdate] (or [updateRange]) is the empty
    string is projected like the object without the key. *)
Lemma empty_string_as_absent (k : str) (d : list (str * pyval)) :
  k = k_documentUpdate \/ k = k_updateRange ->
  dict_get d k = Some (VStr []) ->
  project d = project (dict_remove k d).
Proof.
  destruct keys_distinct as (? & ? & ?).
  intros Hk Hg. apply map_eq. intros k'.
  destruct (decide (k' = k_conversationMessage)) as [->|].
  { rewrite !project_conversationMessage, dict_get_remove.
    by rewrite decide_False by (destruct Hk; congruence). }
  destruct (decide (k' = k_documentUpdate)) as [->|].
  { rewrite !project_documentUpdate. unfold truthy_item.
    rewrite dict_get_remove. case_decide; [subst; by rewrite Hg|done]. }
  destruct (decide (k' = k_updateRange)) as [->|].
  { rewrite !project_updateRange. unfold truthy_item.
    rewrite dict_get_remove. case_decide; [subst; by rewrite Hg|done]. }
  by rewrite !project_other.
Qed.

(** The rule of the optional fields.  For every parsed mapping [d] and
    for [k] either [documentUpdate] or [updateRange]: the result contains
    [k] only if [d] has the key with a truthy value (and then with that
    value); when the value in [d] is a string, the key is in the result
    exactly when the string is not empty. *)
Lemma optional_field_rule {lim : limits} (response_text : str) (context : gmap str pyval)
    (d : list (str * pyval)) (k : str) :
  k = k_documentUpdate \/ k = k_updateRange ->
  extract_json lim response_text = inr (VDict d) ->
  exists result,
    _parse_response lim response_text context = inr result
    /\ (forall v, result !! k = Some v
                  <-> dict_get d k = Some v /\ truthy v = true)
    /\ (forall s, dict_get d k = Some (VStr s)
                  -> (is_Some (result !! k) <-> s <> [])).
Proof.
  intros Hk Hj.
  assert (forall m : gmap str pyval, m !! k = truthy_item d k ->
    (forall v, m !! k = Some v <-> dict_get d k = Some v /\ truthy v = true)
    /\ (forall s, dict_get d k = Some (VStr s) -> (is_Some (m !! k) <-> s <> [])))
    as Hrule.
  { intros m Hm. rewrite Hm. unfold truthy_item. split.
    - intros v. destruct (dict_get d k) as [w|]; [destruct (truthy w) eqn:Hw|].
      + split; [by intros [= ->]|by intros [? _]].
      + split; [done|]. intros [[= ->] ?]. congruence.
      + split; [done|by intros [? _]].
    - intros s Hs. rewrite Hs. simpl. case_bool_decide as E; simpl.
      + split; [by intros [? ?]|done].
      + split; [done|by eexists]. }
  destruct (parse_response_cases (lim:=lim) response_text context)
    as [(j & Hj' & [(p & d' & Hjd & Hp)|(Hu & Hp)])|(e & He & _)];
    [| |congruence];
    rewrite Hj in Hj'; injection Hj' as <-;
    eexists; (split; [exact Hp|]); apply Hrule.
  - injection Hjd as ->.
    destruct Hk as [-> | ->];
      [apply project_documentUpdate|apply project_updateRange].
  - destruct d; [|simpl in Hu; discriminate].
    rewrite fallback_lookup, decide_False; [done|].
    destruct keys_distinct as (? & ? & ?). destruct Hk; congruence.
Qed.

Example empty_documentUpdate_absent :
  exists result,
    _parse_response default_limits (pyq "{'conversationMessage':'ok','documentUpdate':''}") ∅
      = inr result
    /\ result !! k_conversationMessage = Some (VStr (py "ok"))
    /\ result !! k_documentUpdate = None
    /\ result !! k_updateRange = None.
Proof.
  eexists. split.
  - apply parse_response_object. vm_compute. reflexivity.
  - by rewrite project_conversationMessage, project_documentUpdate,
      project_updateRange.
Qed.

(** C4 as the specification states it fails: the object whose only key
    is [documentUpdate], with the empty string, is decoded to the empty
    message, while the object that omits the key is the empty object,
    which is falsy and is passed through as text. *)
Lemma empty_update_not_as_absent :
  exists with_key without_key,
    _parse_response default_limits (pyq "{'documentUpdate':''}") ∅ = inr with_key
    /\ _parse_response default_limits (py "{}") ∅ = inr without_key
    /\ with_key !! k_conversationMessage = Some (VStr [])
    /\ without_key !! k_conversationMessage = Some (VStr (py "{}"))
    /\ with_key <> without_key.
Proof.
  exists (project [(k_documentUpdate, VStr [])]), (fallback (py "{}")).
  split; [apply parse_response_object; vm_compute; reflexivity|].
  split; [by apply (parse_response_no_object _ _ (VDict []));
            vm_compute; reflexivity|].
  split; [by rewrite project_conversationMessage|].
  split; [by rewrite fallback_lookup|].
  intros H. apply (f_equal (fun m : gmap str pyval => m !! k_conversationMessage)) in H.
  by rewrite project_conversationMessage, fallback_lookup in H.
Qed.

(** C4, amended.  For every parsed mapping [d] and for [k] either
    [documentUpdate] or [updateRange]: the result contains [k] only if [d]
    has the key with a truthy value (and then with that value); when the
    value in [d] is a string, the key is in the result exactly when the
    string is not empty; and when it is the empty string, a response that
    parses to [d] without the key is decoded to the same result, provided
    another key is left. *)
Theorem optional_field_decoding {lim : limits} (response_text : str)
    (context : gmap str pyval) (d : list (str * pyval)) (k : str) :
  k = k_documentUpdate \/ k = k_updateRange ->
  extract_json lim response_text = inr (VDict d) ->
  exists result,
    _parse_response lim response_text context = inr result
    /\ (forall v, result !! k = Some v
                  <-> dict_get d k = Some v /\ truthy v = true)
    /\ (forall s, dict_get d k = Some (VStr s)
                  -> (is_Some (result !! k) <-> s <> []))
    /\ (forall omitting,
          dict_get d k = Some (VStr []) ->
          extract_json lim omitting = inr (VDict (dict_remove k d)) ->
          dict_remove k d <> [] ->
          _parse_response lim omitting context = inr result).
Proof.
  intros Hk Hj.
  destruct (optional_field_rule response_text context d k Hk Hj)
    as (result & Hr & Hrule & Hstr).
  exists result. split; [done|]. split; [done|]. split; [done|].
  intros omitting Hg Ho Hne.
  destruct d as [|p d]; [done|].
  rewrite (parse_response_object _ _ _ _ Hj) in Hr. injection Hr as <-.
  destruct (dict_remove k (p :: d)) as [|p' d'] eqn:E; [done|].
  rewrite (parse_response_object _ _ _ _ Ho), <- E.
  by rewrite <- empty_string_as_absent.
Qed.

Lemma optional_field_decoding_witness :
  exists result,
    _parse_response default_limits
      (pyq "{'conversationMessage':'ok','documentUpdate':''}") ∅ = inr result
    /\ _parse_response default_limits (pyq "{'conversationMessage':'ok'}") ∅
       = inr result
    /\ result !! k_documentUpdate = None.
Proof.
  destruct (optional_field_decoding (lim:=default_limits)
              (pyq "{'conversationMessage':'ok','documentUpdate':''}") ∅
              [(k_conversationMessage, VStr (py "ok")); (k_documentUpdate, VStr [])]
              k_documentUpdate)
    as (result & Hr & Hrule & _ & Hsame).
  - by left.
  - vm_compute. reflexivity.
  - exists result. split; [exact Hr|]. split.
    + apply Hsame; [reflexivity|vm_compute; reflexivity|discriminate].
    + destruct (result !! k_documentUpdate) as [v|] eqn:E; [|done].
      destruct (proj1 (Hrule v) eq_refl) as [[= <-] Ht]. discriminate.
Defined.

(** C6.  When the three strategies leave no usable object (a value that
    is falsy or not a dict), the result has the single key
    [conversationMessage]; its value is the stripped raw text, or the
    fixed error sentence when the stripped text is empty. *)
Theorem fallback_when_no_object {lim : limits} (response_text : str)
    (context : gmap str pyval) (json_response : pyval) :
  extract_json lim response_text = inr json_response ->
  truthy json_response && is_dict json_response = false ->
  _parse_response lim response_text context
  = inr {[ k_conversationMessage :=
             VStr (if bool_decide (strip response_text = [])
                   then error_sentence else strip response_text) ]}.
Proof.
  intros Hj Hu. rewrite (parse_response_no_object _ _ _ Hj Hu).
  unfold fallback, str_or. by destruct (strip response_text).
Qed.

Lemma fallback_when_no_object_witness :
  _parse_response default_limits (py "not json at all") ∅
  = inr {[ k_conversationMessage := VStr (py "not json at all") ]}.
Proof.
  apply (fallback_when_no_object (py "not json at all") ∅ VNone);
    vm_compute; reflexivity.
Defined.

Example fallback_on_blank_text :
  _parse_response default_limits (py "  ") ∅
  = inr {[ k_conversationMessage := VStr error_sentence ]}.
Proof.
  by rewrite (parse_response_no_object _ _ VNone) by (vm_compute; reflexivity).
Qed.

(** The fenced-block example of the specification (strategy 2). *)
Example fenced_block_example :
  exists result,
    _parse_response default_limits (pyq "Sure! ```json
{'conversationMessage':'done'}
```") ∅ = inr result
    /\ result !! k_conversationMessage = Some (VStr (py "done"))
    /\ result !! k_documentUpdate = None
    /\ result !! k_updateRange = None.
Proof.
  eexists. split.
  - apply parse_response_object. vm_compute. reflexivity.
  - by rewrite project_conversationMessage, project_documentUpdate,
      project_updateRange.
Qed.

(** Strategy 3: an object inside prose. *)
Example inline_object_example :
  exists result,
    _parse_response default_limits
      (pyq "Here you go: {'conversationMessage': 'a', 'documentUpdate': 'b'} ok") ∅
      = inr result
    /\ result !! k_conversationMessage = Some (VStr (py "a"))
    /\ result !! k_documentUpdate = Some (VStr (py "b"))
    /\ result !! k_updateRange = None.
Proof.
  eexists. split.
  - apply parse_response_object. vm_compute. reflexivity.
  - by rewrite project_conversationMessage, project_documentUpdate,
      project_updateRange.
Qed.

(** ** Texts without an opening brace *)

Lemma match_number_not_dict (lim : limits) (s rest : str) (v : pyval) :
  match_number lim s = Some (inr v, rest) -> is_dict v = false.
Proof.
  unfold match_number.
  destruct (match s with [] => _ | _ => _ end) as [neg s1].
  destruct (match_integer s1) as [[i s2]|]; [|done].
  destruct (match match_frac s2 with Some _ => _ | None => _ end) as [frac s3].
  destruct (match match_exp s3 with Some _ => _ | None => _ end) as [ex s4].
  destruct frac, ex; try (by intros [= <- <-]).
  destruct (too_many_digits lim (length i)); [done|]. by intros [= <- <-].
Qed.

Lemma scan_once_dict (lim : limits) (fuel room : nat) (s rest : str)
    (d : list (str * pyval)) :
  scan_once lim fuel room s = Scanned (VDict d) rest ->
  exists s', s = Ch.lbrace :: s'.
Proof.
  destruct fuel as [|f]; [done|]. cbn [scan_once]. destruct s as [|c s']; [done|].
  destruct (c =? Ch.quote); [by destruct (scanstring s') as [[? ?]|]|].
  destruct (N.eqb_spec c Ch.lbrace) as [->|_]; [by eexists|].
  intros H. scan_cases H; simplify_eq.
  match goal with E : match_number _ _ = Some _ |- _ =>
    by apply match_number_not_dict in E end.
Qed.

Lemma skip_ws_elem (c : char) (s : str) : c ∈ skip_ws s -> c ∈ s.
Proof.
  induction s as [|a s IH]; [done|]. cbn. destruct (json_ws a); [|done].
  intros H. right. by apply IH.
Qed.

Lemma lstrip_elem (c : char) (s : str) : c ∈ lstrip s -> c ∈ s.
Proof.
  induction s as [|a s IH]; [done|]. cbn. destruct (isspace a); [|done].
  intros H. right. by apply IH.
Qed.

Lemma strip_elem (c : char) (s : str) : c ∈ strip s -> c ∈ s.
Proof.
  unfold strip, rstrip. rewrite list_elem_of_In, <- in_rev, <- list_elem_of_In.
  intros H%lstrip_elem. apply lstrip_elem.
  by rewrite list_elem_of_In, in_rev, <- list_elem_of_In.
Qed.

Lemma json_loads_dict {lim : limits} (s : str) (d : list (str * pyval)) :
  json_loads lim s = inr (VDict d) -> Ch.lbrace ∈ s.
Proof.
  unfold json_loads.
  destruct (scan_once _ _ _ _) as [v rest| | |] eqn:E; [|done..].
  destruct (skip_ws rest); [|done]. intros [= ->].
  apply scan_once_dict in E as [s' E]. apply skip_ws_elem. rewrite E. by left.
Qed.

Lemma strip_prefix_elem (c : char) (p s s' : str) :
  strip_prefix p s = Some s' -> c ∈ s' -> c ∈ s.
Proof.
  revert s. induction p as [|a p IH]; intros s; cbn; [by intros [= ->]|].
  destruct s as [|b s]; [done|]. destruct (a =? b); [|done].
  intros H Hc. right. by eapply IH.
Qed.

(** A pattern with a mandatory character class that no character of the
    text belongs to does not match. *)
Lemma rmatch_needs (p : char -> bool) (re : list item) (s : str) (n : nat)
    (recording : bool) (g : str) :
  In (One p) re -> (forall c, c ∈ s -> p c = false) ->
  rmatch re s n recording g = None.
Proof.
  revert s n recording g.
  induction re as [|it re IH]; intros s n recording g Hin Hs; [done|].
  destruct Hin as [->|Hin].
  { cbn. destruct s as [|c s]; [done|]. rewrite Hs; [done|by left]. }
  destruct it as [q|greedy q|l| |]; cbn [rmatch].
  - destruct s as [|c s]; [done|]. destruct (q c); [|done].
    apply IH; [done|]. intros c' Hc'. apply Hs. by right.
  - revert n g. induction s as [|c s IHs]; intros n g.
    + destruct greedy; by rewrite IH.
    + assert (forall c', c' ∈ s -> p c' = false) as Hs'
        by (intros c' Hc'; apply Hs; by right).
      destruct greedy.
      * destruct (q c); [rewrite (IHs Hs')|]; by rewrite IH.
      * rewrite IH by done. destruct (q c); [by rewrite (IHs Hs')|done].
  - destruct (strip_prefix l s) as [s'|] eqn:E; [|by apply IH].
    rewrite (IH s') by (done || intros c Hc; apply Hs; by eapply strip_prefix_elem).
    by apply IH.
  - by apply IH.
  - by apply IH.
Qed.

Lemma re_search_needs (p : char -> bool) (re : list item) (s : str) :
  In (One p) re -> (forall c, c ∈ s -> p c = false) -> re_search re s = None.
Proof.
  intros Hin. induction s as [|c s IH]; intros Hs; cbn [re_search]; unfold match_at;
    rewrite (rmatch_needs p) by done; [done|].
  apply IH. intros c' Hc'. apply Hs. by right.
Qed.

Lemma re_findall_needs (p : char -> bool) (re : list item) (s : str) (skip : nat) :
  In (One p) re -> (forall c, c ∈ s -> p c = false) -> re_findall re s skip = [].
Proof.
  intros Hin. revert skip. induction s as [|c s IH]; intros skip Hs; [done|].
  assert (forall c', c' ∈ s -> p c' = false) as Hs'
    by (intros c' Hc'; apply Hs; by right).
  cbn [re_findall]. destruct skip; [|by apply IH].
  unfold match_at. rewrite (rmatch_needs p) by done. by apply IH.
Qed.

(** A response without an opening brace is passed through, unless
    [json.loads] raises on it: no strategy can find an object in it. *)
Lemma no_brace_fallback {lim : limits} (response_text : str) (context : gmap str pyval) :
  Ch.lbrace ∉ response_text ->
  _parse_response lim response_text context = inr (fallback response_text)
  \/ exists e, _parse_response lim response_text context = inl e
               /\ (e = RecursionError \/ e = ValueError).
Proof.
  intros Hn.
  assert (forall c, c ∈ response_text -> (Ch.lbrace =? c) = false) as Hs.
  { intros c Hc. apply N.eqb_neq. by intros <-. }
  destruct (parse_response_cases (lim:=lim) response_text context)
    as [(j & Hj & [(p & d & -> & _)|(_ & Hr)])|(e & _ & He & Hr)];
    [exfalso|by left|right; by exists e].
  unfold extract_json in Hj.
  destruct (try_loads lim (strip response_text)) as [e|r] eqn:Hr; [done|].
  cbn [bind] in Hj.
  rewrite (re_findall_needs (N.eqb Ch.lbrace)), (re_search_needs (N.eqb Ch.lbrace))
    in Hj; [|by left|done|cbn; tauto|done].
  assert (default VNone r = VDict (p :: d)) as Hd.
  { destruct (negb (truthy (default VNone r))) eqn:E; cbn in Hj;
      rewrite ?E in Hj; by injection Hj. }
  destruct r as [v|]; [|done]. cbn in Hd. subst v.
  unfold try_loads in Hr.
  destruct (json_loads lim (strip response_text)) as [[]|v] eqn:E; try done.
  injection Hr as ->. apply json_loads_dict, strip_elem in E. done.
Qed.

(** In particular, what is returned for such a response is the text. *)
Lemma no_brace_returned {lim : limits} (response_text : str)
    (context result : gmap str pyval) :
  Ch.lbrace ∉ response_text ->
  _parse_response lim response_text context = inr result ->
  result = fallback response_text.
Proof.
  intros Hn Hr.
  destruct (no_brace_fallback (lim:=lim) response_text context Hn)
    as [H|(e & H & _)]; congruence.
Qed.

Example plain_prose_fallback :
  _parse_response default_limits (py "  Sure, I can help with that.  ") ∅
  = inr {[ k_conversationMessage := VStr (py "Sure, I can help with that.") ]}.
Proof.
  by rewrite (parse_response_no_object _ _ VNone) by (vm_compute; reflexivity).
Qed.

(** ** Round trip through [json.dumps] *)

Lemma hexval_hexdigit (d : N) : d < 16 -> hexval (hexdigit d) = Some d.
Proof.
  intros H.
  assert (d = 0 \/ d = 1 \/ d = 2 \/ d = 3 \/ d = 4 \/ d = 5 \/ d = 6 \/ d = 7
          \/ d = 8 \/ d = 9 \/ d = 10 \/ d = 11 \/ d = 12 \/ d = 13 \/ d = 14
          \/ d = 15) as D by lia.
  repeat (destruct D as [->|D]; [reflexivity|]). by subst.
Qed.

Lemma hex4_digits (n : N) :
  n < 65536 ->
  hex4 (hexdigit (n / 4096 mod 16)) (hexdigit (n / 256 mod 16))
       (hexdigit (n / 16 mod 16)) (hexdigit (n mod 16)) = Some n.
Proof.
  intros H. unfold hex4.
  rewrite !hexval_hexdigit by (apply N.mod_lt; lia).
  f_equal.
  pose proof (N.div_mod n 16 ltac:(lia)) as D0.
  pose proof (N.div_mod (n / 16) 16 ltac:(lia)) as D1.
  pose proof (N.div_mod (n / 16 / 16) 16 ltac:(lia)) as D2.
  assert (n / 16 / 16 = n / 256) as E2 by (by rewrite N.Div0.div_div).
  assert (n / 256 / 16 = n / 4096) as E3 by (by rewrite N.Div0.div_div).
  rewrite E2 in *. rewrite E3 in *.
  assert (n / 4096 < 16) as L by (apply N.Div0.div_lt_upper_bound; lia).
  rewrite (N.mod_small _ _ L). lia.
Qed.

Lemma scanstring_u_escape (n : N) (tail : str) :
  n < 65536 -> is_high_surrogate n = false ->
  scanstring (u_escape n ++ tail) = push_char n (scanstring tail).
Proof.
  intros H1 H2. unfold u_escape.
  cbn -[hex4 is_high_surrogate N.div N.modulo hexdigit].
  by rewrite hex4_digits, H2.
Qed.

Lemma scanstring_surrogate_pair (hi lo : N) (tail : str) :
  hi < 65536 -> lo < 65536 ->
  is_high_surrogate hi = true -> is_low_surrogate lo = true ->
  scanstring (u_escape hi ++ u_escape lo ++ tail)
  = push_char (join_surrogates hi lo) (scanstring tail).
Proof.
  intros H1 H2 H3 H4. unfold u_escape.
  cbn -[hex4 is_high_surrogate is_low_surrogate N.div N.modulo hexdigit join_surrogates].
  by rewrite !hex4_digits, H3, H4.
Qed.

Lemma lor_disjoint (a b k : N) : b < 2 ^ k -> N.lor (a * 2 ^ k) b = a * 2 ^ k + b.
Proof.
  intros Hb.
  assert (N.land (a * 2 ^ k) b = 0) as Hd.
  { apply N.bits_inj_0. intros i. rewrite N.land_spec.
    destruct (N.lt_ge_cases i k) as [Hi|Hi].
    - by rewrite N.mul_pow2_bits_low.
    - rewrite andb_comm. destruct (N.eq_dec b 0) as [->|Hnz]; [by rewrite N.bits_0|].
      rewrite N.bits_above_log2; [done|].
      apply N.log2_lt_pow2; [lia|].
      eapply N.lt_le_trans; [exact Hb|]. apply N.pow_le_mono_r; lia. }
  by rewrite <- N.lxor_lor, <- N.add_nocarry_lxor.
Qed.

Section Surrogates.
Variable c : char.
Hypothesis c_astral : 65536 <= c <= 1114111.

Let n := c - 65536.
Let hi := N.lor 55296 (N.land (N.shiftr n 10) 1023).
Let lo := N.lor 56320 (N.land n 1023).

Lemma surrogate_hi : hi = 55296 + n / 1024.
Proof.
  unfold hi. change 1023 with (N.ones 10). rewrite N.land_ones, N.shiftr_div_pow2.
  change (2 ^ 10) with 1024.
  assert (n / 1024 < 1024) by (apply N.Div0.div_lt_upper_bound; unfold n; lia).
  rewrite N.mod_small by done.
  change 55296 with (54 * 2 ^ 10). by apply lor_disjoint.
Qed.

Lemma surrogate_lo : lo = 56320 + n mod 1024.
Proof.
  unfold lo. change 1023 with (N.ones 10). rewrite N.land_ones.
  change (2 ^ 10) with 1024.
  change 56320 with (55 * 2 ^ 10). apply lor_disjoint. by apply N.mod_lt.
Qed.

Lemma surrogates_join : join_surrogates hi lo = c.
Proof.
  unfold join_surrogates. rewrite surrogate_hi, surrogate_lo.
  rewrite !(N.add_comm _ (_ `div` _)), !(N.add_comm _ (_ `mod` _)), !N.add_sub.
  rewrite N.shiftl_mul_pow2, lor_disjoint by (by apply N.mod_lt).
  change (2 ^ 10) with 1024.
  pose proof (N.div_mod n 1024 ltac:(lia)) as D. revert D.
  generalize (n / 1024) (n mod 1024). subst n. lia.
Qed.

Lemma surrogates_range :
  hi < 65536 /\ lo < 65536
  /\ is_high_surrogate hi = true /\ is_low_surrogate lo = true.
Proof.
  rewrite surrogate_hi, surrogate_lo.
  assert (n / 1024 < 1024) as Ha
    by (apply N.Div0.div_lt_upper_bound; unfold n; lia).
  assert (n mod 1024 < 1024) as Hb by (by apply N.mod_lt).
  revert Ha Hb. generalize (n / 1024) (n mod 1024). intros a b Ha Hb.
  unfold is_high_surrogate, is_low_surrogate.
  repeat split; try lia; apply andb_true_intro; split; apply N.leb_le; lia.
Qed.
End Surrogates.

Lemma scanstring_raw (c : char) (tail : str) :
  c <> Ch.quote -> c <> Ch.backslash -> 32 <= c ->
  scanstring (c :: tail) = push_char c (scanstring tail).
Proof.
  intros H1 H2 H3. cbn [scanstring].
  apply N.eqb_neq in H1, H2. apply N.ltb_ge in H3. by rewrite H1, H2, H3.
Qed.

Lemma scanstring_escape (ensure_ascii : bool) (s tail : str) :
  (ensure_ascii = true -> unicode_text s) ->
  scanstring (escape ensure_ascii s ++ Ch.quote :: tail) = Some (s, tail).
Proof.
  induction s as [|c s IH]; intros Ht; [done|].
  assert (scanstring (escape ensure_ascii s ++ Ch.quote :: tail) = Some (s, tail)) as IH'.
  { apply IH. intros E. specialize (Ht E). by inversion Ht. }
  assert (ensure_ascii = true -> scalar_value c = true) as Hc.
  { intros E. specialize (Ht E). by inversion Ht. }
  clear IH Ht. cbn [escape]. rewrite <- app_assoc. unfold escape_char.
  repeat match goal with
  | |- context [?a =? ?b] => destruct (N.eqb_spec a b) as [->|?]; [cbn; by rewrite IH'|]
  end.
  destruct (N.ltb_spec c 32).
  { rewrite scanstring_u_escape, IH'; [done|lia|].
    unfold is_high_surrogate. apply andb_false_intro1, N.leb_gt. lia. }
  destruct ensure_ascii; cbn [andb]; [destruct (N.ltb_spec 126 c)|].
  - specialize (Hc eq_refl). unfold scalar_value in Hc.
    apply orb_true_iff in Hc as [Hc%N.ltb_lt|[Hc1%N.ltb_lt Hc2%N.leb_le]%andb_true_iff].
    + rewrite (proj2 (N.ltb_lt c 65536)) by lia.
      rewrite scanstring_u_escape, IH'; [done|lia|].
      unfold is_high_surrogate. apply andb_false_intro1, N.leb_gt. lia.
    + destruct (N.ltb_spec c 65536).
      * rewrite scanstring_u_escape, IH'; [done|lia|].
        unfold is_high_surrogate. apply andb_false_intro2, N.leb_gt. lia.
      * assert (65536 <= c <= 1114111) as Hr by lia.
        destruct (surrogates_range c Hr) as (? & ? & ? & ?).
        rewrite <- app_assoc, scanstring_surrogate_pair, IH' by done.
        cbn [push_char]. by rewrite surrogates_join.
  - cbn [app]. by rewrite scanstring_raw, IH' by (done || lia).
  - cbn [app]. by rewrite scanstring_raw, IH' by (done || lia).
Qed.

Lemma py_colon_space : py ": " = [Ch.colon; Ch.space].
Proof. reflexivity. Qed.

Lemma py_comma_space : py ", " = [Ch.comma; Ch.space].
Proof. reflexivity. Qed.

Lemma join_cons_cons (sep a b : str) (l : list str) :
  join sep (a :: b :: l) = a ++ sep ++ join sep (b :: l).
Proof. reflexivity. Qed.

Lemma members_join (ensure_ascii : bool) (k v : str) (rest : list (str * str)) :
  join (py ", ")
    (map (fun kv => encode_basestring ensure_ascii kv.1 ++ py ": "
                    ++ encode_basestring ensure_ascii kv.2) ((k, v) :: rest))
  = Ch.quote :: members_text ensure_ascii k v rest.
Proof.
  revert k v. induction rest as [|[k' v'] rest IH]; intros k v.
  - cbn [map join members_text fst snd]. unfold encode_basestring.
    by repeat first [rewrite <- app_assoc | progress cbn [app]].
  - cbn [map members_text fst snd]. cbn [map fst snd] in IH.
    rewrite join_cons_cons, IH.
    unfold encode_basestring.
    by repeat first [rewrite <- app_assoc | progress cbn [app]].
Qed.

Lemma dumps_object_members (ensure_ascii : bool) (k v : str)
    (rest : list (str * str)) :
  dumps_object ensure_ascii ((k, v) :: rest)
  = Ch.lbrace :: Ch.quote :: members_text ensure_ascii k v rest ++ [Ch.rbrace].
Proof. unfold dumps_object. by rewrite members_join. Qed.


Ltac norm_app := repeat first [rewrite <- app_assoc | progress cbn [app]].

Lemma scan_once_string (lim : limits) (f room : nat) (s : str) :
  scan_once lim (S f) room (Ch.quote :: s)
  = match scanstring s with
    | Some (t, rest) => Scanned (VStr t) rest
    | None => Malformed
    end.
Proof. reflexivity. Qed.

Lemma scan_once_object (lim : limits) (f room : nat) (s : str) :
  scan_once lim (S f) (S room) (Ch.lbrace :: Ch.quote :: s)
  = match scan_pairs lim f room s with
    | Scanned d rest => Scanned (VDict d) rest
    | Malformed => Malformed
    | Raised e => Raised e
    | OutOfFuel => OutOfFuel
    end.
Proof. reflexivity. Qed.

(** One member, written as [json.dumps] writes it: the key, a colon and a
    space, then a string value. *)
Lemma scan_pairs_member (lim : limits) (f room : nat) (ensure_ascii : bool)
    (k v tail : str) :
  (ensure_ascii = true -> unicode_text k) ->
  (ensure_ascii = true -> unicode_text v) ->
  scan_pairs lim (S (S f)) room
    (escape ensure_ascii k ++ Ch.quote :: Ch.colon :: Ch.space :: Ch.quote
       :: escape ensure_ascii v ++ Ch.quote :: tail)
  = match skip_ws tail with
    | c' :: s4 =>
        if c' =? Ch.rbrace then Scanned [(k, VStr v)] s4
        else if c' =? Ch.comma then
          match skip_ws s4 with
          | q :: s5 =>
              if q =? Ch.quote then
                match scan_pairs lim (S f) room s5 with
                | Scanned d rest => Scanned ((k, VStr v) :: d) rest
                | Malformed => Malformed
                | Raised e => Raised e
                | OutOfFuel => OutOfFuel
                end
              else Malformed
          | [] => Malformed
          end
        else Malformed
    | [] => Malformed
    end.
Proof.
  intros Hk Hv.
  cbn [scan_pairs].
  rewrite scanstring_escape by done.
  change (skip_ws (Ch.colon :: ?s)) with (Ch.colon :: s).
  change (Ch.colon =? Ch.colon) with true. cbv iota.
  change (skip_ws (Ch.space :: Ch.quote :: ?s)) with (Ch.quote :: s).
  rewrite scan_once_string, scanstring_escape by done.
  done.
Qed.

Lemma scan_pairs_members (lim : limits) (room : nat) (ensure_ascii : bool)
    (rest : list (str * str)) (k v tail : str) :
  (ensure_ascii = true -> texts ((k, v) :: rest)) ->
  scan_pairs lim (S (S (length rest))) room
    (members_text ensure_ascii k v rest ++ Ch.rbrace :: tail)
  = Scanned (as_dict ((k, v) :: rest)) tail.
Proof.
  revert k v. induction rest as [|[k' v'] rest IH]; intros k v Ht;
    assert (ensure_ascii = true -> unicode_text k) as Hk
      by (intros E; by destruct (Forall_cons_1 _ _ _ (Ht E)) as [[? ?] _]);
    assert (ensure_ascii = true -> unicode_text v) as Hv
      by (intros E; by destruct (Forall_cons_1 _ _ _ (Ht E)) as [[? ?] _]);
    cbn [members_text length]; rewrite py_colon_space, ?py_comma_space;
    norm_app; rewrite scan_pairs_member by done.
  - done.
  - change (skip_ws (Ch.comma :: ?s)) with (Ch.comma :: s). cbv iota.
    change (Ch.comma =? Ch.rbrace) with false.
    change (Ch.comma =? Ch.comma) with true. cbv iota.
    change (skip_ws (Ch.space :: Ch.quote :: ?s)) with (Ch.quote :: s). cbv iota.
    change (Ch.quote =? Ch.quote) with true. cbv iota.
    rewrite IH; [done|].
    intros E. by destruct (Forall_cons_1 _ _ _ (Ht E)).
Qed.

Lemma members_text_length (ensure_ascii : bool) (k v : str)
    (rest : list (str * str)) :
  (length rest < length (members_text ensure_ascii k v rest))%nat.
Proof.
  revert k v. induction rest as [|[k' v'] rest IH]; intros k v;
    cbn [members_text]; rewrite py_colon_space, ?py_comma_space;
    repeat first [rewrite length_app | progress cbn [length]]; [lia|].
  specialize (IH k' v'). lia.
Qed.

(** [json.loads] reads back what [json.dumps] wrote. *)
Lemma json_loads_dumps_object {lim : limits} (ensure_ascii : bool) (pairs : list (str * str)) :
  pairs <> [] ->
  (ensure_ascii = true -> texts pairs) ->
  json_loads lim (dumps_object ensure_ascii pairs) = inr (VDict (as_dict pairs)).
Proof.
  intros Hne Ht. destruct pairs as [|[k v] rest]; [done|].
  rewrite dumps_object_members. unfold json_loads.
  set (text := Ch.lbrace :: Ch.quote :: members_text ensure_ascii k v rest ++ [Ch.rbrace]).
  assert (skip_ws text = text) as -> by done.
  assert (scan_once lim (S (S (S (length rest)))) (S (nesting_room lim)) text
          = Scanned (VDict (as_dict ((k, v) :: rest))) []) as Hs.
  { unfold text. by rewrite scan_once_object, scan_pairs_members. }
  pose proof (scan_mono lim (S (S (S (length rest))))) as (Hm & _ & _).
  rewrite (Hm _ text (S (2 * length text))), Hs; [done| |by rewrite Hs].
  unfold text. cbn [length]. rewrite length_app.
  pose proof (members_text_length ensure_ascii k v rest). lia.
Qed.

Lemma strip_bracketed (a b : char) (s : str) :
  isspace a = false -> isspace b = false ->
  strip (a :: s ++ [b]) = a :: s ++ [b].
Proof.
  intros Ha Hb. unfold strip, rstrip. cbn [lstrip]. rewrite Ha.
  change (a :: s ++ [b]) with ((a :: s) ++ [b]).
  rewrite rev_app_distr. cbn [rev app lstrip]. rewrite Hb.
  change (b :: rev s ++ [a]) with ([b] ++ rev (a :: s)).
  by rewrite rev_app_distr, rev_involutive.
Qed.

Lemma strip_dumps_object (ensure_ascii : bool) (pairs : list (str * str)) :
  strip (dumps_object ensure_ascii pairs) = dumps_object ensure_ascii pairs.
Proof. by apply strip_bracketed. Qed.

Lemma ascii_keys_text :
  unicode_text k_conversationMessage /\ unicode_text k_documentUpdate
  /\ unicode_text k_updateRange.
Proof. repeat split; by repeat constructor. Qed.

(** C5.  Round trip: for non-empty strings [m], [u], [r], decoding the
    [json.dumps] serialization of the object with the three keys gives a
    result whose three fields are [m], [u] and [r].  With
    [ensure_ascii=True] the strings are taken to be Unicode texts (no
    surrogate code points); with [ensure_ascii=False] they are arbitrary. *)
Theorem round_trip {lim : limits} (ensure_ascii : bool) (m u r : str)
    (context : gmap str pyval) :
  m <> [] -> u <> [] -> r <> [] ->
  (ensure_ascii = true -> unicode_text m /\ unicode_text u /\ unicode_text r) ->
  exists result,
    _parse_response lim
      (dumps_object ensure_ascii
         [(k_conversationMessage, m); (k_documentUpdate, u); (k_updateRange, r)])
      context = inr result
    /\ result !! k_conversationMessage = Some (VStr m)
    /\ result !! k_documentUpdate = Some (VStr u)
    /\ result !! k_updateRange = Some (VStr r).
Proof.
  intros Hm Hu Hr Ht.
  set (pairs := [(k_conversationMessage, m); (k_documentUpdate, u);
                 (k_updateRange, r)]).
  assert (json_loads lim (strip (dumps_object ensure_ascii pairs))
          = inr (VDict (as_dict pairs))) as Hl.
  { rewrite strip_dumps_object. apply json_loads_dumps_object; [done|].
    intros E. destruct (Ht E) as (? & ? & ?).
    destruct ascii_keys_text as (? & ? & ?).
    by repeat (apply Forall_cons; split; [done|]). }
  set (d := [(k_conversationMessage, VStr m); (k_documentUpdate, VStr u);
             (k_updateRange, VStr r)]).
  change (as_dict pairs) with d in Hl.
  apply extract_json_whole in Hl.
  exists (project d). split; [by apply parse_response_object|].
  rewrite project_conversationMessage, project_documentUpdate, project_updateRange.
  unfold truthy_item.
  assert (dict_get d k_conversationMessage = Some (VStr m)) as -> by done.
  assert (dict_get d k_documentUpdate = Some (VStr u)) as -> by done.
  assert (dict_get d k_updateRange = Some (VStr r)) as -> by done.
  cbn [truthy]. by rewrite !bool_decide_false by done.
Qed.

Lemma round_trip_witness :
  exists result,
    _parse_response default_limits
      (dumps_object true
         [(k_conversationMessage, py "hi"); (k_documentUpdate, py "new text");
          (k_updateRange, py "0:5")]) ∅ = inr result
    /\ result !! k_conversationMessage = Some (VStr (py "hi"))
    /\ result !! k_documentUpdate = Some (VStr (py "new text"))
    /\ result !! k_updateRange = Some (VStr (py "0:5")).
Proof.
  apply (round_trip true (py "hi") (py "new text") (py "0:5") ∅);
    try discriminate.
  intros _. repeat split; by repeat constructor.
Defined.

(** With [ensure_ascii=True] a string made of a high and a low surrogate
    is written like the character the pair encodes, which is why
    [round_trip] asks for Unicode texts in that mode. *)
Example dumps_surrogate_pair :
  dumps_object true [(k_conversationMessage, [55357; 56832])]
  = dumps_object true [(k_conversationMessage, [128512])].
Proof. reflexivity. Qed.

(** The text that is decoded in the witness above. *)
Example dumps_example :
  dumps_object true
    [(k_conversationMessage, py "hi"); (k_documentUpdate, py "new text");
     (k_updateRange, py "0:5")]
  = pyq "{'conversationMessage': 'hi', 'documentUpdate': 'new text', 'updateRange': '0:5'}".
Proof. reflexivity. Qed.

(** ** The formatter and [process] *)

Lemma lookup_setdefault (k k' : str) (v : pyval) (d : gmap str pyval) :
  setdefault k v d !! k'
  = match d !! k' with
    | Some w => Some w
    | None => if decide (k' = k) then Some v else None
    end.
Proof.
  unfold setdefault. destruct (d !! k) as [w|] eqn:E.
  - destruct (d !! k') eqn:E'; [done|]. case_decide; [congruence|done].
  - rewrite lookup_insert. case_decide as H; [subst; by rewrite E, decide_True|].
    destruct (d !! k'); [done|]. by rewrite decide_False.
Qed.

Lemma lookup_ensure_defaults (self : agent) (context : gmap str pyval) (k : str) :
  ensure_defaults self context !! k
  = match context !! k with
    | Some v => Some v
    | None => default_value self k
    end.
Proof.
  unfold ensure_defaults, default_value. rewrite !lookup_setdefault.
  destruct (context !! k); [done|]. by repeat case_decide.
Qed.

Section FormattingProperties.
Context {lim : limits}.
Variable py_repr : pyval -> str.

Lemma history_lines_ok (i : nat) (msgs : list pyval) :
  forallb message_ok msgs = true ->
  history_lines py_repr i msgs = inr (VStr <$> history_entries i msgs).
Proof.
  revert i. induction msgs as [|msg msgs IH]; intros i H; [done|].
  cbn [forallb] in H. apply andb_true_iff in H as [Hm H].
  cbn [history_lines history_entries fmap list_fmap]. rewrite (IH _ H).
  destruct msg as [| | | | | |d]; try done.
  cbn [message_ok] in Hm. apply andb_true_iff in Hm as [Hr Hc].
  destruct (dict_get d k_role) as [[]|] eqn:Er; try done;
    destruct (dict_get d k_content) as [[| | | |content| |]|] eqn:Ec; try done;
    unfold history_entry, shown_content;
    cbn -[py decimal take Nat.ltb]; rewrite Er, Ec;
    cbn -[py decimal take Nat.ltb];
    try (destruct (100 <? length content)%nat eqn:E;
         [|rewrite take_ge by (apply Nat.ltb_ge in E; lia)]);
    by rewrite ?app_nil_r.
Qed.

Lemma text_section_ok (label placeholder s : str) :
  text_section label placeholder (VStr s)
  = inr (VStr <$> text_lines label placeholder s).
Proof. by destruct s. Qed.

Lemma history_section_ok (msgs : list pyval) :
  forallb message_ok msgs = true ->
  history_section py_repr (VList msgs) = inr (VStr <$> history_block msgs).
Proof.
  intros H. destruct msgs as [|msg msgs]; [done|].
  unfold history_section, history_block. cbn [truthy].
  by apply history_lines_ok.
Qed.

Lemma py_join_parts_strs (l : list str) : py_join_parts (VStr <$> l) = inr l.
Proof. induction l as [|s l IH]; [done|]. cbn. by rewrite IH. Qed.

Lemma getitem_str (self : agent) (context : gmap str pyval) (k : str) :
  absent_or is_str (context !! k) = true ->
  is_Some (default_value self k) ->
  absent_or is_str (default_value self k) = true ->
  getitem (ensure_defaults self context) k = inr (VStr (field_str self context k)).
Proof.
  intros H [w Hw] Hd. unfold getitem, field_str.
  rewrite lookup_ensure_defaults, Hw in *.
  destruct (context !! k) as [[]|]; try done.
  by destruct w.
Qed.

Lemma getitem_history (self : agent) (context : gmap str pyval) :
  absent_or history_ok (context !! k_conversationHistory) = true ->
  getitem (ensure_defaults self context) k_conversationHistory
    = inr (VList (field_history context))
  /\ forallb message_ok (field_history context) = true.
Proof.
  intros H. unfold getitem, field_history. rewrite lookup_ensure_defaults.
  destruct (context !! k_conversationHistory) as [[]|]; try done.
Qed.

(** On a well-typed context [process] formats exactly [prompt_lines]. *)
Lemma format_prompt_lines (self : agent) (prompt : str)
    (context : gmap str pyval) :
  well_typed context = true ->
  _format_prompt_with_context py_repr prompt (ensure_defaults self context)
  = inr (join newline
           (prompt_lines (field_str self context k_systemInstructions)
              (field_str self context k_documentContent)
              (field_str self context k_referredAddress)
              (field_str self context k_referredText)
              (field_history context) prompt)).
Proof.
  intros H. unfold well_typed in H.
  repeat (apply andb_true_iff in H as [H ?]).
  destruct (getitem_history self context) as [Hh Hok]; [done|].
  unfold _format_prompt_with_context.
  rewrite !getitem_str, Hh by (done || by eexists).
  cbn [bind]. rewrite !text_section_ok. cbn [bind].
  rewrite history_section_ok by done. cbn [bind py_str].
  unfold py_join.
  match goal with |- bind (py_join_parts ?parts) _ = inr (join _ ?lines) =>
    replace parts with (VStr <$> lines)
  end.
  - by rewrite py_join_parts_strs.
  - unfold prompt_lines. by rewrite !fmap_app, <- !app_assoc.
Qed.
End FormattingProperties.

Lemma occur_in_order_prefix (ms : list str) (pre s : str) :
  occur_in_order ms s -> occur_in_order ms (pre ++ s).
Proof.
  destruct ms as [|m ms]; [done|]. intros (b & a & -> & H).
  exists (pre ++ b), a. by rewrite <- app_assoc.
Qed.

Lemma occur_in_order_join (sep : str) (ms : list str) (lines : list str) :
  sublist ms lines -> occur_in_order ms (join sep lines).
Proof.
  induction 1 as [|x ms lines Hs IH|x ms lines Hs IH]; [done| |].
  - exists [], (match lines with [] => [] | _ => sep ++ join sep lines end).
    split; [by destruct lines; rewrite ?app_nil_r|].
    destruct lines; [by apply sublist_nil_r in Hs as ->|].
    by apply occur_in_order_prefix.
  - destruct lines as [|y lines]; [by apply sublist_nil_r in Hs as ->|].
    change (join sep (x :: y :: lines)) with (x ++ sep ++ join sep (y :: lines)).
    by do 2 apply occur_in_order_prefix.
Qed.

Lemma markers_in_prompt_lines (instructions document address referred : str)
    (msgs : list pyval) (prompt : str) :
  sublist Marker.all
    (prompt_lines instructions document address referred msgs prompt).
Proof.
  unfold Marker.all, prompt_lines. cbn [app].
  apply sublist_skip. do 2 apply sublist_cons.
  apply sublist_skip. apply sublist_inserts_l. cbn [app]. apply sublist_cons.
  apply sublist_skip. apply sublist_cons. apply sublist_inserts_l. cbn [app].
  apply sublist_cons. apply sublist_skip. apply sublist_inserts_l. cbn [app].
  apply sublist_cons. apply sublist_skip. do 2 apply sublist_cons.
  apply sublist_skip. apply sublist_nil_l.
Qed.

(** The formatter after the defaults.  For every context with any subset
    of the five optional fields omitted (the fields that are present
    having the types of the docstring), [_format_prompt_with_context] on
    the context with the defaults filled in does not raise, and the six
    section markers occur in the prompt in their fixed order. *)
Lemma format_emits_markers (py_repr : pyval -> str) (self : agent)
    (prompt : str) (context : gmap str pyval) :
  well_typed context = true ->
  exists full_prompt,
    _format_prompt_with_context py_repr prompt (ensure_defaults self context)
      = inr full_prompt
    /\ occur_in_order
         [Marker.system_instructions; Marker.document_content;
          Marker.referred_text; Marker.conversation_history;
          Marker.user_request; Marker.your_response] full_prompt.
Proof.
  intros H. eexists. split; [by apply format_prompt_lines|].
  apply occur_in_order_join, markers_in_prompt_lines.
Qed.

Lemma format_emits_markers_witness :
  exists full_prompt,
    _format_prompt_with_context (fun _ => []) (py "Fix the typo")
      (ensure_defaults (Agent (py "s1") (py "Be brief.") false)
         {[ k_documentContent := VStr (py "Helo world") ]})
      = inr full_prompt
    /\ occur_in_order
         [Marker.system_instructions; Marker.document_content;
          Marker.referred_text; Marker.conversation_history;
          Marker.user_request; Marker.your_response] full_prompt.
Proof.
  apply (format_emits_markers (fun _ => []) (Agent (py "s1") (py "Be brief.") false)
           (py "Fix the typo") {[ k_documentContent := VStr (py "Helo world") ]}).
  vm_compute. reflexivity.
Defined.

Example format_example :
  _format_prompt_with_context (fun _ => []) (py "Fix the typo")
    (ensure_defaults (Agent (py "s1") (py "Be brief.") false)
       {[ k_documentContent := VStr (py "Helo world") ]})
  = inr (pyq "=== SYSTEM INSTRUCTIONS ===
Be brief.

=== DOCUMENT CONTENT ===
Full Document (10 chars):
Helo world

=== REFERRED TEXT ===
Referred Address: 0:0
(No referred text)

=== CONVERSATION HISTORY ===
(No previous conversation)

=== USER REQUEST ===
Fix the typo

=== YOUR RESPONSE ===
Respond with valid JSON only (no markdown, no code blocks):
{'conversationMessage': '...', 'documentUpdate': '...', 'updateRange': '...'}").
Proof. vm_compute. reflexivity. Qed.

Lemma join_app (sep : str) (l1 l2 : list str) :
  l1 <> [] -> l2 <> [] ->
  join sep (l1 ++ l2) = join sep l1 ++ sep ++ join sep l2.
Proof.
  intros H1 H2. induction l1 as [|a l1 IH]; [done|].
  destruct l1 as [|b l1].
  - destruct l2; [done|]. reflexivity.
  - change (join sep ((a :: b :: l1) ++ l2))
      with (a ++ sep ++ join sep ((b :: l1) ++ l2)).
    rewrite IH by done. rewrite join_cons_cons. by rewrite <- !app_assoc.
Qed.

Lemma join_cons (sep a : str) (l : list str) :
  l <> [] -> join sep (a :: l) = a ++ sep ++ join sep l.
Proof. by destruct l. Qed.

Lemma history_entries_lookup (j i : nat) (msgs : list pyval) (msg : pyval) :
  msgs !! i = Some msg ->
  history_entries j msgs !! i
  = Some (history_entry (j + i) (message_role msg) (message_content msg)).
Proof.
  revert j i. induction msgs as [|m msgs IH]; intros j [|i] H; try done.
  - injection H as ->. cbn [history_entries]. by rewrite Nat.add_0_r.
  - cbn [history_entries]. change ((?x :: ?l) !! S i) with (l !! i).
    rewrite (IH (S j) i H). do 2 f_equal. lia.
Qed.

(** C8.  In the prompt formatted for a well-typed context, the history
    entry number [i] (counting from 0) occupies a line of its own,
    "[i+1] role: " followed by the content: the first 100 characters and
    "..." when the content is longer than 100 characters, the content
    itself, with nothing added, when it has at most 100 characters. *)
Theorem history_entry_truncated (py_repr : pyval -> str) (self : agent)
    (prompt : str) (context : gmap str pyval) (msgs : list pyval) (i : nat)
    (msg : pyval) :
  well_typed context = true ->
  context !! k_conversationHistory = Some (VList msgs) ->
  msgs !! i = Some msg ->
  let role := message_role msg in
  let content := message_content msg in
  let shown :=
    if decide (100 < length content)%nat
    then take 100 content ++ py "..." else content in
  exists before after,
    _format_prompt_with_context py_repr prompt (ensure_defaults self context)
    = inr (before ++ newline
           ++ (py "[" ++ decimal (i + 1) ++ py "] " ++ role ++ py ": " ++ shown)
           ++ newline ++ after).
Proof.
  intros Hw Hh Hi role content shown.
  rewrite format_prompt_lines by done.
  assert (field_history context = msgs) as -> by (unfold field_history; by rewrite Hh).
  assert (history_block msgs !! i = Some (history_entry i role content)) as He.
  { unfold history_block. destruct msgs; [done|].
    by rewrite (history_entries_lookup 0 i _ msg). }
  apply take_drop_middle in He. unfold prompt_lines. rewrite <- He.
  assert (history_entry i role content
          = py "[" ++ decimal (i + 1) ++ py "] " ++ role ++ py ": " ++ shown) as <-.
  { unfold history_entry, shown_content, shown. repeat f_equal.
    destruct (100 <? length content)%nat eqn:E; case_decide as E'; try done.
    - apply Nat.ltb_lt in E. lia.
    - apply Nat.ltb_ge in E. lia. }
  set (entry := history_entry i role content).
  match goal with |- context [join newline ?l] =>
    match l with
    | ?a ++ ?b ++ ?c ++ ?d ++ ?e ++ ?f ++ ?g ++ ?h ++ (?t ++ entry :: ?r) ++ ?rest =>
        replace l with ((a ++ b ++ c ++ d ++ e ++ f ++ g ++ h ++ t)
                        ++ (entry :: r ++ rest))
          by (by rewrite <- !app_assoc)
    end
  end.
  rewrite join_app; [|by destruct (text_lines _ _ _)|done].
  rewrite join_cons by (by destruct (drop _ _)).
  by eexists _, _.
Qed.

Lemma history_entry_truncated_witness :
  exists before after,
    _format_prompt_with_context (fun _ => []) (py "next")
      (ensure_defaults (Agent (py "s1") (py "Be brief.") false)
         {[ k_conversationHistory :=
              VList [VDict [(k_role, VStr (py "user"));
                            (k_content, VStr long_text)]] ]})
    = inr (before ++ newline
           ++ (py "[" ++ decimal 1 ++ py "] " ++ py "user" ++ py ": "
               ++ take 100 long_text ++ py "...")
           ++ newline ++ after).
Proof.
  apply (history_entry_truncated (fun _ => [])
           (Agent (py "s1") (py "Be brief.") false) (py "next")
           {[ k_conversationHistory :=
                VList [VDict [(k_role, VStr (py "user"));
                              (k_content, VStr long_text)]] ]}
           [VDict [(k_role, VStr (py "user")); (k_content, VStr long_text)]]
           0%nat
           (VDict [(k_role, VStr (py "user")); (k_content, VStr long_text)]));
    vm_compute; reflexivity.
Defined.

(** A short entry is shown verbatim and a long one truncated. *)
Example history_lines_example :
  history_lines (fun _ => []) 0
    [VDict [(k_role, VStr (py "user")); (k_content, VStr (py "hello"))];
     VDict [(k_content, VStr long_text)]]
  = inr [VStr (py "[1] user: hello");
         VStr (py "[2] unknown: " ++ replicate 100 97 ++ py "...")].
Proof. vm_compute. reflexivity. Qed.

Section ProcessProperties.
Context {lim : limits}.
Variable py_repr : pyval -> str.

Lemma process_heap (self : agent) (h : heap) (prompt : str)
    (context : option loc) (on_chunk : option (str -> M unit)) (sdk : backend) :
  out_heap (process lim py_repr self h prompt context on_chunk sdk)
  = match context with
    | Some l => store h l (ensure_defaults self (h l))
    | None => h
    end.
Proof.
  unfold process.
  destruct context; (destruct (bind (_format_prompt_with_context _ _ _) _); [done|]);
    (destruct (_connected self); [done|]); by destruct (connect_result sdk).
Qed.

(** On a well-typed context, once the client is connected, the prompt
    handed to [client.query] is the formatted one. *)
Lemma process_prompt (self : agent) (h : heap) (prompt : str) (l : loc)
    (on_chunk : option (str -> M unit)) (sdk : backend) :
  well_typed (h l) = true ->
  _connected self = true \/ (exists u, connect_result sdk = inr u) ->
  out_prompt (process lim py_repr self h prompt (Some l) on_chunk sdk)
  = Some (join newline
            (prompt_lines (field_str self (h l) k_systemInstructions)
               (field_str self (h l) k_documentContent)
               (field_str self (h l) k_referredAddress)
               (field_str self (h l) k_referredText)
               (field_history (h l)) prompt)).
Proof.
  intros Hw Hc. unfold process.
  rewrite format_prompt_lines by done. cbn [bind].
  assert (absent_or is_str (h l !! k_documentContent) = true) as Hd.
  { unfold well_typed in Hw. by repeat (apply andb_true_iff in Hw as [Hw ?]). }
  rewrite getitem_str by (done || by eexists). cbn [bind py_len ret].
  destruct Hc as [-> | [u Hu]]; [done|].
  rewrite Hu. by destruct (_connected self).
Qed.

End ProcessProperties.

(** C7.  For every context with any subset of the five optional fields
    omitted (the fields that are present having the types of the
    docstring), [process] does not raise while it fills in the defaults
    and formats: either the prompt reaches the backend, and then the six
    section markers occur in it in their fixed order, or [connect] has
    raised and [process] raises that exception.  The prompt is the one
    [_format_prompt_with_context] makes of the context with the defaults. *)
Theorem process_emits_markers {lim : limits} (py_repr : pyval -> str)
    (self : agent) (h : heap) (prompt : str) (context : option loc)
    (on_chunk : option (str -> M unit)) (sdk : backend) :
  let d := match context with Some l => h l | None => ∅ end in
  well_typed d = true ->
  let o := process lim py_repr self h prompt context on_chunk sdk in
  exists full_prompt,
    occur_in_order
      [Marker.system_instructions; Marker.document_content;
       Marker.referred_text; Marker.conversation_history;
       Marker.user_request; Marker.your_response] full_prompt
    /\ _format_prompt_with_context py_repr prompt (ensure_defaults self d)
       = inr full_prompt
    /\ (_connected self = true \/ (exists u, connect_result sdk = inr u) ->
        out_prompt o = Some full_prompt)
    /\ (forall e, _connected self = false -> connect_result sdk = inl e ->
          out_prompt o = None /\ out_result o = inl e).
Proof.
  intros d Hw o. unfold o, process. fold d.
  destruct (format_emits_markers py_repr self prompt d Hw) as (full_prompt & Hf & Hm).
  exists full_prompt. split; [done|]. split; [done|].
  rewrite Hf. cbn [bind].
  assert (absent_or is_str (d !! k_documentContent) = true) as Hd.
  { unfold well_typed in Hw. by repeat (apply andb_true_iff in Hw as [Hw ?]). }
  rewrite getitem_str by (done || by eexists). cbn [bind py_len ret].
  split.
  - intros [-> | [u ->]]; [done|]. by destruct (_connected self).
  - by intros e -> ->.
Qed.

Lemma process_emits_markers_witness :
  let sdk := Backend (inr tt) (inl BackendError) [] (inr tt) in
  let self := Agent (py "s1") (py "Be brief.") false in
  let o := process default_limits (fun _ => []) self some_heap (py "Fix the typo")
             (Some 0%nat) None sdk in
  exists full_prompt,
    occur_in_order
      [Marker.system_instructions; Marker.document_content;
       Marker.referred_text; Marker.conversation_history;
       Marker.user_request; Marker.your_response] full_prompt
    /\ _format_prompt_with_context (fun _ => []) (py "Fix the typo")
         (ensure_defaults self (some_heap 0%nat)) = inr full_prompt
    /\ (_connected self = true \/ (exists u, connect_result sdk = inr u) ->
        out_prompt o = Some full_prompt)
    /\ (forall e, _connected self = false -> connect_result sdk = inl e ->
          out_prompt o = None /\ out_result o = inl e).
Proof.
  apply (process_emits_markers (lim:=default_limits) (fun _ => [])
           (Agent (py "s1") (py "Be brief.") false) some_heap (py "Fix the typo")
           (Some 0%nat) None (Backend (inr tt) (inl BackendError) [] (inr tt))).
  vm_compute. reflexivity.
Defined.

(** C10.  [process] mutates the mapping the caller passes: after the call,
    whatever it returns or raises, every key that was present has its
    original value, each of the five context keys that was missing holds
    its default, no other key is added, and no other mapping of the caller
    is touched. *)
Theorem process_fills_defaults {lim : limits} (py_repr : pyval -> str) (self : agent) (h : heap)
    (prompt : str) (l : loc) (on_chunk : option (str -> M unit)) (sdk : backend) :
  let h' := out_heap (process lim py_repr self h prompt (Some l) on_chunk sdk) in
  (forall k v, h l !! k = Some v -> h' l !! k = Some v)
  /\ (h l !! k_documentContent = None -> h' l !! k_documentContent = Some (VStr []))
  /\ (h l !! k_referredText = None -> h' l !! k_referredText = Some (VStr []))
  /\ (h l !! k_referredAddress = None ->
      h' l !! k_referredAddress = Some (VStr (py "0:0")))
  /\ (h l !! k_conversationHistory = None ->
      h' l !! k_conversationHistory = Some (VList []))
  /\ (h l !! k_systemInstructions = None ->
      h' l !! k_systemInstructions = Some (VStr (system_instructions self)))
  /\ (forall k, h l !! k = None ->
        k <> k_documentContent -> k <> k_referredText ->
        k <> k_referredAddress -> k <> k_conversationHistory ->
        k <> k_systemInstructions -> h' l !! k = None)
  /\ (forall l', l' <> l -> h' l' = h l').
Proof.
  intros h'. unfold h'. rewrite process_heap. unfold store.
  rewrite decide_True by done.
  repeat split.
  - intros k v H. by rewrite lookup_ensure_defaults, H.
  - intros H. by rewrite lookup_ensure_defaults, H.
  - intros H. by rewrite lookup_ensure_defaults, H.
  - intros H. by rewrite lookup_ensure_defaults, H.
  - intros H. by rewrite lookup_ensure_defaults, H.
  - intros H. by rewrite lookup_ensure_defaults, H.
  - intros k H ? ? ? ? ?. rewrite lookup_ensure_defaults, H.
    unfold default_value. by rewrite !decide_False.
  - intros l' H. by rewrite decide_False.
Qed.

Lemma process_fills_defaults_witness :
  let h' := out_heap (process default_limits (fun _ => []) (Agent (py "s1") (py "Be brief.") false)
                        some_heap (py "hi") (Some 0%nat) None
                        (Backend (inl BackendError) (inr tt) [] (inr tt))) in
  h' 0%nat !! k_referredAddress = Some (VStr (py "3:9"))
  /\ h' 0%nat !! k_documentContent = Some (VStr [])
  /\ h' 0%nat !! k_systemInstructions = Some (VStr (py "Be brief.")).
Proof.
  intros h'.
  destruct (process_fills_defaults (lim:=default_limits) (fun _ => [])
              (Agent (py "s1") (py "Be brief.") false) some_heap (py "hi") 0%nat None
              (Backend (inl BackendError) (inr tt) [] (inr tt)))
    as (Hkeep & Hdoc & _ & _ & _ & Hsys & _).
  split; [apply Hkeep; vm_compute; reflexivity|].
  split; [apply Hdoc|apply Hsys]; vm_compute; reflexivity.
Defined.

(** ** [cleanup] *)

Lemma cleanup_returns (self : agent) (disconnect_result : M unit) :
  (cleanup self disconnect_result).2 = inr tt.
Proof.
  unfold cleanup. destruct (_connected self); [|done].
  by destruct disconnect_result.
Qed.

(** C9 as the specification states it fails: when [disconnect] raises in the
    first call and returns in the second, the first call leaves
    [_connected] set and the second call clears it. *)
Lemma second_cleanup_changes_flag :
  let self := Agent (py "s1") (py "Be brief.") true in
  let after_first := (cleanup self (inl BackendError)).1 in
  let after_second := (cleanup after_first (inr tt)).1 in
  _connected after_first = true /\ _connected after_second = false.
Proof. by split. Qed.

(** C9, amended.  Two calls of [cleanup] in a row raise no error.  When
    the first call leaves the agent disconnected (it was not connected, or
    [disconnect] returned), the second call changes nothing; a call on a
    disconnected agent is a no-op.  When [disconnect] raised in the first
    call the flag is still set and the second call disconnects again. *)
Theorem cleanup_twice (self : agent) (first second : M unit) :
  let after_first := (cleanup self first).1 in
  let after_second := (cleanup after_first second).1 in
  (cleanup self first).2 = inr tt
  /\ (cleanup after_first second).2 = inr tt
  /\ (_connected after_first = false -> after_second = after_first)
  /\ (_connected self = false -> after_first = self)
  /\ (_connected self = true ->
      (_connected after_first = false <-> exists u, first = inr u)).
Proof.
  destruct self as [sid instr [|]], first as [e1|[]], second as [e2|[]];
    cbn; repeat split; try done; try (by eexists); by intros [? ?].
Qed.

Lemma cleanup_twice_witness :
  let self := Agent (py "s1") (py "Be brief.") true in
  let after_first := (cleanup self (inr tt)).1 in
  let after_second := (cleanup after_first (inl BackendError)).1 in
  _connected after_first = false /\ after_second = after_first.
Proof.
  intros self after_first after_second.
  destruct (cleanup_twice self (inr tt) (inl BackendError)) as (_ & _ & H & _ & _).
  split; [reflexivity|]. apply H. reflexivity.
Defined.

(** * The rest of the code *)

(** ** More on [process] *)

Lemma collect_blocks_spec (on_chunk : option (str -> M unit)) (blocks : list block) :
  (Forall (fun t => call_chunk on_chunk t = inr tt) (block_texts blocks)
   /\ collect_blocks on_chunk blocks = inr (block_texts blocks))
  \/ (exists before t after e,
        block_texts blocks = before ++ t :: after
        /\ Forall (fun t => call_chunk on_chunk t = inr tt) before
        /\ call_chunk on_chunk t = inl e
        /\ collect_blocks on_chunk blocks = inl e).
Proof.
  induction blocks as [|[text|] blocks IH]; [by left| |done].
  cbn [collect_blocks block_texts].
  change (match on_chunk with Some f => f text | None => ret tt end)
    with (call_chunk on_chunk text).
  destruct (call_chunk on_chunk text) as [e|[]] eqn:E.
  - right. exists [], text, (block_texts blocks), e. by repeat split.
  - destruct IH as [[Hall ->]|(before & t & after & e & -> & Hb & Ht & ->)].
    + left. split; [by constructor|done].
    + right. exists (text :: before), t, after, e. repeat split; try done.
      by constructor.
Qed.

Lemma collect_stream_spec (on_chunk : option (str -> M unit)) (msgs : list message) :
  (Forall (fun t => call_chunk on_chunk t = inr tt) (stream_texts msgs)
   /\ collect_stream on_chunk msgs = inr (stream_texts msgs))
  \/ (exists before t after e,
        stream_texts msgs = before ++ t :: after
        /\ Forall (fun t => call_chunk on_chunk t = inr tt) before
        /\ call_chunk on_chunk t = inl e
        /\ collect_stream on_chunk msgs = inl e).
Proof.
  induction msgs as [|[content|] msgs IH]; [by left| |done].
  cbn [collect_stream stream_texts].
  destruct (collect_blocks_spec on_chunk content)
    as [[Hc ->]|(before & t & after & e & -> & Hb & Ht & ->)].
  - destruct IH as [[Hall ->]|(before & t & after & e & -> & Hb & Ht & ->)].
    + left. split; [by apply Forall_app|done].
    + right. exists (block_texts content ++ before), t, after, e.
      rewrite <- app_assoc. repeat split; try done. by apply Forall_app.
  - right. exists before, t, (after ++ stream_texts msgs), e.
    rewrite <- app_assoc. by repeat split.
Qed.

Section ProcessLifecycle.
Context {lim : limits}.
Variable py_repr : pyval -> str.

(** The part of [process] before the [try] block succeeds on a well-typed
    context. *)
Lemma process_formats (self : agent) (d : gmap str pyval) (prompt : str) :
  well_typed d = true ->
  exists full_prompt,
    (full_prompt <-! _format_prompt_with_context py_repr prompt (ensure_defaults self d);
     document <-! getitem (ensure_defaults self d) k_documentContent;
     _ <-! py_len document;
     ret full_prompt) = inr full_prompt.
Proof.
  intros Hw. rewrite format_prompt_lines by done. cbn [bind].
  assert (absent_or is_str (d !! k_documentContent) = true) as Hd.
  { unfold well_typed in Hw. by repeat (apply andb_true_iff in Hw as [Hw ?]). }
  rewrite getitem_str by (done || by eexists). by eexists.
Qed.

Lemma process_well_typed (self : agent) (h : heap) (prompt : str) (l : loc)
    (on_chunk : option (str -> M unit)) (sdk : backend) :
  well_typed (h l) = true ->
  exists full_prompt,
    process lim py_repr self h prompt (Some l) on_chunk sdk
    = let h' := store h l (ensure_defaults self (h l)) in
      let result :=
        _ <-! query_result sdk;
        response_text <-! collect_stream on_chunk (stream sdk);
        _ <-! stream_end sdk;
        _parse_response lim (join newline response_text) (ensure_defaults self (h l)) in
      if _connected self then Outcome h' self (Some full_prompt) result
      else match connect_result sdk with
           | inr _ => Outcome h' (connected_agent self) (Some full_prompt) result
           | inl e => Outcome h' self None (raise e)
           end.
Proof.
  intros Hw. destruct (process_formats self (h l) prompt Hw) as [full_prompt Hf].
  exists full_prompt. unfold process. rewrite Hf.
  destruct (_connected self); [done|]. by destruct (connect_result sdk).
Qed.

(** X1.  On a well-typed context, the agent is connected after [process]
    exactly when it was connected before or [connect] returned; a prompt
    is handed to the backend exactly in that case; the failure of the
    query or of the stream leaves the agent connected; the session id and
    the instructions never change. *)
Theorem process_connection (self : agent) (h : heap) (prompt : str) (l : loc)
    (on_chunk : option (str -> M unit)) (sdk : backend) :
  well_typed (h l) = true ->
  let o := process lim py_repr self h prompt (Some l) on_chunk sdk in
  (_connected (out_agent o) = true
   <-> _connected self = true \/ exists u, connect_result sdk = inr u)
  /\ (is_Some (out_prompt o) <-> _connected (out_agent o) = true)
  /\ session_id (out_agent o) = session_id self
  /\ system_instructions (out_agent o) = system_instructions self.
Proof.
  intros Hw o. unfold o.
  destruct (process_well_typed self h prompt l on_chunk sdk Hw) as [p ->].
  cbn zeta. destruct self as [sid instr [|]]; cbn.
  - repeat split; eauto.
  - destruct (connect_result sdk) as [e|u]; cbn; repeat split; eauto;
      try done; try (by intros [? ?]); try (by intros [?|[? ?]]).
Qed.

(** X2.  On a well-typed context [process] raises nothing of its own: an
    exception it raises was raised by [connect] (on an agent that was not
    connected), by [query], by the chunk callback on one of the text
    chunks, by the response stream, or it is the [RecursionError] or
    [ValueError] that [json.loads] raised while the joined text was
    decoded. *)
Theorem process_error_provenance (self : agent) (h : heap) (prompt : str)
    (l : loc) (on_chunk : option (str -> M unit)) (sdk : backend) (e : exn) :
  well_typed (h l) = true ->
  out_result (process lim py_repr self h prompt (Some l) on_chunk sdk) = inl e ->
  (_connected self = false /\ connect_result sdk = inl e)
  \/ query_result sdk = inl e
  \/ (exists t, t ∈ stream_texts (stream sdk) /\ call_chunk on_chunk t = inl e)
  \/ stream_end sdk = inl e
  \/ ((e = RecursionError \/ e = ValueError)
      /\ _parse_response lim (join newline (stream_texts (stream sdk))) ∅ = inl e).
Proof.
  intros Hw.
  destruct (process_well_typed self h prompt l on_chunk sdk Hw) as [p ->].
  cbn zeta.
  assert (forall c,
    (_ <-! query_result sdk;
     response_text <-! collect_stream on_chunk (stream sdk);
     _ <-! stream_end sdk;
     _parse_response lim (join newline response_text) c) = inl e ->
    query_result sdk = inl e
    \/ (exists t, t ∈ stream_texts (stream sdk) /\ call_chunk on_chunk t = inl e)
    \/ stream_end sdk = inl e
    \/ ((e = RecursionError \/ e = ValueError)
        /\ _parse_response lim (join newline (stream_texts (stream sdk))) ∅ = inl e))
    as Hchain.
  { intros c. destruct (query_result sdk) as [e1|u]; [intros [= ->]; by left|].
    cbn [bind].
    destruct (collect_stream_spec on_chunk (stream sdk))
      as [[_ ->]|(before & t & after & e' & Ht & _ & Hc & ->)]; cbn [bind].
    - destruct (stream_end sdk) as [e1|u']; [intros [= ->]; by right; right; left|].
      cbn [bind]. intros H. do 3 right.
      destruct (parse_response_cases (lim:=lim)
                  (join newline (stream_texts (stream sdk))) c)
        as [(j & _ & [(q & d & _ & Hr)|(_ & Hr)])|(e' & _ & He & Hr)];
        rewrite Hr in H; try done.
      injection H as <-. split; [done|exact Hr].
    - intros [= ->]. right; left. exists t. split; [|done].
      rewrite Ht. apply elem_of_app. right. by left. }
  destruct (_connected self) eqn:Hc; cbn.
  - intros H. right. by eapply Hchain.
  - destruct (connect_result sdk) as [e1|u] eqn:Hr; cbn.
    + intros [= ->]. by left.
    + intros H. right. by eapply Hchain.
Qed.

(** X3.  When the backend and the callback do not fail, [process] decodes
    the texts of the text blocks of the assistant messages, in stream
    order, joined by newlines; other messages and blocks are ignored. *)
Theorem process_decodes_stream (self : agent) (h : heap) (prompt : str)
    (l : loc) (on_chunk : option (str -> M unit)) (sdk : backend) :
  well_typed (h l) = true ->
  _connected self = true \/ (exists u, connect_result sdk = inr u) ->
  (exists u, query_result sdk = inr u) ->
  (forall t, t ∈ stream_texts (stream sdk) -> call_chunk on_chunk t = inr tt) ->
  (exists u, stream_end sdk = inr u) ->
  out_result (process lim py_repr self h prompt (Some l) on_chunk sdk)
  = _parse_response lim (join newline (stream_texts (stream sdk))) ∅.
Proof.
  intros Hw Hc [u1 Hq] Hcb [u2 He].
  destruct (process_well_typed self h prompt l on_chunk sdk Hw) as [p ->].
  cbn zeta.
  assert (collect_stream on_chunk (stream sdk) = inr (stream_texts (stream sdk))) as Hs.
  { destruct (collect_stream_spec on_chunk (stream sdk))
      as [[_ ->]|(before & t & after & e' & Ht & _ & Hf & _)]; [done|].
    rewrite Hcb in Hf; [done|]. rewrite Ht. apply elem_of_app. right. by left. }
  destruct Hc as [-> | [u Hu]]; [|rewrite Hu; destruct (_connected self)];
    cbn; by rewrite Hq, Hs, He.
Qed.
End ProcessLifecycle.

Lemma process_decodes_stream_witness :
  out_result (process default_limits (fun _ => []) some_agent some_heap (py "hi") (Some 0%nat) None
                (Backend (inr tt) (inr tt) some_stream (inr tt)))
  = _parse_response default_limits (join newline (stream_texts some_stream)) ∅.
Proof.
  apply (process_decodes_stream (fun _ => []) some_agent some_heap (py "hi")
           0%nat None (Backend (inr tt) (inr tt) some_stream (inr tt))).
  - vm_compute. reflexivity.
  - right. exists tt. reflexivity.
  - exists tt. reflexivity.
  - intros t _. reflexivity.
  - exists tt. reflexivity.
Defined.

Lemma process_error_provenance_witness :
  let sdk := Backend (inr tt) (inr tt)
               [AssistantMessage [TextBlock (replicate 4301 49)]] (inr tt) in
  (_connected some_agent = false /\ connect_result sdk = inl ValueError)
  \/ query_result sdk = inl ValueError
  \/ (exists t, t ∈ stream_texts (stream sdk)
                /\ call_chunk None t = inl ValueError)
  \/ stream_end sdk = inl ValueError
  \/ ((ValueError = RecursionError \/ ValueError = ValueError)
      /\ _parse_response default_limits
           (join newline (stream_texts (stream sdk))) ∅ = inl ValueError).
Proof.
  apply (process_error_provenance (lim:=default_limits) (fun _ => []) some_agent
           some_heap (py "hi") 0%nat None
           (Backend (inr tt) (inr tt)
              [AssistantMessage [TextBlock (replicate 4301 49)]] (inr tt))
           ValueError); vm_compute; reflexivity.
Defined.

Lemma process_connection_witness :
  let sdk := Backend (inl BackendError) (inr tt) [] (inr tt) in
  let o := process default_limits (fun _ => []) some_agent some_heap (py "hi") (Some 0%nat) None
             sdk in
  (_connected (out_agent o) = true
   <-> _connected some_agent = true \/ exists u, connect_result sdk = inr u)
  /\ (is_Some (out_prompt o) <-> _connected (out_agent o) = true)
  /\ session_id (out_agent o) = session_id some_agent
  /\ system_instructions (out_agent o) = system_instructions some_agent.
Proof.
  apply (process_connection (fun _ => []) some_agent some_heap (py "hi") 0%nat None
           (Backend (inl BackendError) (inr tt) [] (inr tt))).
  vm_compute. reflexivity.
Defined.

Lemma ensure_defaults_id (self : agent) (d : gmap str pyval) :
  Forall (fun k => is_Some (d !! k)) context_keys ->
  ensure_defaults self d = d.
Proof.
  intros H. apply map_eq. intros k. rewrite lookup_ensure_defaults.
  destruct (d !! k) eqn:E; [done|]. unfold default_value, context_keys in *.
  rewrite !Forall_cons in H.
  destruct H as ([? ?] & [? ?] & [? ?] & [? ?] & [? ?] & _).
  repeat case_decide; subst; congruence.
Qed.

Lemma ensure_defaults_keys (self : agent) (d : gmap str pyval) :
  Forall (fun k => is_Some (ensure_defaults self d !! k)) context_keys.
Proof.
  repeat constructor; rewrite lookup_ensure_defaults;
    by destruct (d !! _); [eexists|eexists].
Qed.

(** ** More on the formatter *)

Section FormatterKeys.
Context {lim : limits}.
Variable py_repr : pyval -> str.

(** X4.  [_format_prompt_with_context] itself needs the five keys: on a
    well-typed context it returns a prompt when all of them are present
    and raises [KeyError] when one is missing. *)
Theorem format_needs_keys (prompt : str) (context : gmap str pyval) :
  well_typed context = true ->
  (Forall (fun k => is_Some (context !! k)) context_keys ->
   exists full_prompt,
     _format_prompt_with_context py_repr prompt context = inr full_prompt)
  /\ (~ Forall (fun k => is_Some (context !! k)) context_keys ->
      _format_prompt_with_context py_repr prompt context = inl KeyError).
Proof.
  intros Hw. split.
  - intros Hk. rewrite <- (ensure_defaults_id (Agent [] [] false) context Hk).
    rewrite format_prompt_lines by done. by eexists.
  - intros Hk. unfold well_typed in Hw.
    repeat (apply andb_true_iff in Hw as [Hw ?]).
    unfold _format_prompt_with_context, getitem.
    destruct (context !! k_systemInstructions) as [[]|] eqn:E1; try done.
    cbn [bind ret].
    destruct (context !! k_documentContent) as [[]|] eqn:E2; try done.
    cbn [bind ret]. rewrite text_section_ok. cbn [bind ret].
    destruct (context !! k_referredAddress) as [[]|] eqn:E3; try done.
    cbn [bind ret].
    destruct (context !! k_referredText) as [[]|] eqn:E4; try done.
    cbn [bind ret]. rewrite text_section_ok. cbn [bind ret].
    destruct (context !! k_conversationHistory) as [v|] eqn:E5; [|done].
    exfalso. apply Hk. unfold context_keys.
    rewrite !Forall_cons. by repeat split.
Qed.

(** X5.  The user's message and the document are copied into the prompt
    as they are, without escaping: the prompt ends with the request
    marker, the message and the fixed response instructions, and a
    non-empty document stands in its section under a header giving its
    length in characters. *)
Theorem format_copies_fields (self : agent) (prompt : str)
    (context : gmap str pyval) :
  well_typed context = true ->
  exists full_prompt,
    _format_prompt_with_context py_repr prompt (ensure_defaults self context)
    = inr full_prompt
    /\ (exists before,
          full_prompt
          = before ++ newline ++ Marker.user_request ++ newline ++ prompt
            ++ response_tail)
    /\ (forall document,
          context !! k_documentContent = Some (VStr document) -> document <> [] ->
          exists after,
            full_prompt
            = Marker.system_instructions ++ newline
              ++ field_str self context k_systemInstructions ++ newline ++ newline
              ++ Marker.document_content ++ newline
              ++ (py "Full Document" ++ py " (" ++ decimal (length document)
                  ++ py " chars):") ++ newline
              ++ document ++ newline ++ newline
              ++ Marker.referred_text ++ after).
Proof.
  intros Hw. rewrite format_prompt_lines by done.
  eexists. split; [reflexivity|]. split.
  - unfold prompt_lines. rewrite !app_assoc. rewrite <- app_assoc.
    rewrite join_app; [by eexists| |done].
    intros H. apply (f_equal length) in H. rewrite !length_app in H.
    cbn [length] in H. lia.
  - intros document Hd Hn.
    assert (field_str self context k_documentContent = document) as ->
      by (unfold field_str; by rewrite Hd).
    destruct document as [|c document]; [done|].
    unfold prompt_lines. cbn [app text_lines]. rewrite !join_cons_cons.
    eexists. reflexivity.
Qed.
End FormatterKeys.

Lemma format_copies_fields_witness :
  let self := some_agent in
  let prompt := py "Fix the typo" in
  let context : gmap str pyval := {[ k_documentContent := VStr (py "Helo world") ]} in
  exists full_prompt,
    _format_prompt_with_context (fun _ => []) prompt (ensure_defaults self context)
    = inr full_prompt
    /\ (exists before,
          full_prompt
          = before ++ newline ++ Marker.user_request ++ newline ++ prompt
            ++ response_tail)
    /\ (forall document,
          context !! k_documentContent = Some (VStr document) -> document <> [] ->
          exists after,
            full_prompt
            = Marker.system_instructions ++ newline
              ++ field_str self context k_systemInstructions ++ newline ++ newline
              ++ Marker.document_content ++ newline
              ++ (py "Full Document" ++ py " (" ++ decimal (length document)
                  ++ py " chars):") ++ newline
              ++ document ++ newline ++ newline
              ++ Marker.referred_text ++ after).
Proof.
  apply (format_copies_fields (fun _ => []) some_agent (py "Fix the typo")
           {[ k_documentContent := VStr (py "Helo world") ]}).
  vm_compute. reflexivity.
Defined.

Lemma format_needs_keys_witness :
  (Forall (fun k => is_Some ((∅ : gmap str pyval) !! k)) context_keys ->
   exists full_prompt,
     _format_prompt_with_context (fun _ => []) (py "hi") ∅ = inr full_prompt)
  /\ (~ Forall (fun k => is_Some ((∅ : gmap str pyval) !! k)) context_keys ->
      _format_prompt_with_context (fun _ => []) (py "hi") ∅ = inl KeyError).
Proof.
  apply (format_needs_keys (fun _ => []) (py "hi") ∅). vm_compute. reflexivity.
Defined.

Section ProcessEdgeCases.
Context {lim : limits}.
Variable py_repr : pyval -> str.

Lemma format_falsy_document (prompt : str) (d : gmap str pyval) (v : pyval) :
  d !! k_documentContent = Some v -> truthy v = false ->
  _format_prompt_with_context py_repr prompt d
  = _format_prompt_with_context py_repr prompt (<[k_documentContent := VStr []]> d).
Proof.
  intros Hd Hv. unfold _format_prompt_with_context, getitem.
  rewrite lookup_insert_eq, !lookup_insert_ne, Hd by done.
  destruct (d !! k_systemInstructions); [|done]. cbn [bind ret].
  unfold text_section at 1 3. by rewrite Hv.
Qed.

Lemma ensure_defaults_insert (self : agent) (d : gmap str pyval) (k : str)
    (v w : pyval) :
  d !! k = Some w ->
  ensure_defaults self (<[k := v]> d) = <[k := v]> (ensure_defaults self d).
Proof.
  intros H. apply map_eq. intros k'.
  rewrite lookup_ensure_defaults, !lookup_insert, lookup_ensure_defaults.
  case_decide; [done|]. done.
Qed.

(** X6.  A [documentContent] that is falsy and has no length ([None],
    [False], a zero) passes the formatter, which shows the placeholder,
    and then makes [process] raise [TypeError] at the log message of line
    139: the backend is never contacted and the agent is left as it was. *)
Theorem process_unsized_document (self : agent) (h : heap) (prompt : str)
    (l : loc) (on_chunk : option (str -> M unit)) (sdk : backend) (v : pyval) :
  h l !! k_documentContent = Some v ->
  truthy v = false ->
  py_len v = inl TypeError ->
  well_typed (<[k_documentContent := VStr []]> (h l)) = true ->
  let o := process lim py_repr self h prompt (Some l) on_chunk sdk in
  out_result o = inl TypeError /\ out_prompt o = None /\ out_agent o = self
  /\ exists full_prompt,
       _format_prompt_with_context py_repr prompt (ensure_defaults self (h l))
       = inr full_prompt.
Proof.
  intros Hd Hv Hl Hw o. unfold o, process.
  assert (ensure_defaults self (h l) !! k_documentContent = Some v) as Hd'
    by (by rewrite lookup_ensure_defaults, Hd).
  rewrite (format_falsy_document _ _ v Hd' Hv).
  rewrite <- (ensure_defaults_insert self (h l) _ _ v Hd).
  rewrite format_prompt_lines by done. cbn [bind].
  unfold getitem. rewrite Hd'. cbn [bind ret]. rewrite Hl. cbn.
  repeat split. by eexists.
Qed.

(** X7.  Once [process] has filled a dict, no later call changes it,
    whichever agent makes the call. *)
Theorem process_defaults_once (self1 self2 : agent) (h : heap)
    (prompt1 prompt2 : str) (l : loc) (on_chunk1 on_chunk2 : option (str -> M unit))
    (sdk1 sdk2 : backend) :
  let h1 := out_heap (process lim py_repr self1 h prompt1 (Some l) on_chunk1 sdk1) in
  let h2 := out_heap (process lim py_repr self2 h1 prompt2 (Some l) on_chunk2 sdk2) in
  forall l', h2 l' = h1 l'.
Proof.
  intros h1 h2 l'. unfold h2, h1. rewrite !process_heap. unfold store.
  case_decide; [|done]. rewrite decide_True by done.
  apply ensure_defaults_id, ensure_defaults_keys.
Qed.

(** X8.  After a [cleanup] whose [disconnect] returned, the next [process]
    connects again: on a well-typed context it raises what [connect]
    raises, handing no prompt to the backend, and otherwise leaves the
    agent connected. *)
Theorem process_after_cleanup (self : agent) (u : unit) (h : heap) (prompt : str)
    (l : loc) (on_chunk : option (str -> M unit)) (sdk : backend) :
  well_typed (h l) = true ->
  let closed := (cleanup self (inr u)).1 in
  let o := process lim py_repr closed h prompt (Some l) on_chunk sdk in
  _connected closed = false
  /\ (forall e, connect_result sdk = inl e ->
        out_result o = inl e /\ out_prompt o = None /\ out_agent o = closed)
  /\ ((exists u', connect_result sdk = inr u') ->
        _connected (out_agent o) = true /\ is_Some (out_prompt o)).
Proof.
  intros Hw closed o. unfold o.
  destruct (process_well_typed (lim:=lim) py_repr closed h prompt l on_chunk sdk Hw) as [p ->].
  assert (_connected closed = false) as Hc
    by (unfold closed, cleanup; by destruct (_connected self) eqn:E).
  cbn zeta. rewrite Hc. split; [done|]. split.
  - intros e ->. done.
  - intros [u' ->]. cbn. split; [done|by eexists].
Qed.
End ProcessEdgeCases.

Lemma process_after_cleanup_witness :
  let closed := (cleanup (Agent (py "s1") (py "Be brief.") true) (inr tt)).1 in
  let sdk := Backend (inl BackendError) (inr tt) [] (inr tt) in
  let o := process default_limits (fun _ => []) closed some_heap (py "hi") (Some 0%nat) None sdk in
  _connected closed = false
  /\ (forall e, connect_result sdk = inl e ->
        out_result o = inl e /\ out_prompt o = None /\ out_agent o = closed)
  /\ ((exists u', connect_result sdk = inr u') ->
        _connected (out_agent o) = true /\ is_Some (out_prompt o)).
Proof.
  apply (process_after_cleanup (fun _ => []) (Agent (py "s1") (py "Be brief.") true)
           tt some_heap (py "hi") 0%nat None
           (Backend (inl BackendError) (inr tt) [] (inr tt))).
  vm_compute. reflexivity.
Defined.

Lemma process_unsized_document_witness :
  let self := some_agent in
  let h : heap := fun _ => {[ k_documentContent := VNone ]} in
  let o := process default_limits (fun _ => []) self h (py "hi") (Some 0%nat) None
             (Backend (inr tt) (inr tt) some_stream (inr tt)) in
  out_result o = inl TypeError /\ out_prompt o = None /\ out_agent o = self
  /\ exists full_prompt,
       _format_prompt_with_context (fun _ => []) (py "hi")
         (ensure_defaults self (h 0%nat)) = inr full_prompt.
Proof.
  apply (process_unsized_document (fun _ => []) some_agent
           (fun _ => {[ k_documentContent := VNone ]}) (py "hi") 0%nat None
           (Backend (inr tt) (inr tt) some_stream (inr tt)) VNone);
    vm_compute; reflexivity.
Defined.

(** X9.  A response whose stripped text is a JSON value that is truthy but
    not an object (an array, a number, a string, ...) is passed through
    as the message, even when an object could be found inside it:
    strategies 2 and 3 are not tried. *)
Theorem truthy_value_passes_through {lim : limits} (response_text : str)
    (context : gmap str pyval) (v : pyval) :
  json_loads lim (strip response_text) = inr v ->
  truthy v = true -> is_dict v = false ->
  _parse_response lim response_text context
  = inr {[ k_conversationMessage := VStr (strip response_text) ]}.
Proof.
  intros Hl Ht Hd.
  assert (extract_json lim response_text = inr v) as Hj.
  { unfold extract_json, try_loads. rewrite Hl. unfold bind, ret.
    cbn [default id]. by rewrite Ht; cbn [negb]; rewrite Ht. }
  rewrite (parse_response_no_object _ _ v Hj) by (by rewrite Hd, andb_false_r).
  unfold fallback, str_or. destruct (strip response_text) eqn:E; [|done].
  vm_compute in Hl. discriminate.
Qed.

Lemma truthy_value_passes_through_witness :
  _parse_response default_limits (pyq "[{'conversationMessage': 'x'}]") ∅
  = inr {[ k_conversationMessage
           := VStr (strip (pyq "[{'conversationMessage': 'x'}]")) ]}.
Proof.
  apply (truthy_value_passes_through (pyq "[{'conversationMessage': 'x'}]") ∅
           (VList [VDict [(k_conversationMessage, VStr (py "x"))]]));
    vm_compute; reflexivity.
Defined.

(** X10.  A document update is never made out of a response without an
    opening brace. *)
Theorem update_needs_brace {lim : limits} (response_text : str) (context result : gmap str pyval) :
  _parse_response lim response_text context = inr result ->
  is_Some (result !! k_documentUpdate) \/ is_Some (result !! k_updateRange) ->
  Ch.lbrace ∈ response_text.
Proof.
  intros Hr Hk. destruct (decide (Ch.lbrace ∈ response_text)) as [|Hn]; [done|].
  apply (no_brace_returned _ _ _ Hn) in Hr as ->.
  rewrite !fallback_lookup in Hk. destruct Hk as [[? Hk]|[? Hk]]; done.
Qed.

Lemma update_needs_brace_witness :
  Ch.lbrace ∈ pyq "{'conversationMessage':'x','documentUpdate':'new'}".
Proof.
  apply (update_needs_brace (lim:=default_limits)
           (pyq "{'conversationMessage':'x','documentUpdate':'new'}") ∅
           (project [(k_conversationMessage, VStr (py "x"));
                     (k_documentUpdate, VStr (py "new"))])).
  - apply parse_response_object. vm_compute. reflexivity.
  - left. exists (VStr (py "new")). vm_compute. reflexivity.
Defined.

(** ** Building an agent *)

Section AgentConstruction.
Context {lim : limits}.
Variable py_repr : pyval -> str.

(** X11.  A new agent is not connected, and what it loaded (the text of
    the configured file, or the built-in text when the file cannot be
    read) is what follows the first marker in the prompt of every
    well-typed context that brings no [systemInstructions] of its own. *)
Theorem loaded_instructions_reach_prompt (sid : str)
    (config : option (gmap str pyval)) (read_file : str -> file_read)
    (a : agent) (prompt : str) (context : gmap str pyval) :
  ClaudeAgent.__init__ sid config read_file = inr a ->
  well_typed context = true ->
  context !! k_systemInstructions = None ->
  _connected a = false /\ session_id a = sid
  /\ (exists path,
        instructions_path (default ∅ config) = VStr path
        /\ system_instructions a
           = match read_file path with
             | FileText text => text
             | _ => _default_instructions
             end)
  /\ exists rest,
       _format_prompt_with_context py_repr prompt (ensure_defaults a context)
       = inr (Marker.system_instructions ++ newline
              ++ system_instructions a ++ newline ++ rest).
Proof.
  intros Hi Hw Hs. unfold ClaudeAgent.__init__, _load_instructions in Hi.
  fold (instructions_path (default ∅ config)) in Hi.
  destruct (instructions_path (default ∅ config)) as [| | | |path| |] eqn:Ep;
    try discriminate.
  assert (a = Agent sid (match read_file path with
                         | FileText text => text
                         | _ => _default_instructions
                         end) false) as ->
    by (destruct (read_file path); cbn [bind ret] in Hi; injection Hi as <-; reflexivity).
  cbn [_connected session_id system_instructions].
  split; [done|]. split; [done|]. split; [by exists path|].
  rewrite format_prompt_lines by done.
  unfold field_str at 1. rewrite Hs. unfold default_value.
  rewrite !decide_False, decide_True by done. cbn [system_instructions].
  unfold prompt_lines. cbn [app]. rewrite !join_cons_cons.
  eexists. reflexivity.
Qed.

End AgentConstruction.

Lemma loaded_instructions_reach_prompt_witness :
  let a := Agent (py "s1") _default_instructions false in
  _connected a = false /\ session_id a = py "s1"
  /\ (exists path,
        instructions_path (default ∅ None) = VStr path
        /\ system_instructions a
           = match (fun _ => FileNotFound) path with
             | FileText text => text
             | _ => _default_instructions
             end)
  /\ exists rest,
       _format_prompt_with_context (fun _ => []) (py "hi") (ensure_defaults a ∅)
       = inr (Marker.system_instructions ++ newline
              ++ system_instructions a ++ newline ++ rest).
Proof.
  apply (loaded_instructions_reach_prompt (fun _ => []) (py "s1") None
           (fun _ => FileNotFound) (Agent (py "s1") _default_instructions false)
           (py "hi") ∅); vm_compute; reflexivity.
Defined.

(** ** [loadConfig] *)

Section ConfigProperties.
Context {lim : limits}.
Variable py_int : pyval -> M Z.

Lemma loadConfig_inv (config_json : file_read) (environ : gmap str str)
    (config : gmap str pyval) :
  loadConfig lim py_int config_json environ = inr config ->
  exists d port,
    file_config lim config_json d
    /\ py_int (environ_get environ (py "PORT")
                 (default (VInt 3001) (dict_get d k_port))) = inr port
    /\ config
       = <[k_port := VInt port]>
         (<[k_host := environ_get environ (py "HOST")
                        (default (VStr (py "localhost")) (dict_get d k_host))]>
          (<[k_corsOrigin := environ_get environ (py "CORS_ORIGIN")
                               (default (VStr (py "*")) (dict_get d k_corsOrigin))]>
           (<[k_socketPath := VStr (py "/socket.io")]>
            {[ k_instructions_file :=
                 default (VStr default_instructions_file)
                   (dict_get d k_instructions_file) ]}))).
Proof.
  unfold loadConfig. intros H.
  assert (forall fc : pyval,
    (file_port <-! msg_get fc k_port (VInt 3001);
     port <-! py_int (environ_get environ (py "PORT") file_port);
     file_host <-! msg_get fc k_host (VStr (py "localhost"));
     let host := environ_get environ (py "HOST") file_host in
     file_cors <-! msg_get fc k_corsOrigin (VStr (py "*"));
     let cors := environ_get environ (py "CORS_ORIGIN") file_cors in
     instructions <-!
       msg_get fc k_instructions_file (VStr default_instructions_file);
     ret (<[k_port := VInt port]>
          (<[k_host := host]>
           (<[k_corsOrigin := cors]>
            (<[k_socketPath := VStr (py "/socket.io")]>
             {[ k_instructions_file := instructions ]}))))) = inr config ->
    exists d port, fc = VDict d
      /\ py_int (environ_get environ (py "PORT")
                   (default (VInt 3001) (dict_get d k_port))) = inr port
      /\ config
         = <[k_port := VInt port]>
           (<[k_host := environ_get environ (py "HOST")
                          (default (VStr (py "localhost")) (dict_get d k_host))]>
            (<[k_corsOrigin := environ_get environ (py "CORS_ORIGIN")
                                 (default (VStr (py "*")) (dict_get d k_corsOrigin))]>
             (<[k_socketPath := VStr (py "/socket.io")]>
              {[ k_instructions_file :=
                   default (VStr default_instructions_file)
                     (dict_get d k_instructions_file) ]})))) as Hbody.
  { intros fc Hfc. destruct fc as [| | | | | |d]; try discriminate.
    cbn [msg_get bind ret] in Hfc.
    destruct (py_int _) as [e|port] eqn:Ep; [discriminate|].
    cbn [bind ret] in Hfc. exists d, port. split; [done|]. split; [done|].
    by injection Hfc as <-. }
  destruct config_json as [|e|text]; cbn [bind ret] in H.
  - apply Hbody in H as (d & port & [= <-] & ? & ?). by exists [], port.
  - destruct e; try discriminate.
    apply Hbody in H as (d & port & [= <-] & ? & ?). by exists [], port.
  - destruct (json_loads lim text) as [[]|v] eqn:El; try discriminate.
    + apply Hbody in H as (d & port & [= <-] & ? & ?). exists [], port.
      split; [right; done|done].
    + apply Hbody in H as (d & port & -> & ? & ?). exists d, port.
      split; [by left|done].
Qed.

(** X12.  A [config.json] that is missing or is not JSON is read like the
    empty object. *)
Theorem loadConfig_unreadable_file (text : str) (environ : gmap str str) :
  json_loads lim text = inl JSONDecodeError ->
  loadConfig lim py_int (FileText text) environ
  = loadConfig lim py_int (FileText (py "{}")) environ
  /\ loadConfig lim py_int FileNotFound environ
     = loadConfig lim py_int (FileText (py "{}")) environ.
Proof.
  intros H. unfold loadConfig. rewrite H.
  assert (json_loads lim (py "{}") = inr (VDict [])) as -> by (by vm_compute).
  done.
Qed.

(** X13.  A [config.json] holding JSON that is not an object makes
    [loadConfig] raise [AttributeError], whatever the environment sets:
    the file's value is looked up before the environment is consulted. *)
Theorem loadConfig_not_an_object (text : str) (v : pyval)
    (environ : gmap str str) :
  json_loads lim text = inr v -> is_dict v = false ->
  loadConfig lim py_int (FileText text) environ = inl AttributeError.
Proof.
  intros H Hd. unfold loadConfig. rewrite H. by destruct v.
Qed.

(** X14.  The environment wins over the file: when [loadConfig] returns,
    a variable that is set is the setting, as a string for [host] and
    [corsOrigin] and converted by [int] for [port], whatever
    [config.json] holds. *)
Theorem loadConfig_environment_wins (config_json : file_read)
    (environ : gmap str str) (config : gmap str pyval) :
  loadConfig lim py_int config_json environ = inr config ->
  (forall s, environ !! py "HOST" = Some s -> config !! k_host = Some (VStr s))
  /\ (forall s, environ !! py "CORS_ORIGIN" = Some s ->
        config !! k_corsOrigin = Some (VStr s))
  /\ (forall s, environ !! py "PORT" = Some s ->
        exists port, py_int (VStr s) = inr port
                     /\ config !! k_port = Some (VInt port)).
Proof.
  intros H. apply loadConfig_inv in H as (d & port & _ & Hp & ->).
  unfold environ_get in *. repeat split.
  - intros s ->. by rewrite lookup_insert_ne, lookup_insert_eq.
  - intros s ->. do 2 rewrite lookup_insert_ne by done. by rewrite lookup_insert_eq.
  - intros s Hs. rewrite Hs in Hp. exists port. by rewrite lookup_insert_eq.
Qed.

(** X15.  Without the variable, the file's value is the setting, and the
    default when the file has none; the value of the file is not checked
    to be a string. *)
Theorem loadConfig_file_then_default (config_json : file_read)
    (environ : gmap str str) (config : gmap str pyval) :
  loadConfig lim py_int config_json environ = inr config ->
  exists d, file_config lim config_json d
    /\ (environ !! py "HOST" = None ->
          config !! k_host
          = Some (default (VStr (py "localhost")) (dict_get d k_host)))
    /\ (environ !! py "CORS_ORIGIN" = None ->
          config !! k_corsOrigin
          = Some (default (VStr (py "*")) (dict_get d k_corsOrigin)))
    /\ (environ !! py "PORT" = None ->
          exists port,
            py_int (default (VInt 3001) (dict_get d k_port)) = inr port
            /\ config !! k_port = Some (VInt port)).
Proof.
  intros H. apply loadConfig_inv in H as (d & port & Hf & Hp & ->).
  exists d. split; [done|]. unfold environ_get in *. repeat split.
  - intros ->. by rewrite lookup_insert_ne, lookup_insert_eq.
  - intros ->. do 2 rewrite lookup_insert_ne by done. by rewrite lookup_insert_eq.
  - intros Hs. rewrite Hs in Hp. exists port. by rewrite lookup_insert_eq.
Qed.

(** X16.  The result has the five keys of the docstring and no other;
    [socketPath] is fixed, and the instructions file is the file's
    setting: no environment changes either. *)
Theorem loadConfig_fixed_settings (config_json : file_read)
    (environ environ' : gmap str str) (config config' : gmap str pyval) :
  loadConfig lim py_int config_json environ = inr config ->
  loadConfig lim py_int config_json environ' = inr config' ->
  (forall k, is_Some (config !! k) <-> k ∈ config_keys)
  /\ config !! k_socketPath = Some (VStr (py "/socket.io"))
  /\ config' !! k_instructions_file = config !! k_instructions_file.
Proof.
  intros H H'.
  apply loadConfig_inv in H as (d & port & Hf & Hp & ->).
  apply loadConfig_inv in H' as (d' & port' & Hf' & Hp' & ->).
  assert (d' = d) as ->.
  { destruct config_json as [|e|text]; cbn in Hf, Hf'.
    - congruence.
    - destruct Hf, Hf'. congruence.
    - destruct Hf as [Hf|[Hf ->]], Hf' as [Hf'|[Hf' ->]]; congruence. }
  split; [|split].
  - intros k. unfold config_keys.
    rewrite !lookup_insert_is_Some', lookup_singleton_is_Some.
    rewrite !elem_of_cons, elem_of_nil. split.
    + intros [<-|[<-|[<-|[<-|<-]]]]; auto 10.
    + intros [->|[->|[->|[->|[->|[]]]]]]; auto 10.
  - do 3 rewrite lookup_insert_ne by done. by rewrite lookup_insert_eq.
  - do 8 rewrite lookup_insert_ne by done. by rewrite !lookup_singleton_eq.
Qed.
End ConfigProperties.

Lemma loadConfig_fixed_settings_witness :
  let config' := <[k_port := VInt 3001]> (<[k_host := VStr (py "localhost")]> some_config) in
  (forall k, is_Some (some_config !! k) <-> k ∈ config_keys)
  /\ some_config !! k_socketPath = Some (VStr (py "/socket.io"))
  /\ config' !! k_instructions_file = some_config !! k_instructions_file.
Proof.
  apply (loadConfig_fixed_settings (lim:=default_limits) sample_port FileNotFound some_environ ∅
           some_config
           (<[k_port := VInt 3001]> (<[k_host := VStr (py "localhost")]> some_config)));
    reflexivity.
Defined.

Lemma loadConfig_file_then_default_witness :
  let config_json := FileText (pyq "{'corsOrigin': 'http://localhost:5173'}") in
  let config := <[k_corsOrigin := VStr (py "http://localhost:5173")]> some_config in
  exists d, file_config default_limits config_json d
    /\ (some_environ !! py "HOST" = None ->
          config !! k_host
          = Some (default (VStr (py "localhost")) (dict_get d k_host)))
    /\ (some_environ !! py "CORS_ORIGIN" = None ->
          config !! k_corsOrigin
          = Some (default (VStr (py "*")) (dict_get d k_corsOrigin)))
    /\ (some_environ !! py "PORT" = None ->
          exists port,
            sample_port (default (VInt 3001) (dict_get d k_port)) = inr port
            /\ config !! k_port = Some (VInt port)).
Proof.
  apply (loadConfig_file_then_default sample_port
           (FileText (pyq "{'corsOrigin': 'http://localhost:5173'}"))
           some_environ
           (<[k_corsOrigin := VStr (py "http://localhost:5173")]> some_config)).
  reflexivity.
Defined.

Lemma loadConfig_environment_wins_witness :
  (forall s, some_environ !! py "HOST" = Some s ->
     some_config !! k_host = Some (VStr s))
  /\ (forall s, some_environ !! py "CORS_ORIGIN" = Some s ->
        some_config !! k_corsOrigin = Some (VStr s))
  /\ (forall s, some_environ !! py "PORT" = Some s ->
        exists port, sample_port (VStr s) = inr port
                     /\ some_config !! k_port = Some (VInt port)).
Proof.
  apply (loadConfig_environment_wins (lim:=default_limits) sample_port
           (FileText (pyq "{'host': 'example.org', 'port': 9000}"))
           some_environ some_config).
  reflexivity.
Defined.

Lemma loadConfig_not_an_object_witness :
  loadConfig default_limits sample_port (FileText (py "[]")) {[ py "PORT" := py "8080" ]}
  = inl AttributeError.
Proof.
  apply (loadConfig_not_an_object sample_port (py "[]") (VList [])
           {[ py "PORT" := py "8080" ]}); vm_compute; reflexivity.
Defined.

Lemma loadConfig_unreadable_file_witness :
  loadConfig default_limits sample_port (FileText (py "port = 8080")) ∅
  = loadConfig default_limits sample_port (FileText (py "{}")) ∅
  /\ loadConfig default_limits sample_port FileNotFound ∅
     = loadConfig default_limits sample_port (FileText (py "{}")) ∅.
Proof.
  apply (loadConfig_unreadable_file sample_port (py "port = 8080") ∅).
  vm_compute. reflexivity.
Defined.

(** ** The session manager *)

Section ManagerProperties.
Context {lim : limits}.
Variable py_int : pyval -> M Z.

Lemma load_instructions_path (config : gmap str pyval)
    (read_file : str -> file_read) (instructions : str) :
  _load_instructions config read_file = inr instructions ->
  exists path, instructions_path config = VStr path
    /\ instructions = match read_file path with
                      | FileText text => text
                      | _ => _default_instructions
                      end.
Proof.
  unfold _load_instructions. fold (instructions_path config).
  destruct (instructions_path config) as [| | | |path| |]; try discriminate.
  intros H. exists path. split; [done|].
  destruct (read_file path); cbn [ret] in H; by injection H as <-.
Qed.

Lemma load_instructions_not_string (config : gmap str pyval)
    (read_file : str -> file_read) :
  is_str (instructions_path config) = false ->
  _load_instructions config read_file = inl TypeError.
Proof.
  unfold _load_instructions. fold (instructions_path config).
  by destruct (instructions_path config).
Qed.

(** X17.  A manager starts with an empty session table and the global
    session, whose agent is not connected; the agent's instructions come
    from the path in [config.json] (or the default path), so neither the
    environment nor the clock has a part in them. *)
Theorem manager_starts_with_global_session (config_json : file_read)
    (environ : gmap str str) (read_file : str -> file_read)
    (now1 now2 : pyval) (m : manager) :
  SessionManager.__init__ lim py_int config_json environ read_file now1 now2 = inr m ->
  sessions m = ∅
  /\ sessionId (globalSession m) = global_session_id
  /\ createdAt (globalSession m) = now1 /\ lastActivity (globalSession m) = now2
  /\ SessionManager.getAgent m (VStr global_session_id) = Some (global_agent m)
  /\ _connected (global_agent m) = false
  /\ session_id (global_agent m) = global_session_id
  /\ exists d path,
       file_config lim config_json d
       /\ default (VStr default_instructions_file) (dict_get d k_instructions_file)
          = VStr path
       /\ system_instructions (global_agent m)
          = match read_file path with
            | FileText text => text
            | _ => _default_instructions
            end.
Proof.
  unfold SessionManager.__init__, ClaudeAgent.__init__. intros H.
  destruct (loadConfig lim py_int config_json environ) as [e|config] eqn:Ec;
    [discriminate|].
  cbn [bind from_option id] in H.
  destruct (_load_instructions config read_file) as [e|instructions] eqn:El;
    cbn [bind ret] in H; [discriminate|].
  injection H as <-.
  apply loadConfig_inv in Ec as (d & port & Hf & _ & ->).
  apply load_instructions_path in El as (path & Hp & ->).
  unfold instructions_path in Hp.
  do 4 rewrite lookup_insert_ne in Hp by done. rewrite lookup_singleton_eq in Hp.
  cbn [default] in Hp.
  repeat split; try done. by exists d, path.
Qed.

(** X18.  A [config.json] whose instructions path is not a string stops
    the manager from being built: [loadConfig] passes the value on
    unchecked and the agent's constructor raises [TypeError] (unless the
    conversion of the port has raised before). *)
Theorem manager_init_path_not_string (text : str) (d : list (str * pyval))
    (v : pyval) (environ : gmap str str) (read_file : str -> file_read)
    (now1 now2 : pyval) :
  json_loads lim text = inr (VDict d) ->
  dict_get d k_instructions_file = Some v -> is_str v = false ->
  let port := environ_get environ (py "PORT")
                (default (VInt 3001) (dict_get d k_port)) in
  SessionManager.__init__ lim py_int (FileText text) environ read_file now1 now2
  = match py_int port with
    | inl e => inl e
    | inr _ => inl TypeError
    end.
Proof.
  intros Hl Hv Hs port. unfold SessionManager.__init__, ClaudeAgent.__init__.
  destruct (loadConfig lim py_int (FileText text) environ) as [e|config] eqn:Ec.
  - unfold loadConfig in Ec. rewrite Hl in Ec. cbn [bind ret msg_get] in Ec.
    fold port in Ec. destruct (py_int port); [by injection Ec as ->|discriminate].
  - pose proof Ec as Ec'.
    apply loadConfig_inv in Ec' as (d' & port' & Hf & Hp & ->).
    destruct Hf as [Hf|[Hf _]]; [|congruence].
    assert (d' = d) as -> by congruence. fold port in Hp. rewrite Hp.
    cbn [bind from_option id]. rewrite load_instructions_not_string; [done|].
    unfold instructions_path.
    do 4 rewrite lookup_insert_ne by done. rewrite lookup_singleton_eq.
    cbn [default]. by rewrite Hv.
Qed.
End ManagerProperties.

Lemma manager_init_path_not_string_witness :
  let port := environ_get some_environ (py "PORT")
                (default (VInt 3001)
                   (dict_get [(k_instructions_file, VInt 5)] k_port)) in
  SessionManager.__init__ default_limits sample_port
    (FileText (pyq "{'editor-agent-instructions': 5}")) some_environ
    (fun _ => FileNotFound) (VInt 1) (VInt 2)
  = match sample_port port with
    | inl e => inl e
    | inr _ => inl TypeError
    end.
Proof.
  apply (manager_init_path_not_string sample_port
           (pyq "{'editor-agent-instructions': 5}")
           [(k_instructions_file, VInt 5)] (VInt 5) some_environ
           (fun _ => FileNotFound) (VInt 1) (VInt 2)); vm_compute; reflexivity.
Defined.

Lemma manager_starts_with_global_session_witness :
  let m := some_manager in
  let read_file : str -> file_read := fun _ => FileNotFound in
  sessions m = ∅
  /\ sessionId (globalSession m) = global_session_id
  /\ createdAt (globalSession m) = VInt 1 /\ lastActivity (globalSession m) = VInt 2
  /\ SessionManager.getAgent m (VStr global_session_id) = Some (global_agent m)
  /\ _connected (global_agent m) = false
  /\ session_id (global_agent m) = global_session_id
  /\ exists d path,
       file_config default_limits FileNotFound d
       /\ default (VStr default_instructions_file) (dict_get d k_instructions_file)
          = VStr path
       /\ system_instructions (global_agent m)
          = match read_file path with
            | FileText text => text
            | _ => _default_instructions
            end.
Proof.
  apply (manager_starts_with_global_session sample_port FileNotFound some_environ
           (fun _ => FileNotFound) (VInt 1) (VInt 2) some_manager).
  reflexivity.
Defined.

Lemma set_agent_same (m : manager) :
  SessionManager.set_agent m (global_agent m) = m.
Proof. by destruct m as [[] ?]. Qed.

Lemma same_session_refl (m : manager) : same_session m m.
Proof. by repeat split. Qed.

Lemma same_session_set_agent (m : manager) (a : agent) :
  session_id a = session_id (global_agent m) ->
  system_instructions a = system_instructions (global_agent m) ->
  same_session m (SessionManager.set_agent m a).
Proof. intros ? ?. by repeat split. Qed.

(** X19.  On a manager whose global session has the id [global-session],
    the id [registerSession] returns finds the shared agent, whatever the
    socket; the call changes [lastActivity] and nothing else. *)
Theorem register_then_lookup (m : manager) (socketId : str) (now : pyval) :
  sessionId (globalSession m) = global_session_id ->
  let r := SessionManager.registerSession m socketId now in
  SessionManager.getAgent r.1 (VStr r.2) = Some (global_agent m)
  /\ lastActivity (globalSession r.1) = now
  /\ global_agent r.1 = global_agent m
  /\ same_session m r.1.
Proof.
  intros Hm r. unfold r, SessionManager.registerSession,
    SessionManager.getAgent, SessionManager.getSession. cbn.
  rewrite Hm. rewrite bool_decide_eq_true_2 by done. by repeat split.
Qed.

Lemma register_then_lookup_witness :
  let r := SessionManager.registerSession some_manager (py "socket-7") (VInt 3) in
  SessionManager.getAgent r.1 (VStr r.2) = Some (global_agent some_manager)
  /\ lastActivity (globalSession r.1) = VInt 3
  /\ global_agent r.1 = global_agent some_manager
  /\ same_session some_manager r.1.
Proof.
  apply (register_then_lookup some_manager (py "socket-7") (VInt 3)).
  vm_compute. reflexivity.
Defined.

(** X20.  [SessionManager.cleanup] never raises; for every id but
    [global-session] it does nothing, and for that id it is the agent's
    [cleanup] seen through the manager: the agent stays connected exactly
    when it was connected and [disconnect] raised. *)
Theorem manager_cleanup_effect (m : manager) (sessionId : pyval)
    (disconnect_result : M unit) :
  let r := SessionManager.cleanup m sessionId disconnect_result in
  r.2 = inr tt
  /\ same_session m r.1
  /\ lastActivity (globalSession r.1) = lastActivity (globalSession m)
  /\ (sessionId <> VStr global_session_id -> r.1 = m)
  /\ (sessionId = VStr global_session_id ->
        _connected (global_agent r.1)
        = _connected (global_agent m) && negb (is_inr disconnect_result)).
Proof.
  intros r. unfold r, SessionManager.cleanup, SessionManager.getSession.
  destruct sessionId as [| | | |s| |];
    try (repeat split; (done || apply same_session_refl)).
  case_bool_decide as Hs.
  - subst s. unfold cleanup. fold (global_agent m).
    destruct (_connected (global_agent m)) eqn:Ec.
    + destruct disconnect_result as [e|u]; cbn.
      * rewrite set_agent_same. by repeat split.
      * by repeat split.
    + cbn. rewrite set_agent_same. by repeat split.
  - repeat split; try (done || apply same_session_refl). congruence.
Qed.

Lemma manager_cleanup_effect_witness :
  let m := SessionManager.set_agent some_manager
             (connected_agent (global_agent some_manager)) in
  let sessionId := VStr global_session_id in
  let disconnect_result : M unit := inl BackendError in
  let r := SessionManager.cleanup m sessionId disconnect_result in
  r.2 = inr tt
  /\ same_session m r.1
  /\ lastActivity (globalSession r.1) = lastActivity (globalSession m)
  /\ (sessionId <> VStr global_session_id -> r.1 = m)
  /\ (sessionId = VStr global_session_id ->
        _connected (global_agent r.1)
        = _connected (global_agent m) && negb (is_inr disconnect_result)).
Proof.
  exact (manager_cleanup_effect
           (SessionManager.set_agent some_manager
              (connected_agent (global_agent some_manager)))
           (VStr global_session_id) (inl BackendError)).
Defined.

(** ** The socket handlers *)

Section HandlerProperties.
Context {lim : limits}.
Variable py_repr : pyval -> str.

Lemma collect_blocks_with_emit (sid : str) (blocks : list block)
    (trace : list emitted) :
  collect_blocks_with (Some (Server.on_chunk sid)) blocks trace
  = (trace ++ chunk_events sid (block_texts blocks), inr (block_texts blocks)).
Proof.
  revert trace. induction blocks as [|[text|] blocks IH]; intros trace.
  - cbn. by rewrite app_nil_r.
  - cbn [collect_blocks_with block_texts]. unfold Server.on_chunk at 1.
    cbn [ret]. rewrite IH. cbn [bind ret chunk_events map].
    by rewrite <- app_assoc.
  - apply IH.
Qed.

Lemma collect_stream_with_emit (sid : str) (msgs : list message)
    (trace : list emitted) :
  collect_stream_with (Some (Server.on_chunk sid)) msgs trace
  = (trace ++ chunk_events sid (stream_texts msgs), inr (stream_texts msgs)).
Proof.
  revert trace. induction msgs as [|[content|] msgs IH]; intros trace.
  - cbn. by rewrite app_nil_r.
  - cbn [collect_stream_with stream_texts]. rewrite collect_blocks_with_emit.
    rewrite IH. cbn [bind ret]. unfold chunk_events.
    by rewrite map_app, <- app_assoc.
  - apply IH.
Qed.

Lemma collect_stream_quiet (msgs : list message) :
  collect_stream (Some (fun _ => ret tt)) msgs = inr (stream_texts msgs).
Proof.
  destruct (collect_stream_spec (Some (fun _ => ret tt)) msgs)
    as [[_ H]|(before & t & after & e & _ & _ & H & _)]; [done|discriminate].
Qed.

(** With the handler's callback, [process_with] is [process] with a
    callback that returns, and the chunk events are those of the whole
    stream once [query] has returned. *)
Lemma process_with_emit (self : agent) (h : heap) (prompt : str)
    (context : option loc) (sid : str) (sdk : backend) (trace : list emitted) :
  process_with lim py_repr self h prompt context (Some (Server.on_chunk sid)) sdk trace
  = let o := process lim py_repr self h prompt context (Some (fun _ => ret tt)) sdk in
    (o, trace ++ match out_prompt o, query_result sdk with
                 | Some _, inr _ => chunk_events sid (stream_texts (stream sdk))
                 | _, _ => []
                 end).
Proof.
  unfold process_with, process.
  destruct (bind (_format_prompt_with_context _ _ _) _) as [e|full_prompt];
    [cbn; by rewrite app_nil_r|].
  destruct (_connected self).
  - destruct (query_result sdk) as [e|u]; [cbn; by rewrite app_nil_r|].
    rewrite collect_stream_with_emit, collect_stream_quiet. done.
  - destruct (connect_result sdk) as [e|u]; [cbn; by rewrite app_nil_r|].
    destruct (query_result sdk) as [e|u']; [cbn; by rewrite app_nil_r|].
    rewrite collect_stream_with_emit, collect_stream_quiet. done.
Qed.

Lemma process_agent (self : agent) (h : heap) (prompt : str)
    (context : option loc) (on_chunk : option (str -> M unit)) (sdk : backend) :
  let a := out_agent (process lim py_repr self h prompt context on_chunk sdk) in
  session_id a = session_id self
  /\ system_instructions a = system_instructions self
  /\ (_connected self = true -> a = self).
Proof.
  unfold process.
  destruct (bind (_format_prompt_with_context _ _ _) _) as [e|full_prompt]; [done|].
  destruct (_connected self) eqn:E; [done|].
  by destruct (connect_result sdk).
Qed.

(** What the call of [process] in the handler leaves: the agent, the
    result and the chunk events.  Chunks are emitted only for the whole
    stream. *)
Lemma call_process_emit (self : agent) (prompt context : pyval) (sid : str)
    (sdk : backend) (trace : list emitted) :
  exists a r chunks,
    call_process lim py_repr self prompt context (Some (Server.on_chunk sid)) sdk trace
    = (a, r, trace ++ chunk_events sid chunks)
    /\ session_id a = session_id self
    /\ system_instructions a = system_instructions self
    /\ (_connected self = true -> a = self)
    /\ (chunks = [] \/ chunks = stream_texts (stream sdk))
    /\ (is_inr r = true -> chunks = stream_texts (stream sdk)).
Proof.
  assert (forall h c,
    exists a r chunks,
      (let run (h : heap) (context : option loc) :=
         match prompt with
         | VStr prompt =>
             let '(o, st) :=
               process_with lim py_repr self h prompt context
                 (Some (Server.on_chunk sid)) sdk trace in
             (out_agent o, out_result o, st)
         | _ =>
             let d := ensure_defaults self
                        (match context with Some l => h l | None => ∅ end) in
             (self,
              match _format_prompt_with_context py_repr [] d with
              | inl e => raise e
              | inr _ => raise TypeError
              end,
              trace)
         end in run h c)
      = (a, r, trace ++ chunk_events sid chunks)
      /\ session_id a = session_id self
      /\ system_instructions a = system_instructions self
      /\ (_connected self = true -> a = self)
      /\ (chunks = [] \/ chunks = stream_texts (stream sdk))
      /\ (is_inr r = true -> chunks = stream_texts (stream sdk))) as Hrun.
  { intros h c. cbn zeta.
    assert (forall r : M (gmap str pyval), is_inr r = false ->
      exists a r' chunks,
        (self, r, trace) = (a, r', trace ++ chunk_events sid chunks)
        /\ session_id a = session_id self
        /\ system_instructions a = system_instructions self
        /\ (_connected self = true -> a = self)
        /\ (chunks = [] \/ chunks = stream_texts (stream sdk))
        /\ (is_inr r' = true -> chunks = stream_texts (stream sdk))) as Hfail.
    { intros r Hr. exists self, r, []. cbn. rewrite app_nil_r.
      repeat split; try done; [by left|]. by rewrite Hr. }
    destruct prompt as [| | | |prompt| |];
      try (apply Hfail; by destruct (_format_prompt_with_context _ _ _)).
    rewrite process_with_emit. cbn zeta.
    set (o := process lim py_repr self h prompt c (Some (fun _ => ret tt)) sdk).
    destruct (process_agent self h prompt c (Some (fun _ => ret tt)) sdk)
      as (Hi & Hs & Hc). fold o in Hi, Hs, Hc.
    exists (out_agent o), (out_result o).
    destruct (out_prompt o) as [p|] eqn:Ep.
    - destruct (query_result sdk) as [e|u] eqn:Eq.
      + exists []. repeat split; try done; [by left|].
        unfold o, process in *.
        destruct (bind (_format_prompt_with_context _ _ _) _); [done|].
        destruct (_connected self); [cbn; by rewrite Eq|].
        destruct (connect_result sdk); [done|]. cbn. by rewrite Eq.
      + exists (stream_texts (stream sdk)). repeat split; try done. by right.
    - exists []. repeat split; try done; [by left|].
      unfold o, process in *.
      destruct (bind (_format_prompt_with_context _ _ _) _); [done|].
      destruct (_connected self); [done|].
      by destruct (connect_result sdk). }
  unfold call_process.
  destruct context as [| | | | | |d];
    [exact (Hrun (fun _ => ∅) None) | | | | |
     | exact (Hrun (fun _ => as_map d) (Some 0%nat))];
    (exists self, (inl AttributeError), []; cbn; rewrite app_nil_r;
     repeat split; try done; by left).
Qed.

Lemma chunk_events_rooms (sid : str) (texts : list str) :
  Forall (fun ev => ev_room ev = sid /\ ev_name ev <> py "claudeResponse")
         (chunk_events sid texts).
Proof. unfold chunk_events. apply Forall_map, Forall_true. by intros t. Qed.

(** The handler on a request for the global session whose prompt is a
    string and whose context is a dict: it is [process] on the shared
    agent, between the start event and the closing events. *)
Lemma ask_well_formed (m : manager) (sid : str) (data : gmap str pyval)
    (sdk : backend) (error_text prompt : str) (d : list (str * pyval)) :
  data !! Server.k_sessionId = Some (VStr global_session_id) ->
  default (VStr []) (data !! py "prompt") = VStr prompt ->
  default (VDict []) (data !! py "context") = VDict d ->
  Server.askClaudeCode lim py_repr m sid data sdk error_text
  = let o := process lim py_repr (global_agent m) (fun _ => as_map d) prompt
               (Some 0%nat) (Some (fun _ => ret tt)) sdk in
    let session := VStr global_session_id in
    (SessionManager.set_agent m (out_agent o),
     [Emit (py "claudeStreamStart") {[ Server.k_sessionId := session ]} sid]
     ++ match out_prompt o, query_result sdk with
        | Some _, inr _ => chunk_events sid (stream_texts (stream sdk))
        | _, _ => []
        end
     ++ match out_result o with
        | inr response =>
            [Emit (py "claudeStreamEnd") {[ Server.k_sessionId := session ]} sid;
             Emit (py "claudeResponse") response sid]
        | inl _ => [Emit (py "claudeResponse") (Server.error_payload error_text) sid]
        end).
Proof.
  intros Hs Hp Hc. unfold Server.askClaudeCode. rewrite Hs, Hp, Hc.
  cbn [from_option id]. unfold SessionManager.getAgent, SessionManager.getSession.
  rewrite bool_decide_eq_true_2 by done. fold (global_agent m).
  unfold call_process. rewrite process_with_emit. lazy beta iota zeta.
  destruct (out_result _); by rewrite <- app_assoc.
Qed.

(** X21.  Every request is answered by exactly one [claudeResponse]
    event, which is the last event of the handler; every event goes to
    the socket that sent the request. *)
Theorem ask_one_response (m : manager) (sid : str) (data : gmap str pyval)
    (sdk : backend) (error_text : str) :
  exists pre payload,
    (Server.askClaudeCode lim py_repr m sid data sdk error_text).2
    = pre ++ [Emit (py "claudeResponse") payload sid]
    /\ Forall (fun ev => ev_room ev = sid /\ ev_name ev <> py "claudeResponse") pre.
Proof.
  unfold Server.askClaudeCode.
  destruct (SessionManager.getAgent m _) as [a|]; [|by eexists [], _].
  set (start := Emit (py "claudeStreamStart") _ sid).
  destruct (call_process_emit a (default (VStr []) (data !! py "prompt"))
              (default (VDict []) (data !! py "context")) sid sdk [start])
    as (a' & r & chunks & -> & _).
  cbn [snd].
  assert (Forall (fun ev => ev_room ev = sid /\ ev_name ev <> py "claudeResponse")
            ([start] ++ chunk_events sid chunks)) as Hpre.
  { apply Forall_app. split; [|apply chunk_events_rooms].
    constructor; [|done]. by split. }
  destruct r as [e|response].
  - by eexists ([start] ++ chunk_events sid chunks), _.
  - exists (([start] ++ chunk_events sid chunks)
            ++ [Emit (py "claudeStreamEnd")
                  {[ Server.k_sessionId := default VNone (data !! Server.k_sessionId) ]}
                  sid]), response.
    split; [by rewrite <- !app_assoc|].
    apply Forall_app. split; [done|]. constructor; [|done]. by split.
Qed.

(** X22.  A request whose [sessionId] is anything but the string
    [global-session] (or is missing) gets the "No agent found" error as
    its only event: the backend is not contacted and the manager is left
    as it was. *)
Theorem ask_unknown_session (m : manager) (sid : str) (data : gmap str pyval)
    (sdk : backend) (error_text : str) :
  data !! Server.k_sessionId <> Some (VStr global_session_id) ->
  let session := default VNone (data !! Server.k_sessionId) in
  Server.askClaudeCode lim py_repr m sid data sdk error_text
  = (m, [Emit (py "claudeResponse")
           (Server.error_payload
              (py "No agent found for session: " ++ py_str py_repr session))
           sid]).
Proof.
  intros Hs session. unfold Server.askClaudeCode. fold session.
  unfold SessionManager.getAgent, SessionManager.getSession.
  destruct session as [| | | |s| |] eqn:E; try done.
  case_bool_decide as Hg; [|done]. subst s. exfalso. apply Hs.
  unfold session in E. by destruct (data !! Server.k_sessionId) as [v|]; simplify_eq/=.
Qed.

(** X23.  When the backend plays along on a well-typed request, the
    events are: the start, one chunk event for each text block of the
    stream in order, and then, when the decoding of the blocks joined by
    newlines returns, the end and the decoded response; when
    [json.loads] raises in the decoding, the error response, without an
    end.  The shared agent is connected afterwards. *)
Theorem ask_streams_then_replies (m : manager) (sid : str)
    (data : gmap str pyval) (sdk : backend) (error_text prompt : str)
    (d : list (str * pyval)) :
  data !! Server.k_sessionId = Some (VStr global_session_id) ->
  default (VStr []) (data !! py "prompt") = VStr prompt ->
  default (VDict []) (data !! py "context") = VDict d ->
  well_typed (as_map d) = true ->
  _connected (global_agent m) = true \/ is_inr (connect_result sdk) = true ->
  is_inr (query_result sdk) = true -> is_inr (stream_end sdk) = true ->
  let session := VStr global_session_id in
  let texts := stream_texts (stream sdk) in
  let r := Server.askClaudeCode lim py_repr m sid data sdk error_text in
  let streamed :=
    [Emit (py "claudeStreamStart") {[ Server.k_sessionId := session ]} sid]
    ++ chunk_events sid texts in
  match _parse_response lim (join newline texts)
          (ensure_defaults (global_agent m) (as_map d)) with
  | inr response =>
      r.2 = streamed
            ++ [Emit (py "claudeStreamEnd") {[ Server.k_sessionId := session ]} sid;
                Emit (py "claudeResponse") response sid]
  | inl e =>
      (e = RecursionError \/ e = ValueError)
      /\ r.2 = streamed
               ++ [Emit (py "claudeResponse") (Server.error_payload error_text) sid]
  end
  /\ _connected (global_agent r.1) = true
  /\ same_session m r.1.
Proof.
  intros Hs Hp Hc Hw Hconn Hq He session texts r. unfold r, texts, session.
  clear r texts session.
  rewrite (ask_well_formed m sid data sdk error_text prompt d) by done.
  cbv zeta.
  destruct (process_well_typed (lim:=lim) py_repr (global_agent m) (fun _ => as_map d)
              prompt 0%nat (Some (fun _ => ret tt)) sdk Hw) as [full_prompt Hf].
  change (@Some loc 0%nat) with (@Some nat 0%nat) in Hf. rewrite Hf. clear Hf.
  rewrite collect_stream_quiet.
  destruct (query_result sdk) as [|u]; [done|].
  destruct (stream_end sdk) as [|u']; [done|]. cbn [bind ret].
  destruct (parse_response_cases (lim:=lim)
              (join newline (stream_texts (stream sdk)))
              (ensure_defaults (global_agent m) (as_map d)))
    as [(j & _ & [(p & dd & _ & Hr)|[_ Hr]])|(e & _ & He' & Hr)];
    rewrite Hr;
    (destruct (_connected (global_agent m)) eqn:Ec;
     [cbn; rewrite set_agent_same; repeat split; done|]);
    (destruct Hconn as [|Hconn]; [done|]);
    (destruct (connect_result sdk); [done|]); cbn; by repeat split.
Qed.

(** X24.  When the backend fails on a well-typed request, the error
    response takes the place of the end event: a failed [connect] or
    [query] leaves the start and the error, and a stream that breaks off
    leaves in between the chunk events of every text block that was
    received.  After a failed [connect] the manager is as before. *)
Theorem ask_backend_failure (m : manager) (sid : str)
    (data : gmap str pyval) (sdk : backend) (error_text prompt : str)
    (d : list (str * pyval)) :
  data !! Server.k_sessionId = Some (VStr global_session_id) ->
  default (VStr []) (data !! py "prompt") = VStr prompt ->
  default (VDict []) (data !! py "context") = VDict d ->
  well_typed (as_map d) = true ->
  let session := VStr global_session_id in
  let start := Emit (py "claudeStreamStart") {[ Server.k_sessionId := session ]} sid in
  let failure := Emit (py "claudeResponse") (Server.error_payload error_text) sid in
  let r := Server.askClaudeCode lim py_repr m sid data sdk error_text in
  (_connected (global_agent m) = false -> is_inr (connect_result sdk) = false ->
     r = (m, [start; failure]))
  /\ (_connected (global_agent m) = true \/ is_inr (connect_result sdk) = true ->
      (is_inr (query_result sdk) = false -> r.2 = [start; failure])
      /\ (is_inr (query_result sdk) = true -> is_inr (stream_end sdk) = false ->
            r.2 = [start] ++ chunk_events sid (stream_texts (stream sdk))
                  ++ [failure])).
Proof.
  intros Hs Hp Hc Hw session start failure r. unfold r.
  rewrite (ask_well_formed m sid data sdk error_text prompt d) by done.
  destruct (process_well_typed (lim:=lim) py_repr (global_agent m) (fun _ => as_map d)
              prompt 0%nat (Some (fun _ => ret tt)) sdk Hw) as [full_prompt Hf].
  change (@Some loc 0%nat) with (@Some nat 0%nat) in Hf. rewrite Hf. clear Hf.
  rewrite collect_stream_quiet. split.
  - intros -> Hconn. destruct (connect_result sdk); [|done].
    cbn. by rewrite set_agent_same.
  - intros Hconn. cbv zeta. split.
    + intros Hq. destruct (query_result sdk) as [e|]; [|done].
      destruct (_connected (global_agent m)); [done|].
      destruct Hconn as [|Hconn]; [done|]. by destruct (connect_result sdk).
    + intros Hq He. destruct (query_result sdk) as [|u]; [done|].
      destruct (stream_end sdk) as [e|]; [|done]. cbn [bind ret].
      destruct (_connected (global_agent m)); [done|].
      destruct Hconn as [|Hconn]; [done|]. by destruct (connect_result sdk).
Qed.

(** X25.  A prompt that is not a string, or a context that is neither
    [None] nor a dict, is answered with the start event and the error,
    and [process] raises before the [try] block: the backend is not
    contacted and the manager is left as it was. *)
Theorem ask_malformed_request (m : manager) (sid : str)
    (data : gmap str pyval) (sdk : backend) (error_text : str) :
  data !! Server.k_sessionId = Some (VStr global_session_id) ->
  let prompt := default (VStr []) (data !! py "prompt") in
  let context := default (VDict []) (data !! py "context") in
  is_str prompt = false
  \/ (context <> VNone /\ is_dict context = false) ->
  Server.askClaudeCode lim py_repr m sid data sdk error_text
  = (m, [Emit (py "claudeStreamStart")
           {[ Server.k_sessionId := VStr global_session_id ]} sid;
         Emit (py "claudeResponse") (Server.error_payload error_text) sid]).
Proof.
  intros Hs prompt context Hbad. unfold Server.askClaudeCode.
  fold prompt context. rewrite Hs. cbn [from_option id].
  unfold SessionManager.getAgent, SessionManager.getSession.
  rewrite bool_decide_eq_true_2 by done. fold (global_agent m).
  unfold call_process.
  destruct context as [| | | | | |d] eqn:Ec;
    try (cbn; by rewrite set_agent_same);
    (destruct Hbad as [Hbad|[? ?]]; [|done]);
    (destruct prompt; try done;
     destruct (_format_prompt_with_context _ _ _);
     cbn; by rewrite set_agent_same).
Qed.

(** X26.  No handler changes the identity of the global session, its
    creation time, the session table or the agent's instructions;
    [askClaudeCode] and [disconnect] leave [lastActivity] alone, and no
    handler disconnects a connected agent. *)
Theorem handlers_keep_session (m : manager) (sid : str) (now : pyval)
    (data : gmap str pyval) (sdk : backend) (error_text : str) :
  let connected := Server.connect m sid now in
  let asked := Server.askClaudeCode lim py_repr m sid data sdk error_text in
  let left := Server.disconnect m sid in
  same_session m connected.1 /\ same_session m asked.1 /\ left = (m, [])
  /\ global_agent connected.1 = global_agent m
  /\ lastActivity (globalSession asked.1) = lastActivity (globalSession m)
  /\ (_connected (global_agent m) = true -> global_agent asked.1 = global_agent m).
Proof.
  intros connected asked left. split; [by repeat split|].
  assert (same_session m asked.1
          /\ lastActivity (globalSession asked.1) = lastActivity (globalSession m)
          /\ (_connected (global_agent m) = true ->
                global_agent asked.1 = global_agent m)) as (? & ? & ?);
    [|split; [done|]; split; [done|]; split; [done|]; by split].
  unfold asked, Server.askClaudeCode.
  destruct (SessionManager.getAgent m _) as [a|] eqn:Ea;
    [|split; [apply same_session_refl|done]].
  assert (a = global_agent m) as ->.
  { unfold SessionManager.getAgent in Ea.
    destruct (SessionManager.getSession m _) as [s|] eqn:Es; [|done].
    injection Ea as <-. unfold SessionManager.getSession in Es.
    destruct (default VNone _); try done. by case_bool_decide; simplify_eq. }
  destruct (call_process_emit (global_agent m)
              (default (VStr []) (data !! py "prompt"))
              (default (VDict []) (data !! py "context")) sid sdk
              [Emit (py "claudeStreamStart")
                 {[ Server.k_sessionId := default VNone (data !! Server.k_sessionId) ]}
                 sid])
    as (a' & r & chunks & -> & Hi & Hsys & Hc & _).
  cbn [fst]. split; [by apply same_session_set_agent|]. split; [done|].
  intros Hconn. by rewrite (Hc Hconn).
Qed.

(** X27.  The id that [connect] sends to a client is the one
    [askClaudeCode] accepts: on a manager whose global session has the id
    [global-session], a request carrying that id, from whatever socket,
    reaches the agent, and its first event is the start of the stream. *)
Theorem registered_id_is_accepted (m : manager) (sid : str) (now : pyval) :
  sessionId (globalSession m) = global_session_id ->
  let r := Server.connect m sid now in
  exists s,
    r.2 = [Emit (py "sessionRegistered") {[ Server.k_sessionId := VStr s ]} sid]
    /\ forall (sid' : str) (data : gmap str pyval) (sdk : backend)
              (error_text : str),
         data !! Server.k_sessionId = Some (VStr s) ->
         exists events,
           (Server.askClaudeCode lim py_repr r.1 sid' data sdk error_text).2
           = Emit (py "claudeStreamStart") {[ Server.k_sessionId := VStr s ]} sid'
             :: events.
Proof.
  intros Hm r. exists global_session_id. split.
  - unfold r, Server.connect, SessionManager.registerSession. cbn. by rewrite Hm.
  - intros sid' data sdk error_text Hs. unfold Server.askClaudeCode.
    rewrite Hs. cbn [from_option id].
    unfold SessionManager.getAgent, SessionManager.getSession.
    rewrite bool_decide_eq_true_2 by done.
    destruct (call_process_emit (session_agent (globalSession r.1))
                (default (VStr []) (data !! py "prompt"))
                (default (VDict []) (data !! py "context")) sid' sdk
                [Emit (py "claudeStreamStart")
                   {[ Server.k_sessionId := VStr global_session_id ]} sid'])
      as (a' & res & chunks & -> & _).
    cbn [snd]. destruct res; by eexists.
Qed.
End HandlerProperties.

Lemma registered_id_is_accepted_witness :
  let sid := py "socket-7" in
  let r := Server.connect some_manager sid (VInt 3) in
  exists s,
    r.2 = [Emit (py "sessionRegistered") {[ Server.k_sessionId := VStr s ]} sid]
    /\ forall (sid' : str) (data : gmap str pyval) (sdk : backend)
              (error_text : str),
         data !! Server.k_sessionId = Some (VStr s) ->
         exists events,
           (Server.askClaudeCode default_limits (fun _ => []) r.1 sid' data sdk error_text).2
           = Emit (py "claudeStreamStart") {[ Server.k_sessionId := VStr s ]} sid'
             :: events.
Proof.
  apply (registered_id_is_accepted (fun _ => []) some_manager (py "socket-7") (VInt 3)).
  vm_compute. reflexivity.
Defined.

Lemma handlers_keep_session_witness :
  let m := some_manager in
  let sid := py "socket-7" in
  let connected := Server.connect m sid (VInt 3) in
  let asked := Server.askClaudeCode default_limits (fun _ => []) m sid some_request
                 (Backend (inr tt) (inr tt) some_stream (inr tt)) [] in
  let left := Server.disconnect m sid in
  same_session m connected.1 /\ same_session m asked.1 /\ left = (m, [])
  /\ global_agent connected.1 = global_agent m
  /\ lastActivity (globalSession asked.1) = lastActivity (globalSession m)
  /\ (_connected (global_agent m) = true -> global_agent asked.1 = global_agent m).
Proof.
  exact (handlers_keep_session (fun _ => []) some_manager (py "socket-7") (VInt 3)
           some_request (Backend (inr tt) (inr tt) some_stream (inr tt)) []).
Defined.

Lemma ask_malformed_request_witness :
  let data := <[py "prompt" := VInt 7]> some_request in
  let sdk := Backend (inr tt) (inr tt) some_stream (inr tt) in
  Server.askClaudeCode default_limits (fun _ => []) some_manager (py "socket-7") data sdk
    (py "sequence item 19: expected str instance, int found")
  = (some_manager,
     [Emit (py "claudeStreamStart")
        {[ Server.k_sessionId := VStr global_session_id ]} (py "socket-7");
      Emit (py "claudeResponse")
        (Server.error_payload (py "sequence item 19: expected str instance, int found"))
        (py "socket-7")]).
Proof.
  apply (ask_malformed_request (fun _ => []) some_manager (py "socket-7")
           (<[py "prompt" := VInt 7]> some_request)
           (Backend (inr tt) (inr tt) some_stream (inr tt))
           (py "sequence item 19: expected str instance, int found")).
  - vm_compute. reflexivity.
  - left. vm_compute. reflexivity.
Defined.

Lemma ask_backend_failure_witness :
  let m := some_manager in
  let sid := py "socket-7" in
  let sdk := Backend (inr tt) (inr tt) some_stream (inl BackendError) in
  let error_text := py "stream closed" in
  let session := VStr global_session_id in
  let start := Emit (py "claudeStreamStart") {[ Server.k_sessionId := session ]} sid in
  let failure := Emit (py "claudeResponse") (Server.error_payload error_text) sid in
  let r := Server.askClaudeCode default_limits (fun _ => []) m sid some_request sdk error_text in
  (_connected (global_agent m) = false -> is_inr (connect_result sdk) = false ->
     r = (m, [start; failure]))
  /\ (_connected (global_agent m) = true \/ is_inr (connect_result sdk) = true ->
      (is_inr (query_result sdk) = false -> r.2 = [start; failure])
      /\ (is_inr (query_result sdk) = true -> is_inr (stream_end sdk) = false ->
            r.2 = [start] ++ chunk_events sid (stream_texts (stream sdk))
                  ++ [failure])).
Proof.
  apply (ask_backend_failure (fun _ => []) some_manager (py "socket-7")
           some_request (Backend (inr tt) (inr tt) some_stream (inl BackendError))
           (py "stream closed") (py "hi") []);
    vm_compute; reflexivity.
Defined.

Lemma ask_streams_then_replies_witness :
  let sid := py "socket-7" in
  let sdk := Backend (inr tt) (inr tt) some_stream (inr tt) in
  let session := VStr global_session_id in
  let texts := stream_texts (stream sdk) in
  let r := Server.askClaudeCode default_limits (fun _ => []) some_manager sid
             some_request sdk [] in
  let streamed :=
    [Emit (py "claudeStreamStart") {[ Server.k_sessionId := session ]} sid]
    ++ chunk_events sid texts in
  match _parse_response default_limits (join newline texts)
          (ensure_defaults (global_agent some_manager) (as_map [])) with
  | inr response =>
      r.2 = streamed
            ++ [Emit (py "claudeStreamEnd") {[ Server.k_sessionId := session ]} sid;
                Emit (py "claudeResponse") response sid]
  | inl e =>
      (e = RecursionError \/ e = ValueError)
      /\ r.2 = streamed
               ++ [Emit (py "claudeResponse") (Server.error_payload []) sid]
  end
  /\ _connected (global_agent r.1) = true
  /\ same_session some_manager r.1.
Proof.
  apply (ask_streams_then_replies (lim:=default_limits) (fun _ => []) some_manager
           (py "socket-7") some_request
           (Backend (inr tt) (inr tt) some_stream (inr tt)) [] (py "hi") []);
    try (vm_compute; reflexivity).
  right. reflexivity.
Defined.

Lemma ask_unknown_session_witness :
  let data : gmap str pyval := {[ Server.k_sessionId := VStr (py "session-1") ]} in
  let sdk := Backend (inr tt) (inr tt) some_stream (inr tt) in
  let session := default VNone (data !! Server.k_sessionId) in
  Server.askClaudeCode default_limits (fun _ => []) some_manager (py "socket-7") data sdk []
  = (some_manager,
     [Emit (py "claudeResponse")
        (Server.error_payload
           (py "No agent found for session: " ++ py_str (fun _ => []) session))
        (py "socket-7")]).
Proof.
  apply (ask_unknown_session (fun _ => []) some_manager (py "socket-7")
           {[ Server.k_sessionId := VStr (py "session-1") ]}
           (Backend (inr tt) (inr tt) some_stream (inr tt)) []).
  vm_compute. discriminate.
Defined.
